(** * Backend communication of the Facto web editor

    A shallow embedding of [src/frontend/js/compiler.js]: the streaming
    compilation client [compileWithStreaming], the one-shot client
    [compileSync] and the two probes [checkHealth] and [connect].

    The JavaScript is asynchronous, but every function here is one logical
    flow: each [await] is a point where the environment supplies a value, so
    the embedding is sequential.  The environment (the network, the built-ins
    of the engine) is an explicit [Runtime]; the observable effects (callback
    invocations and [console.error] lines) are recorded in a trace.

    Outside the embedding: [JSON.stringify] (a request carries the object
    that is serialized), a [fetch] that never settles and a response body
    whose reads never end (every statement is about invocations whose
    request and reads settle), and calls
    whose [options] or [callbacks] argument is not an object or whose
    callbacks are not functions.

    Of the application around the client the embedding has what is
    independent of the rendering: the names of the downloads, the
    persistence of the editor content, the theme manager, the connection
    indicator with its health checks, and [debounce].  There the storage
    accepts what is written to it, and flows that the application starts
    without awaiting them run one after the other. *)

From Stdlib Require Import List NArith ZArith Bool Ascii String Lia.
From Stdlib.Strings Require Import Byte.
From Stdlib Require Import DecimalString.
Import ListNotations.

Set Implicit Arguments.
Set Warnings "-register-all".

(** ** Strings

    A JavaScript string is a sequence of UTF-16 code units. *)

Definition codeunit := N.
Definition jstring := list codeunit.

Definition js (s : string) : jstring :=
  map N_of_ascii (list_ascii_of_string s).

(** [status] in a template literal: the decimal digits of the number. *)
Definition decimal (n : N) : jstring :=
  js (NilZero.string_of_uint (N.to_uint n)).

Fixpoint jstring_eqb (a b : jstring) : bool :=
  match a, b with
  | [], [] => true
  | x :: a', y :: b' => N.eqb x y && jstring_eqb a' b'
  | _, _ => false
  end.

(** [String.prototype.startsWith]. *)
Fixpoint startsWith (prefix s : jstring) : bool :=
  match prefix, s with
  | [], _ => true
  | p :: prefix', c :: s' => N.eqb p c && startsWith prefix' s'
  | _ :: _, [] => false
  end.

(** [String.prototype.slice(n)] for a non-negative [n]. *)
Definition slice (n : nat) (s : jstring) : jstring := skipn n s.

Definition LF : codeunit := 10%N.

(** [String.prototype.split] with a one-character separator: the pieces
    between the separators, never an empty array. *)
Fixpoint split (sep : codeunit) (s : jstring) : list jstring :=
  match s with
  | [] => [[]]
  | c :: s' =>
      if N.eqb c sep then [] :: split sep s'
      else match split sep s' with
           | [] => [[c]]
           | piece :: pieces => (c :: piece) :: pieces
           end
  end.

(** [Array.prototype.pop]: the array without its last element, and that
    element.  ([split] never yields the empty array, where [pop] would give
    [undefined].) *)
Definition pop (lines : list jstring) : list jstring * jstring :=
  (removelast lines, last lines []).

(** ** Values

    The values the client handles: what [JSON.parse] and [response.json()]
    produce, plus [undefined] (a missing property).  Numbers are those of
    the engine. *)

Section Values.

Variable number : Type.

Inductive value : Type :=
| VUndefined
| VNull
| VBool (b : bool)
| VNumber (n : number)
| VString (s : jstring)
| VArray (items : list value)
| VObject (props : list (jstring * value)).

Variable number_ToBoolean : number -> bool.
Variable number_ToString : number -> jstring.

(** The abstract operation ToBoolean. *)
Definition ToBoolean (v : value) : bool :=
  match v with
  | VUndefined | VNull => false
  | VBool b => b
  | VNumber n => number_ToBoolean n
  | VString s => match s with [] => false | _ => true end
  | VArray _ | VObject _ => true
  end.

(** The own property [key] of an object given by its properties. *)
Fixpoint lookup (key : jstring) (props : list (jstring * value))
    : option value :=
  match props with
  | [] => None
  | (k, v) :: rest => if jstring_eqb k key then Some v else lookup key rest
  end.

(** The abstract operation ToString on these values, [None] when it raises
    a [TypeError].  An array is its elements joined by commas, [null] and
    [undefined] elements being empty.  A plain object is
    ["[object Object]"] by the [toString] it inherits; with a [toString]
    property of its own, which in a value of JSON is no function, it cannot
    be converted. *)
Fixpoint ToString (v : value) : option jstring :=
  match v with
  | VUndefined => Some (js "undefined")
  | VNull => Some (js "null")
  | VBool true => Some (js "true")
  | VBool false => Some (js "false")
  | VNumber n => Some (number_ToString n)
  | VString s => Some s
  | VArray items =>
      (fix join (l : list value) : option jstring :=
         match l with
         | [] => Some []
         | x :: rest =>
             match (match x with
                    | VUndefined | VNull => Some []
                    | _ => ToString x
                    end) with
             | None => None
             | Some piece =>
                 match rest with
                 | [] => Some piece
                 | _ :: _ =>
                     match join rest with
                     | None => None
                     | Some more => Some (piece ++ js "," ++ more)
                     end
                 end
             end
         end) items
  | VObject props =>
      match lookup (js "toString") props with
      | Some _ => None
      | None => Some (js "[object Object]")
      end
  end.

(** [a || b]. *)
Definition js_or (a b : value) : value :=
  if ToBoolean a then a else b.

(** ** Thrown values

    What a [catch] clause can observe of a thrown value here is its
    [message] property.  [thrown_message] is [None] when [null] or
    [undefined] was thrown, where reading [.message] itself raises. *)
Record thrown : Type := Thrown { thrown_message : option value }.

(** [new Error(message)] and the engine's own errors, which carry a string. *)
Definition JsError (message : jstring) : thrown :=
  Thrown (Some (VString message)).

Inductive outcome (A : Type) : Type :=
| Ret (a : A)
| Throw (e : thrown).

End Values.

Arguments VUndefined {number}.
Arguments VNull {number}.
Arguments VBool {number} b.
Arguments VString {number} s.
Arguments Ret {number A} a.
Arguments Throw {number A} e.
Arguments Thrown {number} thrown_message.
Arguments JsError {number} message.

(** ** The environment *)

Section Network.

Variable number : Type.

(** What [fetch] is called with.  [body] is the object handed to
    [JSON.stringify] (absent for the probes). *)
Record request : Type := Request {
  url : jstring;
  method : jstring;
  headers : list (jstring * jstring);
  mode : option jstring;
  body : option (value number)
}.

(** How a response body ends: [reader.read()] reports [done], or rejects
    with an error carrying a message. *)
Inductive closing : Type :=
| Closed
| Errored (message : jstring).

(** The reads of a response body: the chunks [reader.read()] resolves to,
    in order, and how the stream ends. *)
Record stream : Type := Stream {
  chunks : list (list byte);
  ending : closing
}.

(** A response: its status, what [response.json()] settles to (a value, or
    a rejection), and [response.body] ([None] when it is [null]). *)
Record response : Type := Response {
  status : N;
  json : outcome number (value number);
  reads : option stream
}.

(** [response.ok]: the status is in the range 200 to 299. *)
Definition ok (r : response) : bool :=
  (200 <=? status r)%N && (status r <=? 299)%N.

(** [await fetch(...)]: rejected with an error carrying a message, or
    resolved to a response. *)
Inductive fetched : Type :=
| Rejected (message : jstring)
| Resolved (r : response).

End Network.

Arguments Rejected {number} message.

(** The built-ins and the page the script runs in. *)
Record Runtime : Type := {
  number : Type;
  number_ToBoolean : number -> bool;
  number_ToString : number -> jstring;
  (** [JSON.parse]; [None] when it throws a [SyntaxError], whose message is
      [SyntaxError_message] of the text. *)
  JSON_parse : jstring -> option (value number);
  SyntaxError_message : jstring -> jstring;
  (** The message of the [TypeError] raised on reading the named property of
      [null]. *)
  TypeError_message : jstring -> jstring;
  (** The message of the [TypeError] raised when an object cannot be
      converted to a primitive value. *)
  ToPrimitive_message : jstring;
  (** [TextDecoder] used with [{stream: true}]: a byte-by-byte transducer
      that keeps an unfinished multi-byte sequence in its state. *)
  decoder : Type;
  TextDecoder : decoder;
  decode_byte : decoder -> byte -> decoder * jstring;
  (** [CONFIG.backendUrl]. *)
  backendUrl : jstring;
  fetch : request number -> fetched number
}.

(** [CONFIG.endpoints]. *)
Module endpoints.
Definition compile : jstring := js "/compile".
Definition compileSync : jstring := js "/compile/sync".
Definition health : jstring := js "/health".
Definition connect : jstring := js "/connect".
End endpoints.

Section Effects.

Variable number : Type.

Local Abbreviation value := (value number).
Local Abbreviation thrown := (thrown number).
Local Abbreviation outcome := (outcome number).

(** ** Effects

    The trace records, in order, every callback invocation and every
    [console.error] line. *)
Inductive call : Type :=
| OnLog (content : value)
| OnBlueprint (content : value)
| OnJson (content : value)
| OnError (message : value)
| OnStatus (content : value)
| OnQueue (content : value)
| OnComplete
| ConsoleError (e : thrown).

(** A callback is client code: given what has happened so far and its
    argument, it returns ([None]) or throws. *)
Definition handler : Type := list call -> value -> option thrown.

Record callbacks : Type := Callbacks {
  onLog : option handler;
  onBlueprint : option handler;
  onJson : option handler;
  onError : option handler;
  onStatus : option handler;
  onQueue : option handler;
  onComplete : option (list call -> option thrown)
}.

(** The state of one invocation: the trace and the latch [completeCalled]. *)
Record state : Type := State {
  trace : list call;
  completeCalled : bool
}.

(** One invocation starts with an empty trace and an open latch. *)
Definition start : state := State [] false.

Definition M (A : Type) : Type := state -> outcome A * state.

Definition ret {A} (a : A) : M A := fun s => (Ret a, s).

Definition throw {A} (e : thrown) : M A := fun s => (Throw e, s).

Definition bind {A B} (m : M A) (k : A -> M B) : M B :=
  fun s =>
    match m s with
    | (Ret a, s1) => k a s1
    | (Throw e, s1) => (Throw e, s1)
    end.

(** [try { body } catch (e) { handle e }]. *)
Definition try_catch {A} (body : M A) (handle : thrown -> M A) : M A :=
  fun s =>
    match body s with
    | (Ret a, s1) => (Ret a, s1)
    | (Throw e, s1) => handle e s1
    end.

(** A pure step that may throw. *)
Definition lift {A} (o : outcome A) : M A := fun s => (o, s).

(** [console.error('Failed to parse SSE data:', e)]. *)
Definition console_error (e : thrown) : M unit :=
  fun s => (Ret tt, State (trace s ++ [ConsoleError e]) (completeCalled s)).

(** [callback?.(argument)]: nothing is evaluated when the callback is
    absent; otherwise the argument is evaluated and the callback runs. *)
Definition optional_call (mk : value -> call) (callback : option handler)
    (argument : outcome value) : M unit :=
  match callback with
  | None => ret tt
  | Some h =>
      bind (lift argument) (fun v s =>
        let s1 := State (trace s ++ [mk v]) (completeCalled s) in
        match h (trace s) v with
        | None => (Ret tt, s1)
        | Some e => (Throw e, s1)
        end)
  end.

(** The request options, each property possibly [undefined]. *)
Record options : Type := Options {
  powerPoles : value;
  blueprintName : value;
  noOptimize : value;
  jsonOutput : value;
  logLevel : value
}.

End Effects.

Arguments OnLog {number} content.
Arguments OnBlueprint {number} content.
Arguments OnJson {number} content.
Arguments OnError {number} message.
Arguments OnStatus {number} content.
Arguments OnQueue {number} content.
Arguments OnComplete {number}.
Arguments ConsoleError {number} e.
Arguments Callbacks {number} onLog onBlueprint onJson onError onStatus onQueue
  onComplete.
Arguments Options {number} powerPoles blueprintName noOptimize jsonOutput logLevel.
Arguments State {number} trace completeCalled.
Arguments start {number}.
Arguments console_error {number} e.
Arguments optional_call {number} mk callback argument.
Arguments ret {number A} a.
Arguments throw {number A} e.
Arguments lift {number A} o.

Section Client.

Context (R : Runtime).

Local Abbreviation value := (value (number R)).
Local Abbreviation thrown := (thrown (number R)).
Local Abbreviation outcome := (outcome (number R)).
Local Abbreviation M := (M (number R)).

Definition truthy : value -> bool := ToBoolean (number_ToBoolean R).
Definition to_string : value -> option jstring :=
  ToString (number_ToString R).
Definition or_else : value -> value -> value := js_or (number_ToBoolean R).

(** [decoder.decode(value, { stream: true })]. *)
Fixpoint decode (d : decoder R) (bytes : list byte) : decoder R * jstring :=
  match bytes with
  | [] => (d, [])
  | b :: rest =>
      let (d1, text1) := decode_byte R d b in
      let (d2, text2) := decode d1 rest in
      (d2, text1 ++ text2)
  end.

(** [v.p] for the properties the client reads ([type], [content] and
    [message]), none of which a string, an array, a number or a boolean
    has of its own or inherits: reading them off [null] or [undefined]
    raises a [TypeError], off anything else but an object that has them
    gives [undefined]. *)
Definition get (v : value) (p : jstring) : outcome value :=
  match v with
  | VUndefined | VNull => Throw (JsError (TypeError_message R p))
  | VObject props =>
      match lookup p props with
      | Some x => Ret x
      | None => Ret VUndefined
      end
  | _ => Ret VUndefined
  end.

Definition json_headers : list (jstring * jstring) :=
  [(js "Content-Type", js "application/json")].

Section compileWithStreaming.

Variable source : jstring.
Variable opts : options (number R).
Variable cbs : callbacks (number R).

(** [requestBody] of [compileWithStreaming] (lines 32-39). *)
Definition requestBody : value :=
  VObject [
    (js "source", VString source);
    (js "power_poles", or_else (powerPoles opts) VNull);
    (js "blueprint_name", or_else (blueprintName opts) VNull);
    (js "no_optimize", or_else (noOptimize opts) (VBool false));
    (js "json_output", VBool false);
    (js "log_level", or_else (logLevel opts) (VString (js "info")))
  ].

(** [callComplete] (lines 42-47): the latch is set before [onComplete]
    runs. *)
Definition callComplete : M unit :=
  fun s =>
    if completeCalled s then (Ret tt, s)
    else
      match onComplete cbs with
      | None => (Ret tt, State (trace s) true)
      | Some h =>
          let s1 := State (trace s ++ [OnComplete]) true in
          match h (trace s) with
          | None => (Ret tt, s1)
          | Some e => (Throw e, s1)
          end
      end.

(** The [switch (event.type)] of the stream loop (lines 88-110).  The
    cases compare with [===], so only a string matches. *)
Definition dispatch (event : value) : M unit :=
  bind (lift (get event (js "type"))) (fun type =>
    match type with
    | VString t =>
        if jstring_eqb t (js "log") then
          optional_call OnLog (onLog cbs) (get event (js "content"))
        else if jstring_eqb t (js "blueprint") then
          optional_call OnBlueprint (onBlueprint cbs) (get event (js "content"))
        else if jstring_eqb t (js "json") then
          optional_call OnJson (onJson cbs) (get event (js "content"))
        else if jstring_eqb t (js "error") then
          optional_call OnError (onError cbs) (get event (js "content"))
        else if jstring_eqb t (js "status") then
          optional_call OnStatus (onStatus cbs) (get event (js "content"))
        else if jstring_eqb t (js "queue") then
          optional_call OnQueue (onQueue cbs) (get event (js "content"))
        else if jstring_eqb t (js "end") then
          callComplete
        else ret tt
    | _ => ret tt
    end).

(** [JSON.parse(data)]. *)
Definition parse (data : jstring) : outcome value :=
  match JSON_parse R data with
  | Some v => Ret v
  | None => Throw (JsError (SyntaxError_message R data))
  end.

(** The [try { ... } catch (e) { console.error(...) }] around one payload
    (lines 85-113). *)
Definition process_data (data : jstring) : M unit :=
  try_catch
    (bind (lift (parse data)) dispatch)
    console_error.

(** The body of [for (const line of lines)] (lines 82-114). *)
Definition process_line (line : jstring) : M unit :=
  if startsWith (js "data: ") line then process_data (slice 6 line)
  else ret tt.

(** [for (const line of lines)]. *)
Fixpoint for_of (lines : list jstring) : M unit :=
  match lines with
  | [] => ret tt
  | line :: rest => bind (process_line line) (fun _ => for_of rest)
  end.

(** The [while (true)] loop over [reader.read()] (lines 68-116), by
    recursion on the reads still to come: a chunk is decoded and appended to
    the buffer, the buffer is split at line feeds, its last piece is kept
    and the others go through the loop body. *)
Fixpoint read_loop (pending : list (list byte)) (last_read : closing)
    (d : decoder R) (buffer : jstring) : M unit :=
  match pending with
  | [] =>
      match last_read with
      | Closed => ret tt
      | Errored message => throw (JsError message)
      end
  | chunk :: rest =>
      let (d1, text) := decode d chunk in
      let (lines, buffer1) := pop (split LF (buffer ++ text)) in
      bind (for_of lines) (fun _ => read_loop rest last_read d1 buffer1)
  end.

(** What the [if (!response.ok)] block throws: the [Error] made from
    [errorData.message || `Server error: ${response.status}`], the
    [TypeError] of the engine when that value cannot be converted to a
    string, or what reading [errorData.message] raises; [errorData] is [{}]
    when [response.json()] rejects. *)
Definition server_error (r : response (number R)) : thrown :=
  let errorData := match json r with
                   | Ret v => v
                   | Throw _ => VObject []
                   end in
  match get errorData (js "message") with
  | Ret message =>
      match to_string
              (or_else message
                 (VString (js "Server error: " ++ decimal (status r)))) with
      | Some text => JsError text
      | None => JsError (ToPrimitive_message R)
      end
  | Throw e => e
  end.

(** The request of [compileWithStreaming] (lines 50-56). *)
Definition compile_request : request (number R) :=
  Request (backendUrl R ++ endpoints.compile) (js "POST") json_headers None
          (Some requestBody).

(** The body of the outer [catch (error)] (lines 120-123). *)
Definition on_failure (error : thrown) : M unit :=
  bind (optional_call OnError (onError cbs)
          (match thrown_message error with
           | Some message => Ret message
           | None => Throw (JsError (TypeError_message R (js "message")))
           end))
       (fun _ => callComplete).

(** [compileWithStreaming(source, options, callbacks)] (lines 29-124). *)
Definition compileWithStreaming : M unit :=
  try_catch
    (match fetch R compile_request with
     | Rejected message => throw (JsError message)
     | Resolved r =>
         if negb (ok r) then throw (server_error r)
         else
           match reads r with
           | None => throw (JsError (TypeError_message R (js "getReader")))
           | Some body =>
               bind (read_loop (chunks body) (ending body) (TextDecoder R) [])
                    (fun _ => callComplete)
           end
     end)
    on_failure.

End compileWithStreaming.

Section compileSync.

Variable source : jstring.
Variable opts : options (number R).

(** [requestBody] of [compileSync] (lines 130-137). *)
Definition sync_requestBody : value :=
  VObject [
    (js "source", VString source);
    (js "power_poles", or_else (powerPoles opts) VNull);
    (js "blueprint_name", or_else (blueprintName opts) VNull);
    (js "no_optimize", or_else (noOptimize opts) (VBool false));
    (js "json_output", or_else (jsonOutput opts) (VBool false));
    (js "log_level", or_else (logLevel opts) (VString (js "info")))
  ].

Definition sync_request : request (number R) :=
  Request (backendUrl R ++ endpoints.compileSync) (js "POST") json_headers None
          (Some sync_requestBody).

(** [compileSync(source, options)] (lines 129-153). *)
Definition compileSync : outcome value :=
  match fetch R sync_request with
  | Rejected message => Throw (JsError message)
  | Resolved r =>
      if negb (ok r) then Throw (server_error r)
      else json r
  end.

End compileSync.

Definition health_request : request (number R) :=
  Request (backendUrl R ++ endpoints.health) (js "GET") []
          (Some (js "cors")) None.

Definition connect_request : request (number R) :=
  Request (backendUrl R ++ endpoints.connect) (js "POST") []
          (Some (js "cors")) None.

(** [try { body } catch { return fallback; }] where nothing but the
    result matters. *)
Definition try_or {A} (body : outcome A) (fallback : A) : outcome A :=
  match body with
  | Ret a => Ret a
  | Throw _ => Ret fallback
  end.

(** [checkHealth()] (lines 158-168). *)
Definition checkHealth : outcome bool :=
  try_or
    (match fetch R health_request with
     | Rejected message => Throw (JsError message)
     | Resolved r => Ret (ok r)
     end)
    false.

(** [connect()] (lines 173-183). *)
Definition connect : outcome bool :=
  try_or
    (match fetch R connect_request with
     | Rejected message => Throw (JsError message)
     | Resolved r => Ret (ok r)
     end)
    false.

End Client.

(** ** A runtime to run the client on

    Decoding is the UTF-8 decoder of the Encoding standard; numbers are
    integers; [JSON.parse] is given by a finite table of texts and their
    values and rejects every other text. *)

Module UTF8.

Record decoder : Type := Decoder {
  code_point : N;
  bytes_seen : N;
  bytes_needed : N;
  lower_boundary : N;
  upper_boundary : N;
  bom_seen : bool
}.

Definition fresh : decoder := Decoder 0 0 0 0x80 0xBF false.

Definition reset (d : decoder) : decoder :=
  Decoder 0 0 0 0x80 0xBF (bom_seen d).

(** A code point as UTF-16 code units. *)
Definition utf16 (cp : N) : jstring :=
  if (cp <? 0x10000)%N then [cp]
  else
    let c := (cp - 0x10000)%N in
    [(0xD800 + N.shiftr c 10)%N; (0xDC00 + N.land c 0x3FF)%N].

(** A decoded code point leaves the decoder; a leading U+FEFF is dropped. *)
Definition emit (d : decoder) (cp : N) : decoder * jstring :=
  let d1 := Decoder (code_point d) (bytes_seen d) (bytes_needed d)
                    (lower_boundary d) (upper_boundary d) true in
  if negb (bom_seen d) && (cp =? 0xFEFF)%N then (d1, [])
  else (d1, utf16 cp).

Definition within (lo x hi : N) : bool := (lo <=? x)%N && (x <=? hi)%N.

(** A byte arriving when no sequence is open. *)
Definition lead (d : decoder) (b : N) : decoder * jstring :=
  if (b <=? 0x7F)%N then emit d b
  else if within 0xC2 b 0xDF then
    (Decoder (N.land b 0x1F) 0 1 0x80 0xBF (bom_seen d), [])
  else if within 0xE0 b 0xEF then
    (Decoder (N.land b 0xF) 0 2
             (if (b =? 0xE0)%N then 0xA0 else 0x80)
             (if (b =? 0xED)%N then 0x9F else 0xBF) (bom_seen d), [])
  else if within 0xF0 b 0xF4 then
    (Decoder (N.land b 0x7) 0 3
             (if (b =? 0xF0)%N then 0x90 else 0x80)
             (if (b =? 0xF4)%N then 0x8F else 0xBF) (bom_seen d), [])
  else emit d 0xFFFD.

Definition step (d : decoder) (byte : Byte.byte) : decoder * jstring :=
  let b := Byte.to_N byte in
  if (bytes_needed d =? 0)%N then lead d b
  else if negb (within (lower_boundary d) b (upper_boundary d)) then
    (* the open sequence is broken: U+FFFD, and the byte is read again *)
    let (d1, out1) := emit (reset d) 0xFFFD in
    let (d2, out2) := lead d1 b in
    (d2, out1 ++ out2)
  else
    let cp := N.lor (N.shiftl (code_point d) 6) (N.land b 0x3F) in
    let seen := (bytes_seen d + 1)%N in
    if (seen =? bytes_needed d)%N then emit (reset d) cp
    else (Decoder cp seen (bytes_needed d) 0x80 0xBF (bom_seen d), []).

End UTF8.

Module Example.

Definition quote : codeunit := 34%N.

Definition quoted (s : string) : jstring := quote :: js s ++ [quote].

(** The text of an envelope whose type and content are strings. *)
Definition envelope_text (type content : string) : jstring :=
  js "{" ++ quoted "type" ++ js ":" ++ quoted type ++ js ","
     ++ quoted "content" ++ js ":" ++ quoted content ++ js "}".

Definition envelope (type content : string) : value Z :=
  VObject [(js "type", VString (js type)); (js "content", VString (js content))].

(** A log envelope whose content is the euro sign, U+20AC. *)
Definition euro_text : jstring :=
  js "{" ++ quoted "type" ++ js ":" ++ quoted "log" ++ js ","
     ++ quoted "content" ++ js ":" ++ [quote; 0x20AC%N; quote] ++ js "}".

Definition euro : value Z :=
  VObject [(js "type", VString (js "log")); (js "content", VString [0x20AC%N])].

(** The bytes of an ASCII text. *)
Definition bytes (text : jstring) : list byte :=
  map (fun c => match Byte.of_N c with Some b => b | None => x00 end) text.

Definition Z_ToString (z : Z) : jstring :=
  js (NilZero.string_of_int (Z.to_int z)).

Fixpoint table_parse (table : list (jstring * value Z)) (text : jstring)
    : option (value Z) :=
  match table with
  | [] => None
  | (t, v) :: rest => if jstring_eqb t text then Some v else table_parse rest text
  end.

Definition texts : list (jstring * value Z) :=
  [ (envelope_text "log" "parsing", envelope "log" "parsing");
    (envelope_text "blueprint" "0eNG...", envelope "blueprint" "0eNG...");
    (envelope_text "json" "{}", envelope "json" "{}");
    (envelope_text "error" "boom", envelope "error" "boom");
    (envelope_text "status" "compiling", envelope "status" "compiling");
    (envelope_text "queue" "2", envelope "queue" "2");
    (envelope_text "end" "", envelope "end" "");
    (envelope_text "progress" "50%", envelope "progress" "50%");
    (euro_text, euro);
    (js "null", VNull) ].

Definition runtime (net : request Z -> fetched Z) : Runtime := {|
  number := Z;
  number_ToBoolean := fun z => negb (Z.eqb z 0);
  number_ToString := Z_ToString;
  JSON_parse := table_parse texts;
  SyntaxError_message := fun _ => js "Unexpected token";
  TypeError_message := fun p =>
    js "Cannot read properties of null (reading '" ++ p ++ js "')";
  ToPrimitive_message := js "Cannot convert object to primitive value";
  decoder := UTF8.decoder;
  TextDecoder := UTF8.fresh;
  decode_byte := UTF8.step;
  backendUrl := js "http://localhost:8000";
  fetch := net
|}.

Definition no_options : options Z :=
  Options VUndefined VUndefined VUndefined VUndefined VUndefined.

End Example.

(** * Vocabulary of the properties *)

Unset Implicit Arguments.

(** ** Lines and frames *)

(** The text of some lines, each ended by a line feed. *)
Definition lines_text (lines : list jstring) : jstring :=
  List.concat (map (fun line => line ++ [LF]) lines).

Definition no_LF (s : jstring) : Prop := ~ In LF s.

(** The complete lines of a text. *)
Definition complete_lines (text : jstring) : list jstring :=
  fst (pop (split LF text)).

(** A frame of the event stream: [data: <payload>] and an empty line. *)
Definition frame (payload : jstring) : jstring :=
  js "data: " ++ payload ++ [LF; LF].

Definition frames (payloads : list jstring) : jstring :=
  List.concat (map frame payloads).

(** The lines of a sequence of frames. *)
Definition frame_lines (payloads : list jstring) : list jstring :=
  flat_map (fun payload => [js "data: " ++ payload; []]) payloads.

Section Judgements.

Variable number : Type.

Local Abbreviation M := (M number).
Local Abbreviation state := (state number).
Local Abbreviation outcome := (outcome number).

(** From a state satisfying [P], [m] ends, returning or throwing, in a state
    satisfying [Q]. *)
Definition hoare {A} (P : state -> Prop) (m : M A)
    (Q : outcome A -> state -> Prop) : Prop :=
  forall s, P s -> Q (fst (m s)) (snd (m s)).

Definition is_completion (c : call number) : bool :=
  match c with
  | OnComplete => true
  | _ => false
  end.

(** How many times [onComplete] was invoked. *)
Definition completions (tr : list (call number)) : nat :=
  List.length (filter is_completion tr).

End Judgements.

Arguments hoare {number A} P m Q.
Arguments is_completion {number} c.
Arguments completions {number} tr.

Section Vocabulary.

Context (R : Runtime).
Variable source : jstring.
Variable opts : options (number R).
Variable cbs : callbacks (number R).

Local Abbreviation M := (M (number R)).
Local Abbreviation state := (state (number R)).
Local Abbreviation value := (value (number R)).

(** The state after the lines have gone through the loop body. *)
Definition deliver (lines : list jstring) (s : state) : state :=
  snd (for_of R cbs lines s).

(** How a stream that ends after all its reads leaves the loop. *)
Definition leave (last_read : closing) : outcome (number R) unit :=
  match last_read with
  | Closed => Ret tt
  | Errored message => Throw (JsError message)
  end.

(** 1 when [onComplete] is supplied, 0 when it is absent. *)
Definition supplied : nat :=
  match onComplete cbs with
  | Some _ => 1
  | None => 0
  end.

(** [onComplete] has been invoked once if the latch is set and the callback
    supplied, and not at all otherwise; and a latch that was set stays set. *)
Definition latch_inv (was_set : bool) (s : state) : Prop :=
  completions (trace s) = (if completeCalled s then supplied else 0) /\
  (was_set = true -> completeCalled s = true).

(** A callback that, if supplied, returns normally whenever it is invoked. *)
Definition never_throws (callback : option (handler (number R))) : Prop :=
  forall h, callback = Some h -> forall tr v, h tr v = None.

(** Where the invocation ends when [onError] throws in the outer [catch]
    before anything has set the latch. *)
Definition stopped_by_onError
    (final : outcome (number R) unit * state) : Prop :=
  exists h tr message e,
    onError cbs = Some h /\ h tr message = Some e /\
    final = (Throw e, State (tr ++ [OnError message]) false).

(** What follows the loop when the stream has closed: [callComplete()],
    still inside the outer [try]. *)
Definition finish : M unit :=
  try_catch (callComplete R cbs) (on_failure R cbs).

(** What follows the loop: [finish] when the stream has closed, the outer
    [catch] when a read has failed. *)
Definition conclude (last_read : closing) : M unit :=
  match last_read with
  | Closed => finish
  | Errored message => on_failure R cbs (JsError message)
  end.

(** The text all the reads of a body decode to. *)
Definition decoded (body : stream) : jstring :=
  snd (decode R (TextDecoder R) (List.concat (chunks body))).

(** The compile request is answered with a success status and this body. *)
Definition streams (body : stream) : Prop :=
  exists r, fetch R (compile_request R source opts) = Resolved r /\
            ok r = true /\ reads r = Some body.

(** The payloads handled one by one, in order. *)
Fixpoint dispatch_all (payloads : list jstring) : M unit :=
  match payloads with
  | [] => ret tt
  | payload :: rest =>
      bind (process_data R cbs payload) (fun _ => dispatch_all rest)
  end.

(** The state with some more entries in its trace. *)
Definition record (s : state) (calls : list (call (number R))) : state :=
  State (trace s ++ calls) (completeCalled s).

(** The routing the specification gives: for each event type, the trace
    entry of the invocation and the callback of the caller. *)
Definition routes
    : list (jstring *
            ((value -> call (number R)) * option (handler (number R)))) :=
  [ (js "log", (OnLog, onLog cbs));
    (js "blueprint", (OnBlueprint, onBlueprint cbs));
    (js "json", (OnJson, onJson cbs));
    (js "error", (OnError, onError cbs));
    (js "status", (OnStatus, onStatus cbs));
    (js "queue", (OnQueue, onQueue cbs)) ].

Fixpoint assoc {A} (key : jstring) (table : list (jstring * A)) : option A :=
  match table with
  | [] => None
  | (k, a) :: rest => if jstring_eqb key k then Some a else assoc key rest
  end.

Definition route (type : jstring) := assoc type routes.

(** What the completion an end envelope asks for comes to.  With the latch
    set, nothing.  With the latch open, the latch is set and [onComplete],
    if supplied, is invoked; if it throws, the handler around the line logs
    the exception. *)
Definition completed (s : state) : state :=
  if completeCalled s then s
  else
    match onComplete cbs with
    | None => State (trace s) true
    | Some hc =>
        match hc (trace s) with
        | None => State (trace s ++ [OnComplete]) true
        | Some e => State (trace s ++ [OnComplete; ConsoleError e]) true
        end
    end.

(** What one payload that parses to [event] does, by the type of the event
    and the routing table. *)
Definition routed (type content : value) (s : state)
    : outcome (number R) unit * state :=
  match type with
  | VString t =>
      match route t with
      | Some (mk, Some h) =>
          (Ret tt,
           match h (trace s) content with
           | None => record s [mk content]
           | Some e => record s [mk content; ConsoleError e]
           end)
      | Some (_, None) => (Ret tt, s)
      | None =>
          if jstring_eqb t (js "end") then (Ret tt, completed s)
          else (Ret tt, s)
      end
  | _ => (Ret tt, s)
  end.

(** A payload that parses to an object whose [type] is ["end"]. *)
Definition is_end (payload : jstring) : bool :=
  match JSON_parse R payload with
  | Some (VObject props) =>
      match lookup (js "type") props with
      | Some (VString t) => jstring_eqb t (js "end")
      | _ => false
      end
  | _ => false
  end.

Definition is_diagnostic (c : call (number R)) : bool :=
  match c with
  | ConsoleError _ => true
  | _ => false
  end.






(** The statuses from 200 to 299. *)
Definition success_status (status : N) : bool :=
  (200 <=? status)%N && (status <=? 299)%N.

(** The property [key] of an object. *)
Definition field (key : string) (v : value) : option value :=
  match v with
  | VObject props => lookup (js key) props
  | _ => None
  end.

Definition keys (v : value) : list jstring :=
  match v with
  | VObject props => map fst props
  | _ => []
  end.

(** An option as it is sent: itself when truthy, else its default. *)
Definition defaulted (option default : value) : value :=
  if truthy R option then option else default.

End Vocabulary.

(** ** Inputs to run the client on *)

Module Inputs.
Import Example.

(** Callbacks that all return normally. *)
Definition quiet : callbacks Z :=
  Callbacks (Some (fun _ _ => None)) (Some (fun _ _ => None))
            (Some (fun _ _ => None)) (Some (fun _ _ => None))
            (Some (fun _ _ => None)) (Some (fun _ _ => None))
            (Some (fun _ => None)).

Definition boom : thrown Z := JsError (js "boom").

(** The same, except that [onError] throws. *)
Definition throwing_onError : callbacks Z :=
  Callbacks (Some (fun _ _ => None)) (Some (fun _ _ => None))
            (Some (fun _ _ => None)) (Some (fun _ _ => Some boom))
            (Some (fun _ _ => None)) (Some (fun _ _ => None))
            (Some (fun _ => None)).

(** The same as [quiet], except that [onLog] and [onComplete] throw. *)
Definition throwing_onLog : callbacks Z :=
  Callbacks (Some (fun _ _ => Some boom)) (Some (fun _ _ => None))
            (Some (fun _ _ => None)) (Some (fun _ _ => None))
            (Some (fun _ _ => None)) (Some (fun _ _ => None))
            (Some (fun _ => Some boom)).

Definition program : jstring := js "Signal a = 1;".

Definition ok_response (body : stream) : response Z :=
  Response 200 (Throw (JsError (js "body stream already read"))) (Some body).

(** The server answers 200 with the given body. *)
Definition streaming (body : stream) : request Z -> fetched Z :=
  fun _ => Resolved (ok_response body).

Definition failure (status : N) (json : value Z) : response Z :=
  Response status (Ret json) (Some (Stream [] Closed)).

(** The server answers with a failure status and a JSON body. *)
Definition failing (status : N) (json : value Z) : request Z -> fetched Z :=
  fun _ => Resolved (failure status json).

(** The network is down. *)
Definition unreachable : request Z -> fetched Z :=
  fun _ => Rejected (js "Failed to fetch").

(** The scenario of the specification, with the space after [data:] that
    the client requires. *)
Definition scenario : stream :=
  Stream [bytes (frame (envelope_text "log" "parsing")
                 ++ frame (envelope_text "blueprint" "0eNG...")
                 ++ frame (envelope_text "end" ""))] Closed.

Definition syntax_error : value Z :=
  VObject [(js "message", VString (js "syntax error line 3"))].

(** Two frames, the first with a euro sign (the bytes E2 82 AC), read in
    three chunks that cut the euro sign and the second [data: ] line. *)
Definition cut_stream : stream :=
  Stream
    [ bytes (js "data: " ++ js "{" ++ quoted "type" ++ js ":" ++ quoted "log"
               ++ js "," ++ quoted "content" ++ js ":" ++ [quote])
        ++ [xe2; x82];
      [xac] ++ bytes ([quote] ++ js "}" ++ [LF; LF] ++ js "dat");
      bytes (js "a: " ++ envelope_text "end" "" ++ [LF; LF]) ]
    Closed.

(** A stream whose second line is not JSON. *)
Definition garbled_stream : stream :=
  Stream [bytes (frame (envelope_text "log" "parsing")
                 ++ js "data: {oops" ++ [LF]
                 ++ frame (envelope_text "status" "compiling")
                 ++ frame (envelope_text "end" ""))] Closed.

(** The last line of the stream, a blueprint, is not ended by a line feed. *)
Definition unterminated_stream : stream :=
  Stream [bytes (frame (envelope_text "log" "parsing"));
          bytes (js "data: " ++ envelope_text "blueprint" "0eNG...")] Closed.

(** Two end envelopes, then a read that fails. *)
Definition twice_ended : stream :=
  Stream [bytes (frame (envelope_text "end" ""));
          bytes (frame (envelope_text "end" ""))]
         (Errored (js "network error")).

Definition three_frames : stream :=
  Stream [bytes (frame (envelope_text "log" "parsing")
                 ++ frame (envelope_text "status" "compiling")
                 ++ frame (envelope_text "end" ""))] Closed.

End Inputs.

(** ** What the callbacks of a caller may do *)

Section Callers.

Context (R : Runtime).
Variable cbs : callbacks (number R).

(** A callback that, if supplied, returns normally whenever its argument
    is a string. *)
Definition takes_strings (callback : option (handler (number R))) : Prop :=
  forall h, callback = Some h ->
  forall tr message, h tr (VString message) = None.

(** [onComplete], if supplied, returns normally whenever it is invoked. *)
Definition onComplete_returns : Prop :=
  forall hc, onComplete cbs = Some hc -> forall tr, hc tr = None.


End Callers.

(** ** How a request fails in transport *)

Section Transport.

Context (R : Runtime).
Variable source : jstring.
Variable opts : options (number R).

(** The request fails with [message] after the complete lines [delivered]
    have been read: [fetch] rejects, the response has no body to read, or a
    read fails. *)
Inductive transport_failure : jstring -> list jstring -> Prop :=
| fetch_rejected (message : jstring) :
    fetch R (compile_request R source opts) = Rejected message ->
    transport_failure message []
| body_missing (r : response (number R)) :
    fetch R (compile_request R source opts) = Resolved r ->
    ok r = true -> reads r = None ->
    transport_failure (TypeError_message R (js "getReader")) []
| read_failed (body : stream) (message : jstring) (lines : list jstring)
    (fragment : jstring) :
    streams R source opts body ->
    ending body = Errored message ->
    decoded R body = lines_text lines ++ fragment ->
    Forall no_LF lines -> no_LF fragment ->
    transport_failure message lines.

End Transport.

(** ** More inputs *)

Module Cases.
Import Example Inputs.

(** [onError] throws unless it is handed a string. *)
Definition strict_onError : callbacks Z :=
  Callbacks (Some (fun _ _ => None)) (Some (fun _ _ => None))
            (Some (fun _ _ => None))
            (Some (fun _ message =>
                     match message with
                     | VString _ => None
                     | _ => Some boom
                     end))
            (Some (fun _ _ => None)) (Some (fun _ _ => None))
            (Some (fun _ => None)).

(** A log frame and half a line, then the connection breaks. *)
Definition broken_stream : stream :=
  Stream [bytes (frame (envelope_text "log" "parsing") ++ js "data: {")]
         (Errored (js "network error")).

(** A stream that closes without an end envelope. *)
Definition endless_stream : stream :=
  Stream [bytes (frame (envelope_text "log" "parsing"));
          bytes (frame (envelope_text "blueprint" "0eNG..."))] Closed.

(** An end envelope in the middle of a stream, and another one after it. *)
Definition early_end : stream :=
  Stream [bytes (frame (envelope_text "log" "parsing")
                 ++ frame (envelope_text "end" "")
                 ++ frame (envelope_text "status" "compiling")
                 ++ frame (envelope_text "end" ""))] Closed.

(** The callbacks of [quiet] without [onLog]. *)
Definition without_onLog : callbacks Z :=
  Callbacks None (Some (fun _ _ => None)) (Some (fun _ _ => None))
            (Some (fun _ _ => None)) (Some (fun _ _ => None))
            (Some (fun _ _ => None)) (Some (fun _ => None)).

Definition empty_stream : stream := Stream [[]; []] Closed.

(** A comment, an event field and a [data:] line without the space around
    a log frame. *)
Definition commented_stream : stream :=
  Stream [bytes (js ": ping" ++ [LF] ++ js "event: message" ++ [LF]
                 ++ frame (envelope_text "log" "parsing")
                 ++ js "data:" ++ envelope_text "end" "" ++ [LF])] Closed.

End Cases.

(** * The application around the client *)

(** ** Strings *)

(** The white space and the line terminators of ECMAScript, which
    [String.prototype.trim] strips; all are single code units. *)
Definition is_white_space (c : codeunit) : bool :=
  existsb (N.eqb c)
    [0x9; 0xA; 0xB; 0xC; 0xD; 0x20; 0xA0; 0x1680; 0x2028; 0x2029; 0x202F;
     0x205F; 0x3000; 0xFEFF]%N
  || (0x2000 <=? c)%N && (c <=? 0x200A)%N.

Fixpoint trimStart (s : jstring) : jstring :=
  match s with
  | [] => []
  | c :: rest => if is_white_space c then trimStart rest else s
  end.

Definition trimEnd (s : jstring) : jstring := rev (trimStart (rev s)).

(** [s.trim()]. *)
Definition trim (s : jstring) : jstring := trimEnd (trimStart s).

(** What [/[a-z0-9]/i] matches: without the [u] flag a code unit matches
    case-insensitively only if its upper case is an ASCII letter and it is
    ASCII itself. *)
Definition is_alphanumeric (c : codeunit) : bool :=
  ((48 <=? c) && (c <=? 57) || (65 <=? c) && (c <=? 90)
   || (97 <=? c) && (c <=? 122))%N.

Definition underscore : codeunit := 95%N.

(** [s.replace(/[^a-z0-9]/gi, '_')]. *)
Definition replace_others (s : jstring) : jstring :=
  map (fun c => if is_alphanumeric c then c else underscore) s.

(** The code units that [replace_others] leaves in a string. *)
Definition is_safe (c : codeunit) : bool :=
  is_alphanumeric c || N.eqb c underscore.

(** [s || fallback] on strings. *)
Definition or_string (s fallback : jstring) : jstring :=
  match s with
  | [] => fallback
  | _ => s
  end.

(** ** What the page shows and hands out *)

(** [showToast(message, type)], and a file offered for download through a
    blob URL and a click on a temporary link (lines 758-767, 823-832). *)
Inductive page_event : Type :=
| Toast (message kind : jstring)
| Download (filename type content : jstring).

(** [downloadBlueprint()] (lines 812-835), given the values of the
    blueprint text area and of the blueprint name input. *)
Definition downloadBlueprint (blueprintText blueprintName : jstring)
    : list page_event :=
  match blueprintText with
  | [] => [Toast (js "No blueprint to download") (js "error")]
  | _ =>
      let filename :=
        replace_others (or_string (trim blueprintName) (js "facto-blueprint"))
          ++ js ".txt" in
      [Download filename (js "text/plain") blueprintText;
       Toast (js "Blueprint saved as " ++ filename) (js "success")]
  end.

(** [downloadJson()] (lines 747-770); [jsonText] is [None] when the page
    has no JSON text area. *)
Definition downloadJson (jsonText : option jstring) (blueprintName : jstring)
    : list page_event :=
  match jsonText with
  | None | Some [] => [Toast (js "No JSON to download") (js "error")]
  | Some json =>
      let filename :=
        replace_others (or_string (trim blueprintName) (js "facto-output"))
          ++ js ".json" in
      [Download filename (js "application/json") json;
       Toast (js "JSON saved as " ++ filename) (js "success")]
  end.

(** ** [localStorage] *)

(** The items of the storage, one for each key. *)
Definition Storage : Type := list (jstring * jstring).

Fixpoint getItem (key : jstring) (items : Storage) : option jstring :=
  match items with
  | [] => None
  | (k, v) :: rest => if jstring_eqb k key then Some v else getItem key rest
  end.

Fixpoint setItem (key text : jstring) (items : Storage) : Storage :=
  match items with
  | [] => [(key, text)]
  | (k, v) :: rest =>
      if jstring_eqb k key then (k, text) :: rest
      else (k, v) :: setItem key text rest
  end.

Fixpoint removeItem (key : jstring) (items : Storage) : Storage :=
  match items with
  | [] => []
  | (k, v) :: rest =>
      if jstring_eqb k key then removeItem key rest
      else (k, v) :: removeItem key rest
  end.

(** ** The content of the editor *)

Module STORAGE_KEYS.
Definition editorContent : jstring := js "facto-editor-content".
End STORAGE_KEYS.

(** [saveEditorContent()] (lines 266-273), given [editor.getValue()]. *)
Definition saveEditorContent (content : jstring) (items : Storage) : Storage :=
  match trim content with
  | [] => removeItem STORAGE_KEYS.editorContent items
  | _ => setItem STORAGE_KEYS.editorContent content items
  end.

(** [loadEditorContent()] (lines 278-280). *)
Definition loadEditorContent (items : Storage) : option jstring :=
  getItem STORAGE_KEYS.editorContent items.

(** The first key whose example is the saved content (lines 308-313). *)
Fixpoint matching_example (examples : list (jstring * jstring))
    (savedContent : jstring) : option jstring :=
  match examples with
  | [] => None
  | (key, code) :: rest =>
      if jstring_eqb code savedContent then Some key
      else matching_example rest savedContent
  end.

(** The part of [init] that fills the editor (lines 297-317): what
    [editor.setValue] is given, [None] for [undefined], and
    [loadedExampleKey].  The examples are the properties of
    [FactoEditor.examples] in the order of [Object.keys]. *)
Definition initial_content (examples : list (jstring * jstring))
    (items : Storage) : option jstring * option jstring :=
  let defaultExampleKey :=
    match examples with
    | (c :: key, _) :: _ => c :: key
    | _ => js "blinker"
    end in
  match loadEditorContent items with
  | Some (c :: savedContent) =>
      (Some (c :: savedContent), matching_example examples (c :: savedContent))
  | _ => (assoc defaultExampleKey examples, Some defaultExampleKey)
  end.

(** ** Class lists *)

Module DOMTokenList.

Definition t : Type := list jstring.

Definition contains (token : jstring) (classes : t) : bool :=
  existsb (jstring_eqb token) classes.

Definition add (token : jstring) (classes : t) : t :=
  if contains token classes then classes else classes ++ [token].

Definition remove (token : jstring) (classes : t) : t :=
  filter (fun c => negb (jstring_eqb token c)) classes.

(** [classList.toggle(token, force)]. *)
Definition toggle (token : jstring) (force : bool) (classes : t) : t :=
  if force then add token classes else remove token classes.

End DOMTokenList.

(** ** The theme *)

Module ThemeManager.

Definition STORAGE_KEY : jstring := js "facto-theme".

(** What the theme manager reads and writes: the [data-theme] attribute of
    the root element, the storage, and the classes of the elements that
    [.theme-icon-dark], [.theme-icon-light] and [.CodeMirror] select, three
    different elements, each [None] when the page has no such element. *)
Record page : Type := Page {
  data_theme : option jstring;
  localStorage : Storage;
  theme_icon_dark : option DOMTokenList.t;
  theme_icon_light : option DOMTokenList.t;
  CodeMirror : option DOMTokenList.t
}.

(** [updateToggleIcon(theme)] (lines 1215-1225). *)
Definition updateToggleIcon (theme : jstring) (p : page) : page :=
  Page (data_theme p) (localStorage p)
       (option_map
          (DOMTokenList.toggle (js "hidden") (jstring_eqb theme (js "light")))
          (theme_icon_dark p))
       (option_map
          (DOMTokenList.toggle (js "hidden") (jstring_eqb theme (js "dark")))
          (theme_icon_light p))
       (CodeMirror p).

(** [updateCodeMirrorTheme(theme)] (lines 1231-1237). *)
Definition updateCodeMirrorTheme (theme : jstring) (p : page) : page :=
  Page (data_theme p) (localStorage p) (theme_icon_dark p) (theme_icon_light p)
       (option_map
          (fun wrapper =>
             DOMTokenList.toggle (js "cm-s-facto")
               (jstring_eqb theme (js "dark"))
               (DOMTokenList.toggle (js "cm-s-facto-light")
                  (jstring_eqb theme (js "light")) wrapper))
          (CodeMirror p)).

(** [setTheme(theme, save)] (lines 1184-1192). *)
Definition setTheme (theme : jstring) (save : bool) (p : page) : page :=
  let p1 := Page (Some theme) (localStorage p) (theme_icon_dark p)
                 (theme_icon_light p) (CodeMirror p) in
  let p2 := updateCodeMirrorTheme theme (updateToggleIcon theme p1) in
  if save then
    Page (data_theme p2) (setItem STORAGE_KEY theme (localStorage p2))
         (theme_icon_dark p2) (theme_icon_light p2) (CodeMirror p2)
  else p2.

(** [getTheme()] (lines 1207-1209): an attribute that is absent or empty
    counts as dark. *)
Definition getTheme (p : page) : jstring :=
  match data_theme p with
  | Some (c :: theme) => c :: theme
  | _ => js "dark"
  end.

(** [toggle()] (lines 1197-1201). *)
Definition toggle (p : page) : page :=
  let current := getTheme p in
  let next := if jstring_eqb current (js "dark") then js "light"
              else js "dark" in
  setTheme next true p.

(** The theme of the system preference. *)
Definition preferred (prefersDark : bool) : jstring :=
  if prefersDark then js "dark" else js "light".

(** [init()] up to the listener (lines 1165-1169), given what
    [matchMedia('(prefers-color-scheme: dark)').matches] is. *)
Definition init (systemPrefersDark : bool) (p : page) : page :=
  let theme :=
    match getItem STORAGE_KEY (localStorage p) with
    | Some (c :: saved) => c :: saved
    | _ => preferred systemPrefersDark
    end in
  setTheme theme false p.

(** The listener [init] registers for changes of the system preference
    (lines 1172-1176). *)
Definition preference_changed (matches : bool) (p : page) : page :=
  match getItem STORAGE_KEY (localStorage p) with
  | Some (_ :: _) => p
  | _ => setTheme (preferred matches) false p
  end.

End ThemeManager.

(** The part of [init] that sets the theme up (lines 289-294 and 324-327)
    on a page whose editor is yet to be made: the theme manager starts;
    [FactoEditor.init] makes the editor, whose wrapper has the classes
    CodeMirror gives it and [cm-s-facto] (line 1030); the wrapper is then
    given the class of the theme. *)
Definition init_theme (systemPrefersDark : bool) (wrapper : DOMTokenList.t)
    (p : ThemeManager.page) : ThemeManager.page :=
  let p1 :=
    ThemeManager.init systemPrefersDark
      (ThemeManager.Page (ThemeManager.data_theme p)
         (ThemeManager.localStorage p) (ThemeManager.theme_icon_dark p)
         (ThemeManager.theme_icon_light p) None) in
  let p2 :=
    ThemeManager.Page (ThemeManager.data_theme p1)
      (ThemeManager.localStorage p1) (ThemeManager.theme_icon_dark p1)
      (ThemeManager.theme_icon_light p1)
      (Some (DOMTokenList.add (js "cm-s-facto") wrapper)) in
  ThemeManager.updateCodeMirrorTheme (ThemeManager.getTheme p2) p2.

(** ** The connection indicator *)

Section Connection.

Context (R : Runtime).

(** The status dot with its classes and the indicator with its title, each
    [None] when the page has no such element; the variable
    [serverConnected]; the toasts shown; the functions of [FactoCompiler]
    that have been called. *)
Record connection : Type := Connection {
  statusDot : option DOMTokenList.t;
  statusIndicator : option jstring;
  serverConnected : bool;
  toasts : list page_event;
  called : list jstring
}.

(** [updateConnectionStatus(status)] (lines 440-461). *)
Definition updateConnectionStatus (status : jstring) (c : connection)
    : connection :=
  match statusDot c, statusIndicator c with
  | Some _, Some _ =>
      let dot := [js "status-dot"] in
      if jstring_eqb status (js "connected") then
        Connection (Some (DOMTokenList.add (js "connected") dot))
                   (Some (js "Backend connected")) true (toasts c) (called c)
      else if jstring_eqb status (js "connecting") then
        Connection (Some (DOMTokenList.add (js "connecting") dot))
                   (Some (js "Connecting to backend...")) false (toasts c)
                   (called c)
      else
        Connection (Some (DOMTokenList.add (js "disconnected") dot))
                   (Some (js "Backend disconnected")) false (toasts c)
                   (called c)
  | _, _ => c
  end.

Definition showToast (message kind : jstring) (c : connection) : connection :=
  Connection (statusDot c) (statusIndicator c) (serverConnected c)
             (toasts c ++ [Toast message kind]) (called c).

(** A function of [window.FactoCompiler] is called. *)
Definition calling (name : jstring) (c : connection) : connection :=
  Connection (statusDot c) (statusIndicator c) (serverConnected c) (toasts c)
             (called c ++ [name]).

(** [checkBackendHealth(showNotification, recordSession)] (lines 466-488),
    run without anything else in between. *)
Definition checkBackendHealth (showNotification recordSession : bool)
    (c : connection) : outcome (number R) bool * connection :=
  let c1 := calling (js "checkHealth")
              (updateConnectionStatus (js "connecting") c) in
  match checkHealth R with
  | Throw e => (Throw e, c1)
  | Ret isHealthy =>
      if isHealthy then
        let c2 := updateConnectionStatus (js "connected") c1 in
        let c3 := if recordSession then calling (js "connect") c2 else c2 in
        match (if recordSession then connect R else Ret false) with
        | Throw e => (Throw e, c3)
        | Ret _ =>
            (Ret isHealthy,
             if showNotification
             then showToast (js "Connected to server") (js "success") c3
             else c3)
        end
      else
        let c2 := updateConnectionStatus (js "disconnected") c1 in
        (Ret isHealthy,
         if showNotification
         then showToast
                (js "Backend server is not responding. Check if server is running.")
                (js "error") c2
         else c2)
  end.

End Connection.

(** The health request is answered with a success status. *)
Definition healthy (R : Runtime) : bool :=
  match fetch R (health_request R) with
  | Resolved r => ok r
  | Rejected _ => false
  end.

(** The health checks of a page: the one [startHealthChecks] begins with
    (line 495), which records the session, and the checks that follow it,
    none of which does: those of the interval (line 499), the one in
    [handleCompile] (line 535) and the one in its [onError] (line 584).
    Each check meets the backend as it is then, a runtime of its own, and
    has finished before the next begins; a later check comes with its
    [showNotification]. *)
Definition health_checks (first : Runtime) (later : list (Runtime * bool))
    (c : connection) : connection :=
  fold_left
    (fun c check => snd (checkBackendHealth (fst check) (snd check) false c))
    later
    (snd (checkBackendHealth first false true c)).

(** ** Timers and [debounce] *)

Module Timers.

Local Set Implicit Arguments.

Section Debounce.

(** The arguments of a call, and the delay, a whole number of
    milliseconds. *)
Variable A : Type.
Variable delay : N.

(** A timer set by [setTimeout]: its id, when it is due, and the arguments
    its callback hands to [fn]. *)
Record timer : Type := Timer {
  id : N;
  due : N;
  arguments : A
}.

(** The clock, the id the next timer gets, the timers that are set, the
    variable [timeoutId] of the closure ([None] for [undefined]), and the
    runs of [fn]: when, and with what. *)
Record debounced : Type := Debounced {
  now : N;
  next : N;
  timers : list timer;
  timeoutId : option N;
  ran : list (N * A)
}.

Definition idle : debounced := Debounced 0 1 [] None [].

(** The delay [setTimeout] works with: its argument converted to a 32-bit
    signed integer, and zero when that is negative. *)
Definition timeout : N :=
  let wrapped := (delay mod 2 ^ 32)%N in
  if (wrapped <? 2 ^ 31)%N then wrapped else 0%N.

(** [clearTimeout(handle)]: nothing happens unless a timer with that id is
    set. *)
Definition clearTimeout (handle : option N) (set : list timer) : list timer :=
  match handle with
  | None => set
  | Some i => filter (fun t => negb (N.eqb (id t) i)) set
  end.

(** A call of the function that [debounce(fn, delay)] returns
    (lines 257-260). *)
Definition debounce (args : A) (w : debounced) : debounced :=
  Debounced (now w) (next w + 1)
            (clearTimeout (timeoutId w) (timers w)
               ++ [Timer (next w) (now w + timeout) args])
            (Some (next w)) (ran w).

(** What happens to the closure: it is called, time passes, or the event
    loop runs the callback of timer [i], which it does only if that timer is
    set and due. *)
Inductive happening : Type :=
| Call (args : A)
| Elapse (ms : N)
| Fire (i : N).

Definition fire (i : N) (w : debounced) : debounced :=
  match find (fun t => N.eqb (id t) i) (timers w) with
  | Some t =>
      if (due t <=? now w)%N then
        Debounced (now w) (next w)
                  (filter (fun t => negb (N.eqb (id t) i)) (timers w))
                  (timeoutId w) (ran w ++ [(now w, arguments t)])
      else w
  | None => w
  end.

Definition step (w : debounced) (h : happening) : debounced :=
  match h with
  | Call args => debounce args w
  | Elapse ms =>
      Debounced (now w + ms) (next w) (timers w) (timeoutId w) (ran w)
  | Fire i => fire i w
  end.

Definition after (history : list happening) : debounced :=
  fold_left step history idle.

(** The time a history takes, and its most recent call: when, and with
    what. *)
Definition duration (history : list happening) : N :=
  fold_left (fun t h => match h with Elapse ms => (t + ms)%N | _ => t end)
            history 0%N.

Definition scan (history : list happening) (start : N * option (N * A))
    : N * option (N * A) :=
  fold_left
    (fun acc h =>
       match h with
       | Call args => (fst acc, Some (fst acc, args))
       | Elapse ms => ((fst acc + ms)%N, snd acc)
       | Fire _ => acc
       end)
    history start.

Definition last_call (history : list happening) : option (N * A) :=
  snd (scan history (0%N, None)).

(** What holds after every history: the clock is the time passed; at most
    one timer is set, the one [timeoutId] names, which carries the arguments
    of the most recent call and is due [timeout] after it. *)
Definition settled (history : list happening) (w : debounced) : Prop :=
  now w = duration history /\
  (timers w = [] \/
   exists t called,
     timers w = [t] /\ timeoutId w = Some (id t) /\
     last_call history = Some (called, arguments t) /\
     due t = (called + timeout)%N).

(** How many calls a history has. *)
Definition calls (history : list happening) : nat :=
  List.length (filter (fun h => match h with Call _ => true | _ => false end)
                 history).

End Debounce.

Arguments Call {A} args.
Arguments Elapse {A} ms.
Arguments Fire {A} i.
Arguments idle {A}.

End Timers.

(** ** What [handleCompile] compiles *)

(** What [handleCompile] reads off the page: [editor.getValue()], the values
    of the blueprint name, power pole and log level controls, and whether
    the box against optimizing is checked. *)
Record controls : Type := Controls {
  editor_value : jstring;
  blueprintName_value : jstring;
  powerPoles_value : jstring;
  logLevel_value : jstring;
  noOptimize_checked : bool
}.

(** The [options] object of [handleCompile] (lines 549-554): two properties
    that are a string or [null], a string and a boolean. *)
Module Chosen.

Record t : Type := Make {
  blueprintName : option jstring;
  powerPoles : option jstring;
  logLevel : jstring;
  noOptimize : bool
}.

End Chosen.

(** [s || null]. *)
Definition or_null (s : jstring) : option jstring :=
  match s with
  | [] => None
  | _ => Some s
  end.

(** What [handleCompile] hands to [compileWithStreaming] when it gets to
    call it (line 574): the source and the options of lines 541-554.
    [None] when it returns for want of a source (lines 543-546). *)
Definition compile_arguments (page : controls) : option (jstring * Chosen.t) :=
  match trim (editor_value page) with
  | [] => None
  | source =>
      Some (source,
            Chosen.Make (or_null (trim (blueprintName_value page)))
                        (or_null (powerPoles_value page))
                        (logLevel_value page)
                        (noOptimize_checked page))
  end.

Section Gathering.

Variable number : Type.

(** A string or [null] as a value. *)
Definition nullable (s : option jstring) : value number :=
  match s with
  | Some s => VString s
  | None => VNull
  end.

(** The options of [handleCompile] as [compileWithStreaming] reads them;
    they have no [jsonOutput]. *)
Definition as_options (o : Chosen.t) : options number :=
  Options (nullable (Chosen.powerPoles o)) (nullable (Chosen.blueprintName o))
          (VBool (Chosen.noOptimize o)) VUndefined
          (VString (Chosen.logLevel o)).

End Gathering.

(** ** The key of a compilation *)

(** A hexadecimal digit, in lower case. *)
Definition hex (n : N) : codeunit :=
  if (n <? 10)%N then (48 + n)%N else (87 + n)%N.

(** [\uXXXX]. *)
Definition unicode_escape (c : codeunit) : jstring :=
  [92; 117; hex (c / 4096); hex ((c / 256) mod 16); hex ((c / 16) mod 16);
   hex (c mod 16)]%N.

Definition is_leading_surrogate (c : codeunit) : bool :=
  (0xD800 <=? c)%N && (c <=? 0xDBFF)%N.

Definition is_trailing_surrogate (c : codeunit) : bool :=
  (0xDC00 <=? c)%N && (c <=? 0xDFFF)%N.

(** How [QuoteJSONString] writes a code unit that is not part of a surrogate
    pair: the short escapes, [\uXXXX] for the other control characters and
    for a lone surrogate, and the code unit itself otherwise. *)
Definition escape (c : codeunit) : jstring :=
  if (c =? 8)%N then js "\b"
  else if (c =? 9)%N then js "\t"
  else if (c =? 10)%N then js "\n"
  else if (c =? 12)%N then js "\f"
  else if (c =? 13)%N then js "\r"
  else if (c =? 34)%N then [92; 34]%N
  else if (c =? 92)%N then [92; 92]%N
  else if (c <? 32)%N || is_leading_surrogate c || is_trailing_surrogate c
  then unicode_escape c
  else [c].

(** The text of a string between the quotes: surrogate pairs as they are,
    every other code unit escaped as needed. *)
Fixpoint quote_body (s : jstring) : jstring :=
  match s with
  | [] => []
  | c :: rest =>
      match rest with
      | d :: rest' =>
          if is_leading_surrogate c && is_trailing_surrogate d
          then c :: d :: quote_body rest'
          else escape c ++ quote_body rest
      | [] => escape c
      end
  end.

(** [QuoteJSONString]: [JSON.stringify] of a string. *)
Definition QuoteJSONString (s : jstring) : jstring :=
  34%N :: quote_body s ++ [34%N].

(** [JSON.stringify] of a string or [null], and of a boolean. *)
Definition stringify_nullable (s : option jstring) : jstring :=
  match s with
  | Some s => QuoteJSONString s
  | None => js "null"
  end.

Definition stringify_boolean (b : bool) : jstring :=
  if b then js "true" else js "false".

(** [getCompilationKey(source, options)] (lines 516-524): the properties in
    the order of the object literal, without white space. *)
Definition getCompilationKey (source : jstring) (options : Chosen.t) : jstring :=
  js "{" ++ QuoteJSONString (js "source") ++ js ":" ++ QuoteJSONString source
    ++ js "," ++ QuoteJSONString (js "powerPoles") ++ js ":"
    ++ stringify_nullable (Chosen.powerPoles options)
    ++ js "," ++ QuoteJSONString (js "blueprintName") ++ js ":"
    ++ stringify_nullable (Chosen.blueprintName options)
    ++ js "," ++ QuoteJSONString (js "noOptimize") ++ js ":"
    ++ stringify_boolean (Chosen.noOptimize options)
    ++ js "," ++ QuoteJSONString (js "logLevel") ++ js ":"
    ++ QuoteJSONString (Chosen.logLevel options)
    ++ js "}".

(** Reading a quoted string back, up to its closing quote: the string and
    what follows the quote. *)
Definition unhex (h : codeunit) : N :=
  if (h <? 58)%N then (h - 48)%N else (h - 87)%N.

Definition unescape (e : codeunit) : codeunit :=
  if (e =? 98)%N then 8%N
  else if (e =? 116)%N then 9%N
  else if (e =? 110)%N then 10%N
  else if (e =? 102)%N then 12%N
  else if (e =? 114)%N then 13%N
  else e.

Fixpoint unquote (text : jstring) : option (jstring * jstring) :=
  let more c rest :=
    match unquote rest with
    | Some (s, tail) => Some (c :: s, tail)
    | None => None
    end in
  match text with
  | [] => None
  | c :: t1 =>
      if (c =? 34)%N then Some ([], t1)
      else if (c =? 92)%N then
        match t1 with
        | [] => None
        | e :: t2 =>
            if (e =? 117)%N then
              match t2 with
              | h1 :: h2 :: h3 :: h4 :: t3 =>
                  more (((unhex h1 * 16 + unhex h2) * 16 + unhex h3) * 16
                        + unhex h4)%N t3
              | _ => None
              end
            else more (unescape e) t2
        end
      else more c t1
  end.

(** What [unquote] does with a code unit, then with the rest. *)
Definition read (c : codeunit) (rest : jstring) : option (jstring * jstring) :=
  match unquote rest with
  | Some (s, tail) => Some (c :: s, tail)
  | None => None
  end.

(** ** Pages to run the application on *)

Module Pages.

(** A page as it is loaded, in a browser that has stored nothing. *)
Definition loaded : ThemeManager.page :=
  ThemeManager.Page None []
    (Some [js "theme-icon"; js "theme-icon-dark"])
    (Some [js "theme-icon"; js "theme-icon-light"; js "hidden"])
    (Some [js "CodeMirror"; js "cm-s-facto"]).

(** The same page, loaded again with the storage a toggle has left. *)
Definition reloaded : ThemeManager.page :=
  ThemeManager.Page None
    (ThemeManager.localStorage (ThemeManager.toggle loaded))
    (Some [js "theme-icon"; js "theme-icon-dark"])
    (Some [js "theme-icon"; js "theme-icon-light"; js "hidden"])
    (Some [js "CodeMirror"; js "cm-s-facto"]).

Definition examples : list (jstring * jstring) :=
  [(js "blinker", js "Signal a = 1;"); (js "binaryClock", js "Signal b = 2;")].

(** Two changes of the editor 400 ms apart, saved with a delay of 1000 ms:
    the timer of the first change never fires, that of the second fires
    when it is due. *)
Definition typing : list (Timers.happening jstring) :=
  [Timers.Call (js "S"); Timers.Elapse 400; Timers.Call (js "Si");
   Timers.Elapse 600; Timers.Fire 1; Timers.Fire 2; Timers.Elapse 400;
   Timers.Fire 2].

(** A page with a program, a blueprint name and the log level chosen, and
    no power poles. *)
Definition filled : controls :=
  Controls (js "  Signal a = 1; ") (js " my lamp ") [] (js "debug") true.

End Pages.

(** * Properties *)

(** ** Lines and fragments *)

Lemma split_not_nil (sep : codeunit) (s : jstring) : split sep s <> [].
Proof.
  destruct s as [|c s]; simpl; [discriminate|].
  destruct (N.eqb c sep); [discriminate|].
  destruct (split sep s); discriminate.
Qed.

Lemma split_no_LF (s : jstring) : no_LF s -> split LF s = [s].
Proof.
  induction s as [|c s IH]; intros H; simpl; [reflexivity|].
  destruct (N.eqb_spec c LF) as [->|_].
  - exfalso. apply H. now left.
  - rewrite IH; [reflexivity|]. intros Hin. apply H. now right.
Qed.

Lemma split_line (line rest : jstring) :
  no_LF line -> split LF (line ++ LF :: rest) = line :: split LF rest.
Proof.
  induction line as [|c line IH]; intros H; simpl.
  - reflexivity.
  - destruct (N.eqb_spec c LF) as [->|_].
    + exfalso. apply H. now left.
    + rewrite IH; [reflexivity|]. intros Hin. apply H. now right.
Qed.

Lemma split_lines_text (lines : list jstring) (fragment : jstring) :
  Forall no_LF lines -> no_LF fragment ->
  split LF (lines_text lines ++ fragment) = lines ++ [fragment].
Proof.
  intros Hl Hf. induction Hl as [|line lines Hline _ IH]; simpl.
  - now apply split_no_LF.
  - unfold lines_text in *. simpl. rewrite <- !app_assoc. simpl.
    rewrite split_line by assumption. now rewrite IH.
Qed.

Lemma pop_snoc (lines : list jstring) (fragment : jstring) :
  pop (lines ++ [fragment]) = (lines, fragment).
Proof.
  unfold pop. now rewrite removelast_last, last_last.
Qed.

(** Every text is some complete lines followed by a fragment; [split] and
    [pop] recover them. *)
Lemma pop_split_spec (s : jstring) :
  let (lines, fragment) := pop (split LF s) in
  s = lines_text lines ++ fragment /\ Forall no_LF lines /\ no_LF fragment.
Proof.
  induction s as [|c s IH]; simpl.
  - unfold pop, lines_text; simpl. repeat split; [constructor | intros []].
  - unfold pop in *. destruct (N.eqb_spec c LF) as [->|Hc].
    + pose proof (split_not_nil LF s) as Hne.
      destruct (split LF s) as [|p ps] eqn:E; [congruence|].
      change (removelast ([] :: p :: ps)) with ([] :: removelast (p :: ps)).
      change (last ([] :: p :: ps) []) with (last (p :: ps) []).
      destruct IH as (IH1 & IH2 & IH3). repeat split; trivial.
      * unfold lines_text in *. simpl. now f_equal.
      * constructor; [intros []|assumption].
    + pose proof (split_not_nil LF s) as Hne.
      destruct (split LF s) as [|p ps] eqn:E; [congruence|].
      destruct ps as [|p' ps].
      * simpl in *. destruct IH as (IH1 & IH2 & IH3).
        unfold lines_text in *; simpl in *. subst s.
        repeat split; trivial. intros [Heq|Hin]; [now apply Hc|now apply IH3].
      * change (removelast ((c :: p) :: p' :: ps))
          with ((c :: p) :: removelast (p' :: ps)).
        change (last ((c :: p) :: p' :: ps) []) with (last (p' :: ps) []).
        change (removelast (p :: p' :: ps)) with (p :: removelast (p' :: ps)) in IH.
        change (last (p :: p' :: ps) []) with (last (p' :: ps) []) in IH.
        destruct IH as (IH1 & IH2 & IH3). repeat split; trivial.
        -- unfold lines_text in *. simpl in *. now f_equal.
        -- inversion IH2; subst. constructor; trivial.
           intros [Heq|Hin]; [now apply Hc|auto].
Qed.

Lemma lines_text_app (a b : list jstring) :
  lines_text (a ++ b) = lines_text a ++ lines_text b.
Proof. unfold lines_text. now rewrite map_app, concat_app. Qed.

(** Reading a text in two pieces: the lines of the first piece, then the
    lines of its fragment followed by the second piece. *)
Lemma pop_split_app (s t : jstring) :
  pop (split LF (s ++ t)) =
  (fst (pop (split LF s)) ++ fst (pop (split LF (snd (pop (split LF s)) ++ t))),
   snd (pop (split LF (snd (pop (split LF s)) ++ t)))).
Proof.
  pose proof (pop_split_spec s) as Hs.
  destruct (pop (split LF s)) as [ls frag]. cbn [fst snd].
  pose proof (pop_split_spec (frag ++ t)) as Ht.
  destruct (pop (split LF (frag ++ t))) as [ls' frag']. cbn [fst snd].
  destruct Hs as (Hs & Hls & Hfrag). destruct Ht as (Ht & Hls' & Hfrag').
  rewrite Hs, <- app_assoc, Ht, app_assoc, <- lines_text_app.
  rewrite split_lines_text; [apply pop_snoc| |assumption].
  apply Forall_app; now split.
Qed.

(** ** The read loop *)

Section Stream.

Context (R : Runtime).
Variable cbs : callbacks (number R).

Local Abbreviation M := (M (number R)).
Local Abbreviation state := (state (number R)).

Lemma decode_app (d : decoder R) (a b : list byte) :
  decode R d (a ++ b) =
  (fst (decode R (fst (decode R d a)) b),
   snd (decode R d a) ++ snd (decode R (fst (decode R d a)) b)).
Proof.
  revert d. induction a as [|x a IH]; intros d; simpl.
  - now destruct (decode R d b).
  - destruct (decode_byte R d x) as [d1 t1]. rewrite IH.
    destruct (decode R d1 a) as [d2 t2]; simpl.
    destruct (decode R d2 b) as [d3 t3]; simpl.
    now rewrite app_assoc.
Qed.

(** The per-payload handler swallows whatever is thrown. *)
Lemma process_data_returns (data : jstring) (s : state) :
  fst (process_data R cbs data s) = Ret tt.
Proof.
  unfold process_data, try_catch.
  destruct (bind _ _ s) as [[[]|e] s1]; reflexivity.
Qed.

Lemma process_line_returns (line : jstring) (s : state) :
  fst (process_line R cbs line s) = Ret tt.
Proof.
  unfold process_line. destruct (startsWith _ line).
  - apply process_data_returns.
  - reflexivity.
Qed.

Lemma for_of_returns (lines : list jstring) (s : state) :
  fst (for_of R cbs lines s) = Ret tt.
Proof.
  revert s. induction lines as [|line lines IH]; intros s; simpl.
  - reflexivity.
  - unfold bind. pose proof (process_line_returns line s) as H.
    destruct (process_line R cbs line s) as [o s1]. simpl in H. subst o.
    apply IH.
Qed.

Lemma for_of_deliver (lines : list jstring) (s : state) :
  for_of R cbs lines s = (Ret tt, deliver R cbs lines s).
Proof.
  unfold deliver. pose proof (for_of_returns lines s).
  destruct (for_of R cbs lines s); simpl in *. now subst.
Qed.

Lemma deliver_nil (s : state) : deliver R cbs [] s = s.
Proof. reflexivity. Qed.

Lemma deliver_cons (line : jstring) (lines : list jstring) (s : state) :
  deliver R cbs (line :: lines) s =
  deliver R cbs lines (snd (process_line R cbs line s)).
Proof.
  unfold deliver. simpl. unfold bind.
  pose proof (process_line_returns line s) as H.
  destruct (process_line R cbs line s) as [o s1]. simpl in *. now subst o.
Qed.

Lemma deliver_app (a b : list jstring) (s : state) :
  deliver R cbs (a ++ b) s = deliver R cbs b (deliver R cbs a s).
Proof.
  revert s. induction a as [|line a IH]; intros s.
  - reflexivity.
  - simpl. now rewrite !deliver_cons, IH.
Qed.

(** A buffer without a line feed holds no complete line. *)
Lemma complete_lines_fragment (buffer : jstring) :
  no_LF buffer -> complete_lines buffer = [].
Proof.
  intros H. unfold complete_lines. now rewrite split_no_LF.
Qed.

Lemma complete_lines_app (s t : jstring) :
  complete_lines (s ++ t) =
  complete_lines s ++ complete_lines (snd (pop (split LF s)) ++ t).
Proof.
  unfold complete_lines. now rewrite pop_split_app.
Qed.

(** The loop only sees the complete lines of what the reads decode to,
    whatever the reads are. *)
Lemma read_loop_spec (pending : list (list byte)) (last_read : closing)
    (d : decoder R) (buffer : jstring) (s : state) :
  no_LF buffer ->
  read_loop R cbs pending last_read d buffer s =
  (leave R last_read,
   deliver R cbs
     (complete_lines (buffer ++ snd (decode R d (List.concat pending)))) s).
Proof.
  revert d buffer s.
  induction pending as [|chunk pending IH]; intros d buffer s Hbuf.
  - simpl. rewrite app_nil_r, complete_lines_fragment by assumption.
    destruct last_read; reflexivity.
  - cbn [read_loop List.concat]. rewrite decode_app. cbn [snd].
    destruct (decode R d chunk) as [d1 text]. cbn [fst snd].
    rewrite app_assoc.
    rewrite (complete_lines_app (buffer ++ text)). unfold complete_lines at 1.
    pose proof (pop_split_spec (buffer ++ text)) as Hspec.
    destruct (pop (split LF (buffer ++ text))) as [lines buffer1].
    cbn [fst snd]. destruct Hspec as (_ & _ & Hfrag).
    unfold bind. rewrite for_of_deliver. rewrite IH by exact Hfrag.
    now rewrite deliver_app.
Qed.

End Stream.

(** ** Reasoning about effects *)

Section Hoare.

Variable number : Type.

Local Abbreviation M := (M number).
Local Abbreviation state := (state number).
Local Abbreviation outcome := (outcome number).

Lemma hoare_weaken {A} (P P' : state -> Prop) (m : M A)
    (Q Q' : outcome A -> state -> Prop) :
  hoare P' m Q' ->
  (forall s, P s -> P' s) ->
  (forall o s, Q' o s -> Q o s) ->
  hoare P m Q.
Proof. intros H HP HQ s Hs. apply HQ, H, HP, Hs. Qed.

Lemma hoare_bind {A B} (P : state -> Prop) (m : M A) (k : A -> M B)
    (Q1 : outcome A -> state -> Prop) (Q : outcome B -> state -> Prop) :
  hoare P m Q1 ->
  (forall a, hoare (Q1 (Ret a)) (k a) Q) ->
  (forall e s, Q1 (Throw e) s -> Q (Throw e) s) ->
  hoare P (bind m k) Q.
Proof.
  intros Hm Hk He s Hs. unfold bind. specialize (Hm s Hs).
  destruct (m s) as [[a|e] s1]; simpl in *.
  - now apply Hk.
  - now apply He.
Qed.

Lemma hoare_try_catch {A} (P : state -> Prop) (body : M A)
    (handle : thrown number -> M A)
    (Q1 Q : outcome A -> state -> Prop) :
  hoare P body Q1 ->
  (forall a s, Q1 (Ret a) s -> Q (Ret a) s) ->
  (forall e, hoare (Q1 (Throw e)) (handle e) Q) ->
  hoare P (try_catch body handle) Q.
Proof.
  intros Hb Hr Hh s Hs. unfold try_catch. specialize (Hb s Hs).
  destruct (body s) as [[a|e] s1]; simpl in *.
  - now apply Hr.
  - now apply Hh.
Qed.

Lemma completions_app (a b : list (call number)) :
  completions (a ++ b) = completions a + completions b.
Proof. unfold completions. now rewrite filter_app, length_app. Qed.

End Hoare.

(** ** The completion latch *)

Section Latch.

Context (R : Runtime).
Variable cbs : callbacks (number R).

Local Abbreviation state := (state (number R)).

Lemma latch_inv_forget (b : bool) (s : state) :
  latch_inv R cbs b s -> latch_inv R cbs false s.
Proof. intros [H _]. split; [assumption|discriminate]. Qed.

Lemma console_error_latch (b : bool) (e : thrown (number R)) :
  hoare (latch_inv R cbs b) (console_error e)
        (fun o s => o = Ret tt /\ latch_inv R cbs b s).
Proof.
  intros s [H1 H2]. split; [reflexivity|]. split; simpl; [|assumption].
  rewrite completions_app. simpl. now rewrite Nat.add_0_r.
Qed.

Lemma optional_call_latch (b : bool) (mk : value (number R) -> call (number R))
    (callback : option (handler (number R)))
    (argument : outcome (number R) (value (number R))) :
  (forall v, is_completion (mk v) = false) ->
  hoare (latch_inv R cbs b) (optional_call mk callback argument)
        (fun _ s => latch_inv R cbs b s).
Proof.
  intros Hmk s [H1 H2]. unfold optional_call.
  destruct callback as [h|]; [|now split].
  unfold bind, lift. destruct argument as [v|e]; [|now split].
  assert (latch_inv R cbs b (State (trace s ++ [mk v]) (completeCalled s))) as Hs1.
  { split; simpl; [|assumption].
    rewrite completions_app. unfold completions at 2. simpl.
    rewrite Hmk. simpl. now rewrite Nat.add_0_r. }
  destruct (h (trace s) v); exact Hs1.
Qed.

(** After [callComplete] the latch is set, whether [onComplete] returned
    or threw. *)
Lemma callComplete_latch (b : bool) :
  hoare (latch_inv R cbs b) (callComplete R cbs)
        (fun _ s => latch_inv R cbs true s).
Proof.
  intros s [H1 H2]. unfold callComplete.
  destruct (completeCalled s) eqn:E.
  - simpl. split; [now rewrite E|now rewrite E].
  - unfold supplied in *. destruct (onComplete cbs) as [h|] eqn:Eh.
    + assert (latch_inv R cbs true (State (trace s ++ [OnComplete]) true)) as Hs1.
      { split; simpl; [|reflexivity]. unfold supplied. rewrite Eh.
        rewrite completions_app, H1. reflexivity. }
      destruct (h (trace s)); exact Hs1.
    + simpl. split; simpl; [|reflexivity]. unfold supplied. now rewrite Eh.
Qed.

Lemma dispatch_latch (b : bool) (event : value (number R)) :
  hoare (latch_inv R cbs b) (dispatch R cbs event)
        (fun _ s => latch_inv R cbs b s).
Proof.
  unfold dispatch.
  eapply hoare_bind with (Q1 := fun _ s => latch_inv R cbs b s).
  - intros s Hs. exact Hs.
  - intros type.
    assert (hoare (latch_inv R cbs b) (ret (number:=number R) tt)
                  (fun _ s => latch_inv R cbs b s))
      as Hret by (intros s Hs; exact Hs).
    destruct type; try exact Hret.
    repeat match goal with
           | |- hoare _ (if ?c then _ else _) _ => destruct c
           end;
      try (apply optional_call_latch; reflexivity); try exact Hret.
    eapply hoare_weaken; [apply (@callComplete_latch b)|auto|].
    intros o s' [H1 H2]. split; [assumption|]. intros _. now apply H2.
  - intros e s Hs. exact Hs.
Qed.

Lemma process_line_latch (b : bool) (line : jstring) :
  hoare (latch_inv R cbs b) (process_line R cbs line)
        (fun _ s => latch_inv R cbs b s).
Proof.
  unfold process_line. destruct (startsWith _ line); [|intros s Hs; exact Hs].
  unfold process_data.
  eapply hoare_try_catch with (Q1 := fun _ s => latch_inv R cbs b s).
  - eapply hoare_bind with (Q1 := fun _ s => latch_inv R cbs b s).
    + intros s Hs. exact Hs.
    + intros event. apply dispatch_latch.
    + auto.
  - auto.
  - intros e s Hs. now destruct (@console_error_latch b e s Hs).
Qed.

Lemma deliver_latch (b : bool) (lines : list jstring) (s : state) :
  latch_inv R cbs b s -> latch_inv R cbs b (deliver R cbs lines s).
Proof.
  revert s. induction lines as [|line lines IH]; intros s Hs.
  - exact Hs.
  - rewrite deliver_cons. apply IH. now apply process_line_latch.
Qed.

End Latch.

(** ** Completion *)

Section Completion.

Context (R : Runtime).
Variable source : jstring.
Variable opts : options (number R).
Variable cbs : callbacks (number R).

Local Abbreviation state := (state (number R)).

Lemma server_error_has_message (r : response (number R)) :
  exists m, server_error R r = JsError m.
Proof.
  unfold server_error.
  destruct (get R _ (js "message")) as [message|e] eqn:Hget.
  - destruct (to_string R _); eauto.
  - unfold get in Hget.
    destruct (match json r with Ret v => v | Throw _ => VObject [] end)
      as [| | | | | |props]; try discriminate;
      try (injection Hget as <-; eauto).
    destruct (lookup _ props); discriminate.
Qed.

(** What the outer [catch] achieves when it is entered with the latch set
    or with an error whose message can be read: it keeps a latch that is
    set, and it sets the latch unless [onError] throws. *)
Lemma on_failure_outcome (e : thrown (number R)) (s : state) :
  latch_inv R cbs false s ->
  completeCalled s = true \/ thrown_message e <> None ->
  let final := on_failure R cbs e s in
  latch_inv R cbs false (snd final) /\
  (completeCalled s = true -> completeCalled (snd final) = true) /\
  (completeCalled (snd final) = true \/ stopped_by_onError R cbs final).
Proof.
  intros Hinv Hs. cbv zeta. unfold on_failure, bind, optional_call.
  pose proof (@callComplete_latch R cbs false) as Hcc.
  destruct (onError cbs) as [h|] eqn:Eh.
  - unfold bind, lift. destruct (thrown_message e) as [m|] eqn:Em.
    + assert (latch_inv R cbs false
                (State (trace s ++ [OnError m]) (completeCalled s))) as Hs1.
      { apply (@optional_call_latch R cbs false OnError (Some h) (Ret m)
                 (fun _ => eq_refl) s) in Hinv.
        simpl in Hinv. unfold bind, lift in Hinv.
        destruct (h (trace s) m); exact Hinv. }
      destruct (h (trace s) m) as [e'|] eqn:Eh'.
      * cbn [fst snd completeCalled]. split; [exact Hs1|]. split; [auto|].
        destruct (completeCalled s) eqn:Ec; [now left|right].
        exists h, (trace s), m, e'. rewrite Eh. repeat split; trivial.
      * specialize (Hcc _ Hs1).
        destruct (callComplete R cbs _) as [o s2]. cbn [fst snd] in *.
        destruct Hcc as [H1 H2]. split; [|split; [|left]]; auto.
        split; [exact H1|discriminate].
    + destruct Hs as [Hs|Hs]; [|congruence].
      cbn [fst snd]. split; [exact Hinv|]. split; auto.
  - unfold ret. specialize (Hcc _ Hinv).
    destruct (callComplete R cbs s) as [o s2]. cbn [fst snd] in *.
    destruct Hcc as [H1 H2]. split; [|split; [|left]]; auto.
    split; [exact H1|discriminate].
Qed.

Lemma latch_inv_start : latch_inv R cbs false start.
Proof. split; [reflexivity|discriminate]. Qed.

(** The latch at the end of an invocation. *)
Lemma compileWithStreaming_latch :
  let final := compileWithStreaming R source opts cbs start in
  latch_inv R cbs false (snd final) /\
  (completeCalled (snd final) = true \/ stopped_by_onError R cbs final) /\
  (forall body, streams R source opts body -> ending body = Closed ->
     completeCalled (snd final) = true).
Proof.
  cbv zeta. unfold compileWithStreaming, try_catch.
  pose proof latch_inv_start as H0.
  assert (forall m, @thrown_message (number R) (JsError m) <> None) as Hmsg
    by discriminate.
  destruct (fetch R (compile_request R source opts)) as [m|r] eqn:Hfetch.
  - destruct (on_failure_outcome (JsError m) start H0 (or_intror (Hmsg m)))
      as (Ha & _ & Hb).
    split; [exact Ha|]. split; [exact Hb|].
    intros body (r & Hr & _) _. congruence.
  - destruct (ok r) eqn:Hok; cbn [negb].
    + destruct (reads r) as [body|] eqn:Hreads.
      * unfold bind. rewrite read_loop_spec by (intros []).
        set (s1 := deliver R cbs _ start).
        assert (latch_inv R cbs false s1) as H1 by now apply deliver_latch.
        destruct (ending body) as [|m] eqn:Hend; cbn [leave].
        -- pose proof (@callComplete_latch R cbs false s1 H1) as [Hinv Hset].
           specialize (Hset eq_refl).
           destruct (callComplete R cbs s1) as [[[]|e] s2]; cbn [fst snd] in *.
           ++ split; [now apply latch_inv_forget with (b := true)|].
              split; [now left|]. intros _ _ _. exact Hset.
           ++ destruct (on_failure_outcome e s2
                          (conj Hinv (fun H => False_ind _ (diff_false_true H)))
                          (or_introl Hset))
                as (Ha & Hkeep & _).
              split; [exact Ha|]. split; [left; now apply Hkeep|].
              intros _ _ _. now apply Hkeep.
        -- destruct (on_failure_outcome (JsError m) s1 H1 (or_intror (Hmsg m)))
             as (Ha & _ & Hb).
           split; [exact Ha|]. split; [exact Hb|].
           intros body' (r' & Hr' & _ & Hreads') Hclosed.
           rewrite Hfetch in Hr'. injection Hr' as <-. rewrite Hreads in Hreads'.
           injection Hreads' as <-. congruence.
      * destruct (on_failure_outcome
                    (JsError (TypeError_message R (js "getReader"))) start H0
                    (or_intror (Hmsg _)))
          as (Ha & _ & Hb).
        split; [exact Ha|]. split; [exact Hb|].
        intros body (r' & Hr' & _ & Hreads'). rewrite Hfetch in Hr'.
        injection Hr' as <-. congruence.
    + destruct (server_error_has_message r) as [m ->].
      destruct (on_failure_outcome (JsError m) start H0 (or_intror (Hmsg m)))
        as (Ha & _ & Hb).
      split; [exact Ha|]. split; [exact Hb|].
      intros body (r' & Hr' & Hok' & _). rewrite Hfetch in Hr'.
      injection Hr' as <-. congruence.
Qed.

(** C1, as amended.  In every invocation of [compileWithStreaming]
    [onComplete] is invoked at most once.  When it is supplied, it is invoked
    exactly once unless the invocation ends with an exception thrown by
    [onError] in the outer [catch] with the latch still open.  It is
    therefore invoked exactly once whenever the invocation returns normally,
    whenever the [onError] callback is absent or never throws, and whenever
    the response body is read to its end, with or without end envelopes in
    it -- whatever else happens: a rejected [fetch], a failure status, a
    body that is [null] or empty, a read that fails. *)
Theorem completion_fires_once :
  let final := compileWithStreaming R source opts cbs start in
  completions (trace (snd final)) <= 1 /\
  (forall hc, onComplete cbs = Some hc ->
     (completions (trace (snd final)) = 1 \/ stopped_by_onError R cbs final) /\
     (fst final = Ret tt -> completions (trace (snd final)) = 1) /\
     (never_throws R (onError cbs) -> completions (trace (snd final)) = 1) /\
     (forall body, streams R source opts body -> ending body = Closed ->
        completions (trace (snd final)) = 1)).
Proof.
  cbv zeta. destruct compileWithStreaming_latch as ([Hc _] & Hend & Hclosed).
  split.
  - rewrite Hc. unfold supplied.
    destruct (completeCalled _); [destruct (onComplete cbs)|]; lia.
  - intros hc Hhc. unfold supplied in Hc. rewrite Hhc in Hc.
    assert (completeCalled
              (snd (compileWithStreaming R source opts cbs start)) = true ->
            completions
              (trace (snd (compileWithStreaming R source opts cbs start))) = 1)
      as Hone by (intros H; now rewrite Hc, H).
    repeat split.
    + destruct Hend as [H|H]; [left; now apply Hone|now right].
    + intros Hret. apply Hone. destruct Hend as [H|H]; [exact H|].
      destruct H as (h & tr & message & e & _ & _ & H).
      rewrite H in Hret. discriminate.
    + intros Hnt. apply Hone. destruct Hend as [H|H]; [exact H|].
      destruct H as (h & tr & message & e & Hh & He & _).
      rewrite (Hnt h Hh) in He. discriminate.
    + intros body Hs Hcl. apply Hone. now apply (Hclosed body).
Qed.

End Completion.

(** ** Streams of events *)

Lemma frames_lines_text (payloads : list jstring) :
  frames payloads = lines_text (frame_lines payloads).
Proof.
  unfold frames, lines_text, frame_lines.
  induction payloads as [|p ps IH]; [reflexivity|].
  simpl. rewrite IH. unfold frame. now rewrite <- !app_assoc.
Qed.

Lemma data_line_no_LF (payload : jstring) :
  no_LF payload -> no_LF (js "data: " ++ payload).
Proof.
  intros Hp Hin. simpl in Hin. unfold LF in Hin at 1 2 3 4 5 6.
  repeat (destruct Hin as [Hin|Hin]; [discriminate|]). now apply Hp.
Qed.

Lemma frame_lines_no_LF (payloads : list jstring) :
  Forall no_LF payloads -> Forall no_LF (frame_lines payloads).
Proof.
  induction 1 as [|p ps Hp _ IH]; simpl; [constructor|].
  constructor; [|constructor; [intros []|exact IH]].
  now apply data_line_no_LF.
Qed.

Lemma jstring_eqb_eq (a b : jstring) : jstring_eqb a b = true <-> a = b.
Proof.
  revert b. induction a as [|x a IH]; intros [|y b]; simpl; split;
    try discriminate; try reflexivity.
  - intros H. apply andb_true_iff in H. destruct H as [Hx Hab].
    apply N.eqb_eq in Hx. apply IH in Hab. now subst.
  - intros H. injection H as -> ->. rewrite N.eqb_refl. now apply IH.
Qed.

Lemma jstring_eqb_refl (a : jstring) : jstring_eqb a a = true.
Proof. now apply jstring_eqb_eq. Qed.

Lemma jstring_eqb_neq (a b : jstring) : a <> b -> jstring_eqb a b = false.
Proof.
  intros H. destruct (jstring_eqb a b) eqn:E; [|reflexivity].
  apply jstring_eqb_eq in E. contradiction.
Qed.

Section Events.

Context (R : Runtime).
Variable source : jstring.
Variable opts : options (number R).
Variable cbs : callbacks (number R).

Local Abbreviation M := (M (number R)).
Local Abbreviation state := (state (number R)).
Local Abbreviation value := (value (number R)).

Lemma streamed_run (body : stream) :
  streams R source opts body ->
  compileWithStreaming R source opts cbs start =
  conclude R cbs (ending body)
    (deliver R cbs (complete_lines (decoded R body)) start).
Proof.
  intros (r & Hfetch & Hok & Hreads).
  unfold compileWithStreaming, conclude, finish, try_catch.
  rewrite Hfetch, Hok, Hreads. cbn [negb]. unfold bind.
  rewrite read_loop_spec by (intros []). now destruct (ending body).
Qed.

Lemma streamed_lines (body : stream) (lines : list jstring) (fragment : jstring) :
  streams R source opts body ->
  decoded R body = lines_text lines ++ fragment ->
  Forall no_LF lines -> no_LF fragment ->
  compileWithStreaming R source opts cbs start =
  conclude R cbs (ending body) (deliver R cbs lines start).
Proof.
  intros Hs Htext Hl Hf. rewrite (streamed_run body Hs), Htext.
  unfold complete_lines. now rewrite split_lines_text, pop_snoc.
Qed.

Lemma process_line_data (payload : jstring) (s : state) :
  process_line R cbs (js "data: " ++ payload) s = process_data R cbs payload s.
Proof. reflexivity. Qed.

Lemma deliver_frame_lines (payloads : list jstring) (s : state) :
  deliver R cbs (frame_lines payloads) s = snd (dispatch_all R cbs payloads s).
Proof.
  revert s. induction payloads as [|p ps IH]; intros s; [reflexivity|].
  cbn [frame_lines flat_map app]. rewrite !deliver_cons.
  rewrite process_line_data. cbn [dispatch_all]. unfold bind.
  pose proof (process_data_returns R cbs p s) as Hret.
  destruct (process_data R cbs p s) as [o s1]. cbn [fst snd] in *. subst o.
  change (snd (process_line R cbs [] s1)) with s1. apply IH.
Qed.

Lemma dispatch_all_returns (payloads : list jstring) (s : state) :
  fst (dispatch_all R cbs payloads s) = Ret tt.
Proof.
  revert s. induction payloads as [|p ps IH]; intros s; [reflexivity|].
  cbn [dispatch_all]. unfold bind.
  pose proof (process_data_returns R cbs p s) as Hret.
  destruct (process_data R cbs p s) as [o s1]. cbn [fst] in Hret. subst o.
  apply IH.
Qed.

Lemma dispatch_all_app (a b : list jstring) (s : state) :
  snd (dispatch_all R cbs (a ++ b) s) =
  snd (dispatch_all R cbs b (snd (dispatch_all R cbs a s))).
Proof.
  revert s. induction a as [|p a IH]; intros s; [reflexivity|].
  cbn [app dispatch_all]. unfold bind.
  pose proof (process_data_returns R cbs p s) as Hret.
  destruct (process_data R cbs p s) as [o s1]. cbn [fst] in Hret. subst o.
  apply IH.
Qed.

Lemma get_defined (event : value) (p q : jstring) (x : value) :
  get R event p = Ret x -> exists y, get R event q = Ret y.
Proof.
  destruct event as [| | | | | |props]; simpl; try discriminate; eauto.
  intros _. destruct (lookup q props); eauto.
Qed.

Lemma process_data_routed (payload : jstring) (event type content : value)
    (s : state) :
  JSON_parse R payload = Some event ->
  get R event (js "type") = Ret type ->
  get R event (js "content") = Ret content ->
  process_data R cbs payload s = routed R cbs type content s.
Proof.
  intros Hparse Htype Hcontent.
  unfold process_data, try_catch, bind, lift, parse. rewrite Hparse.
  unfold dispatch, bind, lift. rewrite Htype, Hcontent.
  unfold routed. destruct type as [| | | |t| |]; try reflexivity.
  unfold route. cbn [assoc routes].
  assert (forall mk cb,
    (let (o, s1) := optional_call mk cb (Ret content) s in
     match o with
     | Ret a => (Ret a, s1)
     | Throw e => console_error e s1
     end) =
    match cb with
    | Some h =>
        (Ret tt,
         match h (trace s) content with
         | None => record R s [mk content]
         | Some e => record R s [mk content; ConsoleError e]
         end)
    | None => (Ret tt, s)
    end) as Hcall.
  { intros mk [h|]; [|reflexivity].
    unfold optional_call, bind, lift, record, console_error.
    destruct (h (trace s) content); cbn [trace completeCalled].
    - now rewrite <- app_assoc.
    - reflexivity. }
  repeat match goal with
         | |- context [if jstring_eqb t ?k then _ else _] =>
             destruct (jstring_eqb t k); [apply Hcall|]
         end.
  destruct (jstring_eqb t (js "end")); [|reflexivity].
  unfold completed, callComplete.
  destruct (completeCalled s); [reflexivity|].
  destruct (onComplete cbs) as [hc|]; [|reflexivity].
  destruct (hc (trace s)); [|reflexivity].
  unfold console_error. cbn [trace completeCalled].
  now rewrite <- app_assoc.
Qed.

End Events.

(** ** What the stream loop guarantees *)

Section Guarantees.

Context (R : Runtime).
Variable source : jstring.
Variable opts : options (number R).
Variable cbs : callbacks (number R).

Local Abbreviation state := (state (number R)).
Local Abbreviation value := (value (number R)).

(** C5.  A line that does not start with [data: ] does nothing.  For a line
    [data: <payload>] whose payload parses to an event with a readable
    [type], the event goes to the callback the routing table gives for that
    type ([log] to [onLog], [blueprint] to [onBlueprint], [json] to [onJson],
    [error] to [onError], [status] to [onStatus], [queue] to [onQueue]), with
    the event's [content], and an exception of the callback is logged;
    [end] goes to completion: with the latch open the latch is set and
    [onComplete], if supplied, invoked, and with the latch set nothing
    happens; any other type, and a known type whose callback is absent,
    leaves the state as it is; and in every case the line returns
    normally. *)
Theorem events_are_routed_by_type (line : jstring) (s : state) :
  (startsWith (js "data: ") line = false ->
   process_line R cbs line s = (Ret tt, s)) /\
  (forall payload event type,
     line = js "data: " ++ payload ->
     JSON_parse R payload = Some event ->
     get R event (js "type") = Ret type ->
     exists content,
       get R event (js "content") = Ret content /\
       process_line R cbs line s = routed R cbs type content s /\
       (forall t mk h,
          type = VString t -> route R cbs t = Some (mk, Some h) ->
          process_line R cbs line s =
          (Ret tt,
           State (trace s
                    ++ mk content
                       :: match h (trace s) content with
                          | None => []
                          | Some e => [ConsoleError e]
                          end)
                 (completeCalled s))) /\
       (forall t mk,
          type = VString t -> route R cbs t = Some (mk, None) ->
          process_line R cbs line s = (Ret tt, s)) /\
       (type = VString (js "end") ->
          process_line R cbs line s =
          (Ret tt,
           if completeCalled s then s
           else
             match onComplete cbs with
             | None => State (trace s) true
             | Some hc =>
                 State (trace s
                          ++ OnComplete
                             :: match hc (trace s) with
                                | None => []
                                | Some e => [ConsoleError e]
                                end)
                       true
             end)) /\
       (match type with
        | VString t => route R cbs t = None /\ t <> js "end"
        | _ => True
        end ->
        process_line R cbs line s = (Ret tt, s))).
Proof.
  split.
  - intros H. unfold process_line. now rewrite H.
  - intros payload event type -> Hparse Htype.
    destruct (get_defined R event (js "type") (js "content") type Htype)
      as [content Hcontent].
    exists content. split; [exact Hcontent|].
    rewrite process_line_data.
    rewrite (process_data_routed R cbs payload event type content s
               Hparse Htype Hcontent).
    split; [reflexivity|]. unfold routed.
    split; [|split; [|split]].
    + intros t mk h -> Hroute. rewrite Hroute. unfold record.
      now destruct (h (trace s) content).
    + intros t mk -> Hroute. now rewrite Hroute.
    + intros ->.
      change (route R cbs (js "end")) with
        (@None ((value -> call (number R)) * option (handler (number R)))).
      change (jstring_eqb (js "end") (js "end")) with true. cbv iota.
      unfold completed. destruct (completeCalled s); [reflexivity|].
      destruct (onComplete cbs) as [hc|]; [|reflexivity].
      now destruct (hc (trace s)).
    + destruct type as [| | | |t| |]; try reflexivity.
      intros [Hroute Hend]. rewrite Hroute.
      now rewrite (jstring_eqb_neq _ _ Hend).
Qed.

(** C9.  When the stream closes, what the buffer still holds -- the text
    after the last line feed, be it a complete [data: ] line -- is dropped:
    the invocation is that of the complete lines alone, followed by the
    completion trigger. *)
Theorem trailing_fragment_is_dropped (body : stream) (lines : list jstring)
    (fragment : jstring) :
  streams R source opts body ->
  ending body = Closed ->
  decoded R body = lines_text lines ++ fragment ->
  Forall no_LF lines -> no_LF fragment ->
  compileWithStreaming R source opts cbs start =
  finish R cbs (deliver R cbs lines start).
Proof.
  intros Hs Hend Htext Hl Hf.
  rewrite (streamed_lines R source opts cbs body lines fragment Hs Htext Hl Hf).
  now rewrite Hend.
Qed.

(** C4.  A [data: ] line whose payload [JSON.parse] rejects returns
    normally and only adds a [console.error] entry to the trace: no callback
    is invoked for it, [onError] included.  In a stream, the lines before it
    and after it go through the loop as they would without it, and what
    follows the loop (the completion trigger, or the outer [catch] if a later
    read fails) is reached. *)
Theorem malformed_line_is_skipped (body : stream) (before after : list jstring)
    (payload fragment : jstring) :
  JSON_parse R payload = None ->
  (forall s,
     process_line R cbs (js "data: " ++ payload) s =
     (Ret tt, record R s [ConsoleError (JsError (SyntaxError_message R payload))])) /\
  (streams R source opts body ->
   decoded R body =
     lines_text (before ++ (js "data: " ++ payload) :: after) ++ fragment ->
   Forall no_LF before -> no_LF payload -> Forall no_LF after ->
   no_LF fragment ->
   compileWithStreaming R source opts cbs start =
   conclude R cbs (ending body)
     (deliver R cbs after
        (record R (deliver R cbs before start)
           [ConsoleError (JsError (SyntaxError_message R payload))]))).
Proof.
  intros Hparse.
  assert (forall s,
     process_line R cbs (js "data: " ++ payload) s =
     (Ret tt, record R s [ConsoleError (JsError (SyntaxError_message R payload))]))
    as Hline.
  { intros s. rewrite process_line_data.
    unfold process_data, try_catch, bind, lift, parse. now rewrite Hparse. }
  split; [exact Hline|].
  intros Hs Htext Hb Hp Ha Hf.
  rewrite (streamed_lines R source opts cbs body _ fragment Hs Htext); trivial.
  - now rewrite deliver_app, deliver_cons, Hline.
  - apply Forall_app. split; [exact Hb|]. constructor; [|exact Ha].
    now apply data_line_no_LF.
Qed.

Lemma is_end_get (payload : jstring) :
  is_end R payload = true ->
  exists event content,
    JSON_parse R payload = Some event /\
    get R event (js "type") = Ret (VString (js "end")) /\
    get R event (js "content") = Ret content.
Proof.
  unfold is_end. destruct (JSON_parse R payload) as [[| | | | | |props]|];
    try discriminate.
  destruct (lookup (js "type") props) as [[| | | |t| |]|] eqn:E; try discriminate.
  intros Ht. apply jstring_eqb_eq in Ht. subst t.
  destruct (get_defined R (VObject props) (js "type") (js "content")
              (VString (js "end"))) as [content Hc].
  { simpl. now rewrite E. }
  exists (VObject props), content. repeat split; trivial.
  simpl. now rewrite E.
Qed.

Lemma not_end_get (payload : jstring) (event type : value) :
  is_end R payload = false ->
  JSON_parse R payload = Some event ->
  get R event (js "type") = Ret type ->
  match type with
  | VString t => jstring_eqb t (js "end") = false
  | _ => True
  end.
Proof.
  unfold is_end. intros H Hparse Hget. rewrite Hparse in H.
  destruct type as [| | | |t| |]; trivial.
  destruct event as [| | | | | |props]; simpl in Hget; try discriminate.
  destruct (lookup (js "type") props) as [v|]; [|discriminate].
  injection Hget as ->. exact H.
Qed.

(** A payload that is not an end envelope leaves the latch alone. *)
Lemma process_data_keeps_latch (payload : jstring) (s : state) :
  is_end R payload = false ->
  completeCalled (snd (process_data R cbs payload s)) = completeCalled s.
Proof.
  intros Hend.
  destruct (JSON_parse R payload) as [event|] eqn:Hparse.
  - destruct (get R event (js "type")) as [type|e] eqn:Htype.
    + destruct (get_defined R event _ (js "content") type Htype) as [content Hc].
      rewrite (process_data_routed R cbs payload event type content s
                 Hparse Htype Hc).
      pose proof (not_end_get payload event type Hend Hparse Htype) as Hne.
      unfold routed. destruct type as [| | | |t| |]; try reflexivity.
      destruct (route R cbs t) as [[mk [h|]]|]; try reflexivity.
      * cbn [snd]. now destruct (h (trace s) content).
      * now rewrite Hne.
    + unfold process_data, try_catch, bind, lift, parse, dispatch, bind, lift.
      now rewrite Hparse, Htype.
  - unfold process_data, try_catch, bind, lift, parse. now rewrite Hparse.
Qed.

Lemma dispatch_all_keeps_latch (payloads : list jstring) (s : state) :
  Forall (fun p => is_end R p = false) payloads ->
  completeCalled (snd (dispatch_all R cbs payloads s)) = completeCalled s.
Proof.
  intros H. revert s. induction H as [|p ps Hp _ IH]; intros s; [reflexivity|].
  cbn [dispatch_all]. unfold bind.
  pose proof (process_data_returns R cbs p s) as Hret.
  pose proof (process_data_keeps_latch p s Hp) as Hkeep.
  destruct (process_data R cbs p s) as [o s1]. cbn [fst snd] in *. subst o.
  now rewrite IH.
Qed.

(** The first end envelope fires [onComplete]; if that throws, the line
    logs it. *)
Lemma process_data_end (payload : jstring) (s : state)
    (hc : list (call (number R)) -> option (thrown (number R))) :
  is_end R payload = true ->
  onComplete cbs = Some hc ->
  completeCalled s = false ->
  exists diagnostics,
    process_data R cbs payload s =
    (Ret tt, State (trace s ++ OnComplete :: diagnostics) true) /\
    forallb (is_diagnostic R) diagnostics = true.
Proof.
  intros Hend Hhc Hopen.
  destruct (is_end_get payload Hend) as (event & content & Hparse & Htype & Hc).
  rewrite (process_data_routed R cbs payload event _ content s Hparse Htype Hc).
  unfold routed. change (route R cbs (js "end")) with
    (@None ((value -> call (number R)) * option (handler (number R)))).
  change (jstring_eqb (js "end") (js "end")) with true. cbv iota.
  unfold completed. rewrite Hopen, Hhc.
  destruct (hc (trace s)) as [e|].
  - exists [ConsoleError e]. split; reflexivity.
  - exists []. split; reflexivity.
Qed.

Lemma finish_done (s : state) :
  completeCalled s = true -> finish R cbs s = (Ret tt, s).
Proof.
  intros H. unfold finish, try_catch, callComplete. now rewrite H.
Qed.

(** Payloads dispatched with the latch set leave it set and invoke
    [onComplete] no more. *)
Lemma dispatch_all_after_end (payloads : list jstring) (s : state) :
  completeCalled s = true ->
  completions (trace s) = supplied R cbs ->
  completeCalled (snd (dispatch_all R cbs payloads s)) = true /\
  completions (trace (snd (dispatch_all R cbs payloads s))) = supplied R cbs.
Proof.
  intros Hset Hc.
  assert (latch_inv R cbs true s) as Hinv
    by (split; [now rewrite Hset|trivial]).
  apply deliver_latch with (lines := frame_lines payloads) in Hinv.
  rewrite deliver_frame_lines in Hinv. destruct Hinv as [H1 H2].
  specialize (H2 eq_refl). rewrite H2 in H1. now split.
Qed.

(** With the latch set, end envelopes do nothing. *)
Lemma dispatch_all_ends (payloads : list jstring) (s : state) :
  completeCalled s = true ->
  Forall (fun p => is_end R p = true) payloads ->
  dispatch_all R cbs payloads s = (Ret tt, s).
Proof.
  intros Hset H. induction H as [|p ps Hp _ IH]; [reflexivity|].
  cbn [dispatch_all]. unfold bind.
  destruct (is_end_get p Hp) as (event & content & Hparse & Htype & Hc).
  rewrite (process_data_routed R cbs p event _ content s Hparse Htype Hc).
  unfold routed. change (route R cbs (js "end")) with
    (@None ((value -> call (number R)) * option (handler (number R)))).
  change (jstring_eqb (js "end") (js "end")) with true. cbv iota.
  unfold completed. rewrite Hset. exact IH.
Qed.

(** C3, as amended.  A stream of frames is delivered frame by frame, in
    order and each payload once, however the bytes of the stream are cut
    into reads (only their concatenation matters, and the decoder carries a
    character cut by a read over to the next).  When [onComplete] is
    supplied it is invoked once, at the first end envelope: after the
    callbacks of the frames before it and before the callbacks of the frames
    after it, which are still dispatched.  So it is invoked after every
    other callback -- nothing but diagnostics follows it in the trace --
    when the last frame is the only end envelope, and also when only end
    envelopes follow the first. *)
Theorem frames_are_delivered_in_order (body : stream) (bytes : list byte)
    (payloads : list jstring) :
  streams R source opts body ->
  ending body = Closed ->
  List.concat (chunks body) = bytes ->
  snd (decode R (TextDecoder R) bytes) = frames payloads ->
  Forall no_LF payloads ->
  compileWithStreaming R source opts cbs start =
    finish R cbs (snd (dispatch_all R cbs payloads start)) /\
  (forall hc before last_payload,
     onComplete cbs = Some hc ->
     payloads = before ++ [last_payload] ->
     is_end R last_payload = true ->
     Forall (fun p => is_end R p = false) before ->
     exists diagnostics,
       compileWithStreaming R source opts cbs start =
         (Ret tt,
          State (trace (snd (dispatch_all R cbs before start))
                   ++ OnComplete :: diagnostics) true) /\
       completions (trace (snd (dispatch_all R cbs before start))) = 0 /\
       forallb (is_diagnostic R) diagnostics = true) /\
  (forall hc before end_payload after,
     onComplete cbs = Some hc ->
     payloads = before ++ end_payload :: after ->
     is_end R end_payload = true ->
     Forall (fun p => is_end R p = false) before ->
     exists diagnostics,
       forallb (is_diagnostic R) diagnostics = true /\
       let fired :=
         State (trace (snd (dispatch_all R cbs before start))
                  ++ OnComplete :: diagnostics) true in
       compileWithStreaming R source opts cbs start =
         (Ret tt, snd (dispatch_all R cbs after fired)) /\
       completions
         (trace (snd (compileWithStreaming R source opts cbs start))) = 1 /\
       (Forall (fun p => is_end R p = true) after ->
        compileWithStreaming R source opts cbs start = (Ret tt, fired))).
Proof.
  intros Hs Hclosed Hbytes Htext Hp.
  assert (compileWithStreaming R source opts cbs start =
          finish R cbs (snd (dispatch_all R cbs payloads start))) as Hrun.
  { rewrite <- deliver_frame_lines.
    change (finish R cbs) with (conclude R cbs Closed). rewrite <- Hclosed.
    apply (streamed_lines R source opts cbs body _ []); trivial.
    - unfold decoded. rewrite Hbytes, Htext, app_nil_r.
      apply frames_lines_text.
    - now apply frame_lines_no_LF.
    - intros []. }
  split; [exact Hrun|]. split.
  - intros hc before last_payload Hhc -> Hend Hbefore.
    rewrite Hrun, dispatch_all_app.
    set (s1 := snd (dispatch_all R cbs before start)).
    assert (completeCalled s1 = false) as Hopen
      by (unfold s1; now rewrite dispatch_all_keeps_latch).
    destruct (process_data_end last_payload s1 hc Hend Hhc Hopen)
      as (diagnostics & Hlast & Hdiag).
    exists diagnostics. cbn [dispatch_all]. unfold bind. rewrite Hlast.
    cbn [snd ret]. rewrite finish_done by reflexivity.
    repeat split; trivial.
    assert (latch_inv R cbs false s1) as [Hinv _].
    { unfold s1. rewrite <- deliver_frame_lines.
      apply deliver_latch, latch_inv_start. }
    now rewrite Hopen in Hinv.
  - intros hc before end_payload after Hhc -> Hend Hbefore.
    rewrite Hrun, dispatch_all_app.
    set (s1 := snd (dispatch_all R cbs before start)).
    assert (completeCalled s1 = false) as Hopen
      by (unfold s1; now rewrite dispatch_all_keeps_latch).
    assert (completions (trace s1) = 0) as Hzero.
    { assert (latch_inv R cbs false s1) as [Hinv _].
      { unfold s1. rewrite <- deliver_frame_lines.
        apply deliver_latch, latch_inv_start. }
      now rewrite Hopen in Hinv. }
    destruct (process_data_end end_payload s1 hc Hend Hhc Hopen)
      as (diagnostics & Hlast & Hdiag).
    exists diagnostics. split; [exact Hdiag|]. cbv zeta.
    set (fired := State (trace s1 ++ OnComplete :: diagnostics) true).
    assert (completions (trace fired) = supplied R cbs) as Hone.
    { unfold supplied. rewrite Hhc. unfold fired. cbn [trace].
      unfold completions in *. rewrite filter_app, length_app, Hzero.
      cbn [filter is_completion List.length]. f_equal.
      clear - Hdiag. induction diagnostics as [|[] ds IH]; try discriminate;
        [reflexivity|]. cbn [filter is_completion]. now apply IH. }
    destruct (dispatch_all_after_end after fired eq_refl Hone)
      as [Hset Hcount].
    assert (snd (dispatch_all R cbs (end_payload :: after) s1) =
            snd (dispatch_all R cbs after fired)) as Hstep.
    { cbn [dispatch_all]. unfold bind. now rewrite Hlast. }
    rewrite Hstep, (finish_done _ Hset). cbn [snd].
    split; [reflexivity|]. split.
    + rewrite Hcount. unfold supplied. now rewrite Hhc.
    + intros Hends. now rewrite dispatch_all_ends.
Qed.

(** C10.  A callback that throws while an event is dispatched to it is
    caught by the handler around the line: the trace gets the invocation
    and a [console.error] entry, [onError] is not invoked, the lines after
    it go through the loop and what follows the loop (the completion
    trigger, or the outer [catch] if a later read fails) is reached.  This
    holds for the six event callbacks and for [onComplete] fired by an end
    envelope. *)
Theorem callback_exception_is_swallowed (body : stream)
    (before after : list jstring) (payload fragment : jstring)
    (event content : value) (t : jstring) :
  streams R source opts body ->
  decoded R body =
    lines_text (before ++ (js "data: " ++ payload) :: after) ++ fragment ->
  Forall no_LF before -> no_LF payload -> Forall no_LF after ->
  no_LF fragment ->
  JSON_parse R payload = Some event ->
  get R event (js "type") = Ret (VString t) ->
  get R event (js "content") = Ret content ->
  let s1 := deliver R cbs before start in
  (forall mk h e,
     route R cbs t = Some (mk, Some h) ->
     h (trace s1) content = Some e ->
     compileWithStreaming R source opts cbs start =
     conclude R cbs (ending body)
       (deliver R cbs after (record R s1 [mk content; ConsoleError e]))) /\
  (forall hc e,
     t = js "end" ->
     onComplete cbs = Some hc ->
     completeCalled s1 = false ->
     hc (trace s1) = Some e ->
     compileWithStreaming R source opts cbs start =
     conclude R cbs (ending body)
       (deliver R cbs after
          (State (trace s1 ++ [OnComplete; ConsoleError e]) true))).
Proof.
  intros Hs Htext Hb Hp Ha Hf Hparse Htype Hcontent s1.
  assert (compileWithStreaming R source opts cbs start =
          conclude R cbs (ending body)
            (deliver R cbs after (snd (routed R cbs (VString t) content s1))))
    as Hrun.
  { rewrite (streamed_lines R source opts cbs body _ fragment Hs Htext); trivial.
    - rewrite deliver_app, deliver_cons, process_line_data.
      now rewrite (process_data_routed R cbs payload event _ content _
                     Hparse Htype Hcontent).
    - apply Forall_app. split; [exact Hb|]. constructor; [|exact Ha].
      now apply data_line_no_LF. }
  split.
  - intros mk h e Hroute Hthrow. rewrite Hrun. unfold routed.
    now rewrite Hroute, Hthrow.
  - intros hc e -> Hhc Hopen Hthrow. rewrite Hrun. unfold routed.
    change (route R cbs (js "end")) with
      (@None ((value -> call (number R)) * option (handler (number R)))).
    change (jstring_eqb (js "end") (js "end")) with true. cbv iota.
    unfold completed. now rewrite Hopen, Hhc, Hthrow.
Qed.

End Guarantees.

(** ** Failure statuses, the one-shot client and the probes *)

Section Failures.

Context (R : Runtime).
Variable source : jstring.
Variable opts : options (number R).
Variable cbs : callbacks (number R).

Local Abbreviation state := (state (number R)).
Local Abbreviation value := (value (number R)).


(** [compileSync] returns a value only for a success status, and then the
    whole body as JSON. *)
Lemma compileSync_returns_on_success (v : value) :
  compileSync R source opts = Ret v ->
  exists r, fetch R (sync_request R source opts) = Resolved r /\
            ok r = true /\ json r = Ret v.
Proof.
  unfold compileSync. destruct (fetch R _) as [m|r]; [discriminate|].
  destruct (ok r) eqn:Hok; cbn [negb]; [|discriminate].
  intros H. now exists r.
Qed.

(** On a failure status [compileSync] throws what [server_error] makes. *)
Lemma compileSync_failure_status (r : response (number R)) :
  fetch R (sync_request R source opts) = Resolved r ->
  ok r = false ->
  compileSync R source opts = Throw (server_error R r).
Proof.
  intros Hfetch Hok. unfold compileSync. now rewrite Hfetch, Hok.
Qed.

(** C6, where the code departs from it.  When the server answers a failure
    status with the JSON body [null], [response.json()] resolves to [null],
    reading [errorData.message] raises the engine's [TypeError], and
    [compileSync] fails with that error: its message is the engine's, neither
    a message of the server nor the fallback with the status. *)
Theorem compileSync_null_body (r : response (number R)) :
  fetch R (sync_request R source opts) = Resolved r ->
  ok r = false ->
  json r = Ret VNull ->
  compileSync R source opts =
  Throw (JsError (TypeError_message R (js "message"))).
Proof.
  intros Hfetch Hok Hjson.
  rewrite (compileSync_failure_status r Hfetch Hok).
  unfold server_error. now rewrite Hjson.
Qed.


End Failures.

Section Probes.

Context (R : Runtime).

(** C7.  [checkHealth] and [connect] never throw: each returns [true] when
    its request is answered with a status from 200 to 299, and [false] when
    the request fails or is answered with any other status. *)
Theorem probes_never_throw :
  checkHealth R =
    Ret (match fetch R (health_request R) with
         | Resolved r => success_status (status r)
         | Rejected _ => false
         end) /\
  connect R =
    Ret (match fetch R (connect_request R) with
         | Resolved r => success_status (status r)
         | Rejected _ => false
         end).
Proof.
  unfold checkHealth, connect, try_or. split.
  - now destruct (fetch R (health_request R)).
  - now destruct (fetch R (connect_request R)).
Qed.

Local Abbreviation value := (value (number R)).

(** C8.  Both request bodies have the six properties [source],
    [power_poles], [blueprint_name], [no_optimize], [json_output] and
    [log_level], and each is the body of the request sent.  With no options
    given they are [null], [null], [false], [false] and ["info"]; an option
    that is given and truthy is sent as it is.  [json_output] is [false] in
    every streaming request, and the caller's [jsonOutput] (else [false]) in
    a one-shot request. *)
Theorem request_bodies (source : jstring) (opts : options (number R)) :
  let streaming := requestBody R source opts in
  let one_shot := sync_requestBody R source opts in
  let absent := Options VUndefined VUndefined VUndefined VUndefined VUndefined in
  let names := [js "source"; js "power_poles"; js "blueprint_name";
                js "no_optimize"; js "json_output"; js "log_level"] in
  body (compile_request R source opts) = Some streaming /\
  body (sync_request R source opts) = Some one_shot /\
  keys R streaming = names /\ keys R one_shot = names /\
  requestBody R source absent =
    VObject [(js "source", VString source); (js "power_poles", VNull);
             (js "blueprint_name", VNull); (js "no_optimize", VBool false);
             (js "json_output", VBool false);
             (js "log_level", VString (js "info"))] /\
  sync_requestBody R source absent = requestBody R source absent /\
  field R "json_output" streaming = Some (VBool false) /\
  field R "json_output" one_shot =
    Some (defaulted R (jsonOutput opts) (VBool false)) /\
  (let shared := fun body =>
     field R "source" body = Some (VString source) /\
     field R "power_poles" body = Some (defaulted R (powerPoles opts) VNull) /\
     field R "blueprint_name" body =
       Some (defaulted R (blueprintName opts) VNull) /\
     field R "no_optimize" body =
       Some (defaulted R (noOptimize opts) (VBool false)) /\
     field R "log_level" body =
       Some (defaulted R (logLevel opts) (VString (js "info"))) in
   shared streaming /\ shared one_shot).
Proof.
  cbv zeta. repeat split; reflexivity.
Qed.

End Probes.

(** ** Callers that take strings *)

Section Robustness.

Context (R : Runtime).
Variable source : jstring.
Variable opts : options (number R).
Variable cbs : callbacks (number R).

Local Abbreviation state := (state (number R)).

Lemma callComplete_sets (s : state) :
  completeCalled (snd (callComplete R cbs s)) = true /\
  (onComplete_returns R cbs -> fst (callComplete R cbs s) = Ret tt).
Proof.
  unfold callComplete. destruct (completeCalled s) eqn:Hs; [now split|].
  destruct (onComplete cbs) as [hc|] eqn:Hhc; [|now split].
  split; [now destruct (hc (trace s))|].
  intros Hret. now rewrite (Hret hc Hhc).
Qed.

(** The outer [catch], entered with an [Error] whose message is a string. *)
Lemma on_failure_string (m : jstring) (s : state) :
  takes_strings R (onError cbs) ->
  completeCalled (snd (on_failure R cbs (JsError m) s)) = true /\
  (onComplete_returns R cbs -> fst (on_failure R cbs (JsError m) s) = Ret tt).
Proof.
  intros Hstr. unfold on_failure, optional_call, bind, lift.
  cbn [thrown_message JsError].
  destruct (onError cbs) as [h|] eqn:Eh.
  - rewrite (Hstr h eq_refl). apply callComplete_sets.
  - apply callComplete_sets.
Qed.

(** With such an [onError] the latch is set when the invocation ends, and
    the invocation returns normally if [onComplete] does. *)
Lemma takes_strings_outcome :
  takes_strings R (onError cbs) ->
  completeCalled (snd (compileWithStreaming R source opts cbs start)) = true /\
  (onComplete_returns R cbs ->
   fst (compileWithStreaming R source opts cbs start) = Ret tt).
Proof.
  intros Hstr. unfold compileWithStreaming, try_catch.
  destruct (fetch R (compile_request R source opts)) as [m|r].
  - apply on_failure_string, Hstr.
  - destruct (ok r); cbn [negb].
    + destruct (reads r) as [body|].
      * unfold bind. rewrite read_loop_spec by (intros []).
        set (s1 := deliver R cbs _ start).
        assert (latch_inv R cbs false s1) as H1
          by apply deliver_latch, latch_inv_start.
        destruct (ending body) as [|m]; cbn [leave].
        -- pose proof (callComplete_sets s1) as [Hc Hr].
           pose proof (@callComplete_latch R cbs false s1 H1) as [Hinv _].
           destruct (callComplete R cbs s1) as [[[]|e] s2];
             cbn [fst snd] in *.
           ++ split; [exact Hc|reflexivity].
           ++ destruct (on_failure_outcome R cbs e s2
                          (conj Hinv
                             (fun H => False_ind _ (diff_false_true H)))
                          (or_introl Hc)) as (_ & Hkeep & _).
              split; [now apply Hkeep|].
              intros H. specialize (Hr H). discriminate.
        -- apply on_failure_string, Hstr.
      * apply on_failure_string, Hstr.
    + destruct (server_error_has_message R r) as [m ->].
      apply on_failure_string, Hstr.
Qed.

(** X1.  In every invocation whose request and reads settle -- [fetch]
    rejects, or resolves to a failure status, to a response without a body,
    or to a body that is read until it closes or until a read fails -- a
    caller whose [onError] returns normally whenever it is handed a string
    gets its [onComplete] invoked exactly once (not at all only if it
    supplies none), whatever its callbacks do with other arguments: every
    error that reaches the outer [catch] while the latch is open carries a
    string message.  If [onComplete] never throws either, the invocation
    returns normally, so the promise of [compileWithStreaming] is fulfilled
    and a [catch] of the caller is not entered.  A [fetch] or a read that
    never settles is outside this: there the invocation does not return. *)
Theorem string_safe_onError_completes :
  takes_strings R (onError cbs) ->
  let final := compileWithStreaming R source opts cbs start in
  completions (trace (snd final)) = supplied R cbs /\
  completeCalled (snd final) = true /\
  (onComplete_returns R cbs -> fst final = Ret tt).
Proof.
  intros Hstr. cbv zeta. destruct (takes_strings_outcome Hstr) as [Hset Hret].
  destruct (compileWithStreaming_latch R source opts cbs) as ([Hc _] & _).
  rewrite Hset in Hc. auto.
Qed.

End Robustness.


(** ** Failures in transport, and streams without an end *)

Section Endings.

Context (R : Runtime).
Variable source : jstring.
Variable opts : options (number R).
Variable cbs : callbacks (number R).

Local Abbreviation state := (state (number R)).

(** The outer [catch] with an [Error], case by case. *)
Lemma on_failure_cases (m : jstring) (s : state) :
  (onError cbs = None ->
     on_failure R cbs (JsError m) s = callComplete R cbs s) /\
  (forall h, onError cbs = Some h ->
     on_failure R cbs (JsError m) s =
     match h (trace s) (VString m) with
     | Some e => (Throw e, record R s [OnError (VString m)])
     | None => callComplete R cbs (record R s [OnError (VString m)])
     end).
Proof.
  unfold on_failure, optional_call, bind, lift, record.
  cbn [thrown_message JsError]. split.
  - now intros ->.
  - intros h ->. now destruct (h (trace s) (VString m)).
Qed.

(** X2.  A failure in transport -- [fetch] rejects, the response has no
    body, or a read fails -- is handled by the outer [catch] after the
    complete lines read so far have gone through the loop; a partial line is
    dropped.  [onError], if supplied, gets the message of the failure; unless
    it throws, the completion trigger follows, which invokes [onComplete]
    if no end envelope has done so before.  Nothing is retried and nothing
    is thrown to the caller but what its own callbacks throw. *)
Theorem transport_failure_is_reported (m : jstring) (lines : list jstring) :
  transport_failure R source opts m lines ->
  let s1 := deliver R cbs lines start in
  let final := compileWithStreaming R source opts cbs start in
  final = on_failure R cbs (JsError m) s1 /\
  (onError cbs = None -> final = callComplete R cbs s1) /\
  (forall h, onError cbs = Some h ->
     final =
     match h (trace s1) (VString m) with
     | Some e => (Throw e, record R s1 [OnError (VString m)])
     | None => callComplete R cbs (record R s1 [OnError (VString m)])
     end) /\
  (forall h hc, onError cbs = Some h -> onComplete cbs = Some hc ->
     h (trace s1) (VString m) = None ->
     trace (snd final) =
     trace s1 ++ OnError (VString m)
       :: (if completeCalled s1 then [] else [OnComplete])).
Proof.
  intros Hfail. cbv zeta.
  assert (compileWithStreaming R source opts cbs start =
          on_failure R cbs (JsError m) (deliver R cbs lines start)) as Hrun.
  { destruct Hfail as [m Hfetch|r Hfetch Hok Hreads
                       |body m lines fragment Hs Hend Htext Hl Hf].
    - unfold compileWithStreaming, try_catch. now rewrite Hfetch.
    - unfold compileWithStreaming, try_catch. now rewrite Hfetch, Hok, Hreads.
    - rewrite (streamed_lines R source opts cbs body lines fragment); trivial.
      now rewrite Hend. }
  destruct (on_failure_cases m (deliver R cbs lines start)) as [Hnone Hsome].
  split; [exact Hrun|]. split; [|split].
  - intros H. now rewrite Hrun, Hnone.
  - intros h Hh. now rewrite Hrun, (Hsome h Hh).
  - intros h hc Hh Hhc Hquiet. rewrite Hrun, (Hsome h Hh), Hquiet.
    unfold callComplete, record. cbn [completeCalled trace].
    destruct (completeCalled (deliver R cbs lines start)); [reflexivity|].
    rewrite Hhc. cbn [trace]. rewrite <- app_assoc.
    now destruct (hc _).
Qed.

(** X3.  A stream that closes without an end envelope still completes:
    its events are dispatched in order without [onComplete] being invoked,
    and the trigger after the loop then invokes it, last.  If [onComplete]
    throws there, the outer [catch] takes over with the latch set. *)
Theorem close_without_end_completes (body : stream) (payloads : list jstring)
    (fragment : jstring) :
  streams R source opts body ->
  ending body = Closed ->
  decoded R body = frames payloads ++ fragment ->
  Forall no_LF payloads -> no_LF fragment ->
  Forall (fun p => is_end R p = false) payloads ->
  let s1 := snd (dispatch_all R cbs payloads start) in
  let final := compileWithStreaming R source opts cbs start in
  completions (trace s1) = 0 /\
  final = finish R cbs s1 /\
  (onComplete cbs = None -> final = (Ret tt, State (trace s1) true)) /\
  (forall hc, onComplete cbs = Some hc ->
     final =
     match hc (trace s1) with
     | None => (Ret tt, State (trace s1 ++ [OnComplete]) true)
     | Some e =>
         on_failure R cbs e (State (trace s1 ++ [OnComplete]) true)
     end).
Proof.
  intros Hs Hclosed Htext Hp Hf Hnot. cbv zeta.
  set (s1 := snd (dispatch_all R cbs payloads start)).
  assert (completeCalled s1 = false) as Hopen
    by (unfold s1; now rewrite dispatch_all_keeps_latch).
  assert (compileWithStreaming R source opts cbs start = finish R cbs s1)
    as Hrun.
  { unfold s1. rewrite <- deliver_frame_lines.
    change (finish R cbs) with (conclude R cbs Closed). rewrite <- Hclosed.
    apply (streamed_lines R source opts cbs body _ fragment); trivial.
    - now rewrite Htext, frames_lines_text.
    - now apply frame_lines_no_LF. }
  split; [|split; [exact Hrun|split]].
  - assert (latch_inv R cbs false s1) as [Hinv _].
    { unfold s1. rewrite <- deliver_frame_lines.
      apply deliver_latch, latch_inv_start. }
    now rewrite Hopen in Hinv.
  - intros Hnone. rewrite Hrun. unfold finish, try_catch, callComplete.
    now rewrite Hopen, Hnone.
  - intros hc Hhc. rewrite Hrun. unfold finish, try_catch, callComplete.
    rewrite Hopen, Hhc. now destruct (hc (trace s1)).
Qed.

(** X4.  A success response whose body carries no byte at all, in however
    many reads, delivers no event: the invocation is the completion trigger
    alone, whatever the decoder is. *)
Theorem empty_body_completes (body : stream) :
  streams R source opts body ->
  ending body = Closed ->
  List.concat (chunks body) = [] ->
  let final := compileWithStreaming R source opts cbs start in
  final = finish R cbs start /\
  (onComplete cbs = None -> final = (Ret tt, State [] true)) /\
  (forall hc, onComplete cbs = Some hc -> hc [] = None ->
     final = (Ret tt, State [OnComplete] true)).
Proof.
  intros Hs Hclosed Hbytes. cbv zeta.
  assert (compileWithStreaming R source opts cbs start = finish R cbs start)
    as Hrun.
  { rewrite (streamed_run R source opts cbs body Hs), Hclosed.
    unfold decoded. now rewrite Hbytes. }
  split; [exact Hrun|]. rewrite Hrun.
  unfold finish, try_catch, callComplete. cbn [start completeCalled trace].
  split.
  - now intros ->.
  - intros hc -> Hquiet. now rewrite Hquiet.
Qed.

End Endings.

(** ** After the end envelope *)

Section AfterEnd.

Context (R : Runtime).
Variable source : jstring.
Variable opts : options (number R).
Variable cbs : callbacks (number R).

Local Abbreviation state := (state (number R)).

(** X5.  An end envelope does not end the reading.  The first one invokes
    [onComplete]; the frames after it are still dispatched to their
    callbacks, after [onComplete]; a further end envelope and the trigger
    after the loop invoke nothing; and a read that fails later still gets
    [onError] invoked, after [onComplete]. *)
Theorem events_after_end_are_delivered (body : stream)
    (before after : list jstring) (end_payload fragment : jstring)
    (hc : list (call (number R)) -> option (thrown (number R))) :
  streams R source opts body ->
  decoded R body = frames (before ++ end_payload :: after) ++ fragment ->
  Forall no_LF (before ++ end_payload :: after) -> no_LF fragment ->
  Forall (fun p => is_end R p = false) before ->
  is_end R end_payload = true ->
  onComplete cbs = Some hc ->
  let s1 := snd (dispatch_all R cbs before start) in
  exists diagnostics,
    forallb (is_diagnostic R) diagnostics = true /\
    let s2 := State (trace s1 ++ OnComplete :: diagnostics) true in
    let s3 := snd (dispatch_all R cbs after s2) in
    completions (trace s1) = 0 /\
    completions (trace s3) = 1 /\
    compileWithStreaming R source opts cbs start =
      match ending body with
      | Closed => (Ret tt, s3)
      | Errored message => on_failure R cbs (JsError message) s3
      end.
Proof.
  intros Hs Htext Hp Hf Hnot Hend Hhc. cbv zeta.
  set (s1 := snd (dispatch_all R cbs before start)).
  assert (completeCalled s1 = false) as Hopen
    by (unfold s1; now rewrite dispatch_all_keeps_latch).
  assert (completions (trace s1) = 0) as Hzero.
  { assert (latch_inv R cbs false s1) as [Hinv _].
    { unfold s1. rewrite <- deliver_frame_lines.
      apply deliver_latch, latch_inv_start. }
    now rewrite Hopen in Hinv. }
  destruct (process_data_end R cbs end_payload s1 hc Hend Hhc Hopen)
    as (diagnostics & Hlast & Hdiag).
  exists diagnostics. split; [exact Hdiag|].
  set (s2 := State (trace s1 ++ OnComplete :: diagnostics) true).
  assert (completions (trace s2) = supplied R cbs) as Hone.
  { unfold supplied. rewrite Hhc. unfold s2. cbn [trace].
    unfold completions in *. rewrite filter_app, length_app, Hzero.
    cbn [filter is_completion List.length]. f_equal.
    clear - Hdiag. induction diagnostics as [|[] ds IH]; try discriminate;
      [reflexivity|]. cbn [filter is_completion]. now apply IH. }
  destruct (dispatch_all_after_end R cbs after s2 eq_refl Hone)
    as [Hset Hcount].
  split; [exact Hzero|]. split.
  - rewrite Hcount. unfold supplied. now rewrite Hhc.
  - rewrite (streamed_lines R source opts cbs body
               (frame_lines (before ++ end_payload :: after)) fragment);
      trivial.
    + rewrite deliver_frame_lines, dispatch_all_app. fold s1.
      cbn [dispatch_all]. unfold bind. rewrite Hlast. cbn [snd]. fold s2.
      destruct (ending body); cbn [conclude]; [|reflexivity].
      now apply finish_done.
    + now rewrite Htext, frames_lines_text.
    + now apply frame_lines_no_LF.
Qed.

End AfterEnd.

(** ** The two clients, and the line buffer *)

Section Agreement.

Context (R : Runtime).
Variable source : jstring.
Variable opts : options (number R).
Variable cbs : callbacks (number R).

(** X6.  The two clients read a failure status alike.  When the compile
    endpoint and the synchronous endpoint answer with the same failure
    status and the same body as JSON, the error [compileSync] throws is the
    error [compileWithStreaming] hands to its outer [catch]: [onError]
    gets the message that a caller of [compileSync] finds in the
    exception. *)
Theorem clients_agree_on_failure_status (streamed synced : response (number R)) :
  fetch R (compile_request R source opts) = Resolved streamed ->
  fetch R (sync_request R source opts) = Resolved synced ->
  ok streamed = false -> ok synced = false ->
  status streamed = status synced ->
  json streamed = json synced ->
  exists message,
    compileSync R source opts = Throw (JsError message) /\
    compileWithStreaming R source opts cbs start =
      on_failure R cbs (JsError message) start.
Proof.
  intros Hstream Hsync Hok1 Hok2 Hstatus Hjson.
  destruct (server_error_has_message R synced) as [message Hm].
  exists message. split.
  - unfold compileSync. now rewrite Hsync, Hok2, <- Hm.
  - unfold compileWithStreaming, try_catch. rewrite Hstream, Hok1.
    cbn [negb]. unfold throw. f_equal. rewrite <- Hm.
    unfold server_error. now rewrite Hstatus, Hjson.
Qed.

End Agreement.

(** X7.  The line buffer loses nothing and repeats nothing.  One pass of
    the read loop cuts the buffer and the new text into complete lines and
    a rest without a line feed, which together are that text again; and
    text that arrives in two reads gives the lines and the rest it gives
    when it arrives in one. *)
Theorem line_buffer_keeps_the_text (buffer text more : jstring) :
  let lines := fst (pop (split LF (buffer ++ text))) in
  let rest := snd (pop (split LF (buffer ++ text))) in
  lines_text lines ++ rest = buffer ++ text /\
  Forall no_LF lines /\ no_LF rest /\
  pop (split LF (buffer ++ text ++ more)) =
    (lines ++ fst (pop (split LF (rest ++ more))),
     snd (pop (split LF (rest ++ more)))).
Proof.
  cbv zeta. pose proof (pop_split_spec (buffer ++ text)) as H.
  destruct (pop (split LF (buffer ++ text))) as [lines rest] eqn:E.
  cbn [fst snd]. destruct H as (H1 & H2 & H3).
  split; [now symmetry|]. split; [exact H2|]. split; [exact H3|].
  rewrite (app_assoc buffer text more), pop_split_app. now rewrite E.
Qed.

(** ** Lines that are not data lines *)

Section OtherLines.

Context (R : Runtime).
Variable source : jstring.
Variable opts : options (number R).
Variable cbs : callbacks (number R).

Lemma deliver_other_lines (lines : list jstring) (s : state (number R)) :
  Forall (fun line => startsWith (js "data: ") line = false) lines ->
  deliver R cbs lines s = s.
Proof.
  intros H. revert s. induction H as [|line lines Hline _ IH]; intros s.
  - apply deliver_nil.
  - rewrite deliver_cons. unfold process_line. rewrite Hline. apply IH.
Qed.

(** X17.  Lines that do not begin with [data: ], the space included --
    empty lines, comments and other fields of an event stream, a [data:]
    without the space -- are passed over without a callback and without a
    diagnostic: the invocation is the one of the stream without them. *)
Theorem other_lines_are_ignored (body : stream)
    (before others after : list jstring) (fragment : jstring) :
  streams R source opts body ->
  decoded R body = lines_text (before ++ others ++ after) ++ fragment ->
  Forall no_LF (before ++ others ++ after) -> no_LF fragment ->
  Forall (fun line => startsWith (js "data: ") line = false) others ->
  compileWithStreaming R source opts cbs start =
  conclude R cbs (ending body) (deliver R cbs (before ++ after) start).
Proof.
  intros Hs Htext Hl Hf Hothers.
  rewrite (streamed_lines R source opts cbs body _ fragment Hs Htext Hl Hf).
  rewrite (deliver_app R cbs before (others ++ after)).
  rewrite (deliver_app R cbs others after).
  rewrite (deliver_other_lines others _ Hothers).
  now rewrite deliver_app.
Qed.

End OtherLines.

(** * The application *)

(** ** Storage *)

Lemma getItem_setItem (key text : jstring) (items : Storage) :
  getItem key (setItem key text items) = Some text.
Proof.
  induction items as [|[k v] rest IH]; simpl.
  - now rewrite jstring_eqb_refl.
  - destruct (jstring_eqb k key) eqn:E; simpl; now rewrite E.
Qed.

Lemma getItem_setItem_other (key other text : jstring) (items : Storage) :
  other <> key ->
  getItem other (setItem key text items) = getItem other items.
Proof.
  intros Hne. induction items as [|[k v] rest IH]; simpl.
  - now rewrite jstring_eqb_neq by congruence.
  - destruct (jstring_eqb k key) eqn:E; simpl.
    + apply jstring_eqb_eq in E. subst k.
      now rewrite jstring_eqb_neq by congruence.
    + now rewrite IH.
Qed.

Lemma getItem_removeItem (key : jstring) (items : Storage) :
  getItem key (removeItem key items) = None.
Proof.
  induction items as [|[k v] rest IH]; simpl; [reflexivity|].
  destruct (jstring_eqb k key) eqn:E; simpl; [exact IH|now rewrite E].
Qed.

Lemma getItem_removeItem_other (key other : jstring) (items : Storage) :
  other <> key ->
  getItem other (removeItem key items) = getItem other items.
Proof.
  intros Hne. induction items as [|[k v] rest IH]; simpl; [reflexivity|].
  destruct (jstring_eqb k key) eqn:E; simpl.
  - apply jstring_eqb_eq in E. subst k.
    now rewrite jstring_eqb_neq by congruence.
  - now rewrite IH.
Qed.

(** ** Trimming *)

Lemma trimStart_blank (s : jstring) :
  trimStart s = [] <-> forallb is_white_space s = true.
Proof.
  induction s as [|c s IH]; simpl; [tauto|].
  destruct (is_white_space c); simpl; [exact IH|].
  split; discriminate.
Qed.

Lemma trimStart_suffix (s : jstring) :
  exists blank, s = blank ++ trimStart s /\ forallb is_white_space blank = true.
Proof.
  induction s as [|c s (blank & IH1 & IH2)]; simpl.
  - now exists [].
  - destruct (is_white_space c) eqn:E.
    + exists (c :: blank). simpl. rewrite E, IH2. split; [now f_equal|trivial].
    + now exists [].
Qed.

(** A string trims to nothing exactly when all of it is white space. *)
Lemma trim_blank (s : jstring) :
  trim s = [] <-> forallb is_white_space s = true.
Proof.
  unfold trim, trimEnd. split.
  - intros H. apply (f_equal (@rev codeunit)) in H.
    rewrite rev_involutive in H. simpl in H.
    apply trimStart_blank in H. rewrite forallb_forall in H.
    destruct (trimStart_suffix s) as (blank & Hs & Hblank).
    rewrite Hs, forallb_app, Hblank. simpl.
    apply forallb_forall. intros c Hc. apply H. now apply -> in_rev.
  - intros H. apply trimStart_blank in H. now rewrite H.
Qed.

Lemma trimStart_head (s : jstring) (c : codeunit) (rest : jstring) :
  trimStart s = c :: rest -> is_white_space c = false.
Proof.
  induction s as [|d s IH]; simpl; [discriminate|].
  destruct (is_white_space d) eqn:E; [exact IH|].
  intros H. injection H as <- _. exact E.
Qed.

(** [trim] takes white space off both ends and nothing else. *)
Lemma trim_spec (s : jstring) :
  exists leading trailing,
    s = leading ++ trim s ++ trailing /\
    forallb is_white_space leading = true /\
    forallb is_white_space trailing = true /\
    (forall c rest, trim s = c :: rest -> is_white_space c = false) /\
    (forall front c, trim s = front ++ [c] -> is_white_space c = false).
Proof.
  destruct (trimStart_suffix s) as (leading & Hs & Hleading).
  destruct (trimStart_suffix (rev (trimStart s))) as (blank & Hr & Hblank).
  assert (trimStart s = trim s ++ rev blank) as Hend.
  { unfold trim, trimEnd. rewrite <- rev_app_distr, <- Hr.
    now rewrite rev_involutive. }
  exists leading, (rev blank). repeat split.
  - now rewrite <- Hend.
  - exact Hleading.
  - rewrite forallb_forall in *. intros c Hc. apply Hblank.
    now apply in_rev.
  - intros c rest Htrim. rewrite Htrim in Hend.
    now apply (trimStart_head s c (rest ++ rev blank)).
  - intros front c Htrim. unfold trim, trimEnd in Htrim.
    apply (f_equal (@rev codeunit)) in Htrim.
    rewrite rev_involutive, rev_app_distr in Htrim.
    now apply (trimStart_head _ _ _ Htrim).
Qed.

(** ** Downloads *)

Lemma replace_others_safe (s : jstring) :
  forallb is_safe (replace_others s) = true.
Proof.
  induction s as [|c s IH]; [reflexivity|]. simpl. rewrite IH.
  unfold is_safe. destruct (is_alphanumeric c) eqn:E; [now rewrite E|].
  reflexivity.
Qed.

Lemma or_string_not_empty (s fallback : jstring) :
  fallback <> [] -> or_string s fallback <> [].
Proof. intros H. destruct s; [exact H|discriminate]. Qed.

(** X9.  A download happens only when there is something to download, and
    then once, with the text unchanged and under a name made of ASCII
    letters, digits and underscores before the extension: the trimmed
    blueprint name with every other code unit replaced by an underscore (as
    many code units as the trimmed name has), or [facto_blueprint] and
    [facto_output] when the name is blank.  With an empty text, or without a
    JSON text area, the page only shows an error toast. *)
Theorem downloads_have_safe_names (text name : jstring) :
  text <> [] ->
  exists blueprint_base json_base,
    downloadBlueprint text name =
      [Download (blueprint_base ++ js ".txt") (js "text/plain") text;
       Toast (js "Blueprint saved as " ++ blueprint_base ++ js ".txt")
             (js "success")] /\
    downloadJson (Some text) name =
      [Download (json_base ++ js ".json") (js "application/json") text;
       Toast (js "JSON saved as " ++ json_base ++ js ".json") (js "success")] /\
    forallb is_safe blueprint_base = true /\
    forallb is_safe json_base = true /\
    (forallb is_white_space name = true ->
       blueprint_base = js "facto_blueprint" /\ json_base = js "facto_output") /\
    (forallb is_white_space name = false ->
       blueprint_base = json_base /\
       blueprint_base = replace_others (trim name) /\
       List.length blueprint_base = List.length (trim name) /\
       blueprint_base <> []) /\
    downloadBlueprint [] name =
      [Toast (js "No blueprint to download") (js "error")] /\
    downloadJson (Some []) name = downloadJson None name /\
    downloadJson None name = [Toast (js "No JSON to download") (js "error")].
Proof.
  intros Htext.
  exists (replace_others (or_string (trim name) (js "facto-blueprint"))),
         (replace_others (or_string (trim name) (js "facto-output"))).
  split; [destruct text; [congruence|reflexivity]|].
  split; [destruct text; [congruence|reflexivity]|].
  split; [apply replace_others_safe|]. split; [apply replace_others_safe|].
  split; [|split; [|repeat split]].
  - intros H. apply trim_blank in H. rewrite H. split; reflexivity.
  - intros H. destruct (trim name) as [|c s] eqn:E.
    + apply trim_blank in E. congruence.
    + cbn [or_string]. repeat split; [|discriminate].
      unfold replace_others. apply length_map.
Qed.

(** ** The content of the editor *)

(** X10.  What the editor holds survives a reload.  Content with a
    character that is not white space is stored as it is, untrimmed, and
    [init] hands it back to the editor, selecting the first example that is
    equal to it, if any; blank content removes the stored item, so that
    [init] loads the default example, as it does in a fresh browser.  No
    other key of the storage changes. *)
Theorem editor_content_survives_reload (content : jstring) (items : Storage)
    (examples : list (jstring * jstring)) :
  let saved := saveEditorContent content items in
  (forallb is_white_space content = false ->
     loadEditorContent saved = Some content /\
     initial_content examples saved =
       (Some content, matching_example examples content)) /\
  (forallb is_white_space content = true ->
     loadEditorContent saved = None /\
     initial_content examples saved = initial_content examples []) /\
  (forall key, key <> STORAGE_KEYS.editorContent ->
     getItem key saved = getItem key items).
Proof.
  cbv zeta. unfold saveEditorContent, loadEditorContent, initial_content.
  repeat split.
  - destruct (trim content) eqn:E; [apply trim_blank in E; congruence|].
    apply getItem_setItem.
  - destruct (trim content) eqn:E; [apply trim_blank in E; congruence|].
    unfold loadEditorContent. rewrite getItem_setItem.
    destruct content; [discriminate|reflexivity].
  - apply trim_blank in H. rewrite H. apply getItem_removeItem.
  - apply trim_blank in H. rewrite H. unfold loadEditorContent.
    now rewrite getItem_removeItem.
  - intros key Hkey. destruct (trim content).
    + now apply getItem_removeItem_other.
    + now apply getItem_setItem_other.
Qed.

(** ** The theme *)

Section Theme.

Import ThemeManager.

Lemma contains_add (token other : jstring) (classes : DOMTokenList.t) :
  DOMTokenList.contains other (DOMTokenList.add token classes) =
  jstring_eqb other token || DOMTokenList.contains other classes.
Proof.
  unfold DOMTokenList.add, DOMTokenList.contains.
  destruct (existsb (jstring_eqb token) classes) eqn:E.
  - destruct (jstring_eqb other token) eqn:Eo; [|reflexivity].
    apply jstring_eqb_eq in Eo. subst other. now rewrite E.
  - rewrite existsb_app. simpl. rewrite orb_false_r. apply orb_comm.
Qed.

Lemma contains_remove (token other : jstring) (classes : DOMTokenList.t) :
  DOMTokenList.contains other (DOMTokenList.remove token classes) =
  negb (jstring_eqb other token) && DOMTokenList.contains other classes.
Proof.
  unfold DOMTokenList.remove, DOMTokenList.contains.
  induction classes as [|c classes IH]; simpl.
  - now rewrite andb_false_r.
  - destruct (jstring_eqb token c) eqn:E; simpl.
    + apply jstring_eqb_eq in E. subst c. rewrite IH.
      destruct (jstring_eqb other token) eqn:Eo; simpl; [reflexivity|].
      reflexivity.
    + rewrite IH. destruct (jstring_eqb other token) eqn:Eo; simpl;
        [|reflexivity].
      apply jstring_eqb_eq in Eo. subst other. now rewrite E.
Qed.

(** After [toggle(token, force)] the list has the token exactly when
    [force] is set, and the other tokens as before. *)
Lemma contains_toggle (token other : jstring) (force : bool)
    (classes : DOMTokenList.t) :
  DOMTokenList.contains other (DOMTokenList.toggle token force classes) =
  if jstring_eqb other token then force
  else DOMTokenList.contains other classes.
Proof.
  unfold DOMTokenList.toggle. destruct force.
  - rewrite contains_add. now destruct (jstring_eqb other token).
  - rewrite contains_remove. now destruct (jstring_eqb other token).
Qed.

Lemma getTheme_setTheme (theme : jstring) (save : bool) (p : page) :
  theme <> [] -> getTheme (setTheme theme save p) = theme.
Proof.
  intros H. unfold setTheme, getTheme. destruct save; cbn [data_theme];
    unfold updateCodeMirrorTheme, updateToggleIcon; cbn [data_theme];
    (destruct theme; [congruence|reflexivity]).
Qed.

Lemma localStorage_setTheme (theme : jstring) (save : bool) (p : page) :
  localStorage (setTheme theme save p) =
  if save then setItem STORAGE_KEY theme (localStorage p) else localStorage p.
Proof. unfold setTheme. now destruct save. Qed.

Lemma getTheme_toggle (p : page) :
  getTheme (toggle p) =
  if jstring_eqb (getTheme p) (js "dark") then js "light" else js "dark".
Proof.
  unfold toggle. rewrite getTheme_setTheme; [reflexivity|].
  now destruct (jstring_eqb (getTheme p) (js "dark")).
Qed.

(** X11.  Toggling alternates between the two themes and saves the
    choice.  Whatever the theme attribute was, after a toggle the theme is
    light or dark (light exactly when it was dark); from then on two toggles
    bring the same theme back; each toggle stores the new theme under the
    key of the theme and changes no other item of the storage. *)
Theorem theme_toggle_alternates (p : page) :
  (getTheme (toggle p) = js "light" /\ getTheme p = js "dark" \/
   getTheme (toggle p) = js "dark" /\ getTheme p <> js "dark") /\
  getTheme (toggle (toggle (toggle p))) = getTheme (toggle p) /\
  (getTheme p = js "dark" \/ getTheme p = js "light" ->
   getTheme (toggle (toggle p)) = getTheme p) /\
  getItem STORAGE_KEY (localStorage (toggle p)) = Some (getTheme (toggle p)) /\
  (forall key, key <> STORAGE_KEY ->
     getItem key (localStorage (toggle p)) = getItem key (localStorage p)).
Proof.
  rewrite !getTheme_toggle.
  split; [|split; [|split; [|split]]].
  - destruct (jstring_eqb (getTheme p) (js "dark")) eqn:E.
    + left. apply jstring_eqb_eq in E. now split.
    + right. split; [reflexivity|]. intros H. rewrite H in E. discriminate.
  - now destruct (jstring_eqb (getTheme p) (js "dark")).
  - intros [H|H]; now rewrite H.
  - unfold toggle. rewrite localStorage_setTheme, getItem_setItem.
    reflexivity.
  - intros key Hkey. unfold toggle. rewrite localStorage_setTheme.
    now apply getItem_setItem_other.
Qed.

(** X12.  A theme chosen by toggling survives a reload: on a page that
    starts with the storage the toggle left, [init] sets that theme,
    whatever the system prefers, and later changes of the system preference
    do not change it. *)
Theorem theme_survives_reload (p reloaded : page) (systemPrefersDark : bool) :
  localStorage reloaded = localStorage (toggle p) ->
  getTheme (init systemPrefersDark reloaded) = getTheme (toggle p) /\
  forall matches,
    preference_changed matches (init systemPrefersDark reloaded) =
    init systemPrefersDark reloaded.
Proof.
  intros Hstore.
  assert (getItem STORAGE_KEY (localStorage reloaded) =
          Some (getTheme (toggle p))) as Hsaved.
  { rewrite Hstore. unfold toggle.
    rewrite localStorage_setTheme, getItem_setItem.
    now rewrite <- getTheme_toggle at 1. }
  assert (getTheme (toggle p) <> []) as Hne.
  { rewrite getTheme_toggle.
    now destruct (jstring_eqb (getTheme p) (js "dark")). }
  split.
  - unfold init. rewrite Hsaved.
    destruct (getTheme (toggle p)) as [|c s]; [congruence|].
    now apply getTheme_setTheme.
  - intros matches. unfold preference_changed.
    unfold init at 1. rewrite localStorage_setTheme, Hsaved.
    now destruct (getTheme (toggle p)).
Qed.

(** X13.  Until a theme is chosen the page follows the system: with no
    theme in the storage [init] sets the theme the system prefers and
    stores nothing, so that each later change of the preference changes the
    theme with it. *)
Theorem theme_follows_the_system (p : page) (systemPrefersDark : bool) :
  getItem STORAGE_KEY (localStorage p) = None ->
  let p1 := init systemPrefersDark p in
  getTheme p1 = preferred systemPrefersDark /\
  localStorage p1 = localStorage p /\
  forall matches,
    getTheme (preference_changed matches p1) = preferred matches /\
    localStorage (preference_changed matches p1) = localStorage p.
Proof.
  intros Hnone. cbv zeta. unfold init. rewrite Hnone.
  split; [|split].
  - apply getTheme_setTheme. now destruct systemPrefersDark.
  - apply localStorage_setTheme.
  - intros matches. unfold preference_changed.
    rewrite localStorage_setTheme, Hnone. split.
    + apply getTheme_setTheme. now destruct matches.
    + now rewrite !localStorage_setTheme.
Qed.

End Theme.

(** ** What the page shows of the theme and of the connection *)

Section Shown.

Import ThemeManager.

(** X14.  The page shows the theme that is set.  After [setTheme] the dark
    icon is hidden exactly when the theme is light and the light icon
    exactly when it is dark, and the editor carries [cm-s-facto] exactly for
    dark and [cm-s-facto-light] exactly for light; the other classes of the
    three elements stay as they were.  For the two themes of the page this
    leaves one icon hidden and one of the two editor classes set. *)
Theorem theme_is_shown (theme : jstring) (save : bool) (p : page)
    (dark light wrapper : DOMTokenList.t) :
  theme_icon_dark p = Some dark ->
  theme_icon_light p = Some light ->
  CodeMirror p = Some wrapper ->
  exists dark' light' wrapper',
    theme_icon_dark (setTheme theme save p) = Some dark' /\
    theme_icon_light (setTheme theme save p) = Some light' /\
    CodeMirror (setTheme theme save p) = Some wrapper' /\
    DOMTokenList.contains (js "hidden") dark' = jstring_eqb theme (js "light") /\
    DOMTokenList.contains (js "hidden") light' = jstring_eqb theme (js "dark") /\
    DOMTokenList.contains (js "cm-s-facto") wrapper' =
      jstring_eqb theme (js "dark") /\
    DOMTokenList.contains (js "cm-s-facto-light") wrapper' =
      jstring_eqb theme (js "light") /\
    (forall token, token <> js "hidden" ->
       DOMTokenList.contains token dark' = DOMTokenList.contains token dark /\
       DOMTokenList.contains token light' = DOMTokenList.contains token light) /\
    (forall token, token <> js "cm-s-facto" -> token <> js "cm-s-facto-light" ->
       DOMTokenList.contains token wrapper' =
       DOMTokenList.contains token wrapper) /\
    (theme = js "dark" \/ theme = js "light" ->
       DOMTokenList.contains (js "hidden") dark' =
         negb (DOMTokenList.contains (js "hidden") light') /\
       DOMTokenList.contains (js "cm-s-facto") wrapper' =
         negb (DOMTokenList.contains (js "cm-s-facto-light") wrapper')).
Proof.
  intros Hd Hl Hw.
  exists (DOMTokenList.toggle (js "hidden") (jstring_eqb theme (js "light")) dark),
         (DOMTokenList.toggle (js "hidden") (jstring_eqb theme (js "dark")) light),
         (DOMTokenList.toggle (js "cm-s-facto") (jstring_eqb theme (js "dark"))
            (DOMTokenList.toggle (js "cm-s-facto-light")
               (jstring_eqb theme (js "light")) wrapper)).
  assert (forall a b : jstring, a <> b -> jstring_eqb a b = false) as Hneq
    by apply jstring_eqb_neq.
  split; [unfold setTheme; destruct save; cbn; now rewrite Hd|].
  split; [unfold setTheme; destruct save; cbn; now rewrite Hl|].
  split; [unfold setTheme; destruct save; cbn; now rewrite Hw|].
  rewrite !contains_toggle.
  change (jstring_eqb (js "hidden") (js "hidden")) with true.
  change (jstring_eqb (js "cm-s-facto") (js "cm-s-facto")) with true.
  change (jstring_eqb (js "cm-s-facto-light") (js "cm-s-facto")) with false.
  change (jstring_eqb (js "cm-s-facto-light") (js "cm-s-facto-light")) with true.
  cbv iota.
  split; [reflexivity|]. split; [reflexivity|]. split; [reflexivity|].
  split; [reflexivity|]. split; [|split].
  - intros token Htoken. rewrite !contains_toggle.
    now rewrite (Hneq _ _ Htoken).
  - intros token H1 H2. rewrite !contains_toggle.
    now rewrite (Hneq _ _ H1), (Hneq _ _ H2).
  - intros [->| ->]; split; reflexivity.
Qed.

(** X21.  The editor starts in the theme of the page.  The editor is made
    after the theme manager has started, with the class of the dark theme;
    when [init] is through, its wrapper carries [cm-s-facto] exactly if the
    theme is dark and [cm-s-facto-light] exactly if it is light, the theme
    being the saved one, if any, and that of the system otherwise; the
    other classes CodeMirror gave the wrapper are kept. *)
Theorem editor_starts_in_the_theme (systemPrefersDark : bool)
    (wrapper : DOMTokenList.t) (p : page) :
  let started := init_theme systemPrefersDark wrapper p in
  getTheme started =
    match getItem STORAGE_KEY (localStorage p) with
    | Some (c :: saved) => c :: saved
    | _ => preferred systemPrefersDark
    end /\
  exists wrapper',
    CodeMirror started = Some wrapper' /\
    DOMTokenList.contains (js "cm-s-facto") wrapper' =
      jstring_eqb (getTheme started) (js "dark") /\
    DOMTokenList.contains (js "cm-s-facto-light") wrapper' =
      jstring_eqb (getTheme started) (js "light") /\
    (forall token, token <> js "cm-s-facto" -> token <> js "cm-s-facto-light" ->
       DOMTokenList.contains token wrapper' =
       DOMTokenList.contains token wrapper).
Proof.
  cbv zeta. unfold init_theme.
  set (theme := match getItem STORAGE_KEY (localStorage p) with
                | Some (c :: saved) => c :: saved
                | _ => preferred systemPrefersDark
                end).
  assert (theme <> []) as Hne.
  { unfold theme. destruct (getItem STORAGE_KEY (localStorage p)) as [[|c s]|];
      try discriminate; now destruct systemPrefersDark. }
  set (p1 := init systemPrefersDark _).
  assert (getTheme p1 = theme) as Hp1.
  { unfold p1, init. cbn [localStorage]. fold theme.
    now apply getTheme_setTheme. }
  set (p2 := Page (data_theme p1) _ _ _ _).
  assert (getTheme p2 = theme) as Hp2 by exact Hp1.
  rewrite Hp2.
  assert (getTheme (updateCodeMirrorTheme theme p2) = theme) as Hp3
    by exact Hp1.
  rewrite !Hp3. split; [reflexivity|].
  exists (DOMTokenList.toggle (js "cm-s-facto") (jstring_eqb theme (js "dark"))
            (DOMTokenList.toggle (js "cm-s-facto-light")
               (jstring_eqb theme (js "light"))
               (DOMTokenList.add (js "cm-s-facto") wrapper))).
  split; [reflexivity|].
  rewrite !contains_toggle.
  change (jstring_eqb (js "cm-s-facto") (js "cm-s-facto")) with true.
  change (jstring_eqb (js "cm-s-facto-light") (js "cm-s-facto")) with false.
  change (jstring_eqb (js "cm-s-facto-light") (js "cm-s-facto-light")) with true.
  cbv iota. split; [reflexivity|]. split; [reflexivity|].
  intros token H1 H2. rewrite !contains_toggle, contains_add.
  now rewrite (jstring_eqb_neq _ _ H1), (jstring_eqb_neq _ _ H2).
Qed.

End Shown.

Section Health.

Context (R : Runtime).


End Health.

Lemma checkBackendHealth_called (R : Runtime)
    (showNotification recordSession : bool) (c : connection) :
  called (snd (checkBackendHealth R showNotification recordSession c)) =
  called c ++ js "checkHealth"
    :: (if healthy R && recordSession then [js "connect"] else []).
Proof.
  unfold checkBackendHealth, healthy, checkHealth, connect, try_or.
  destruct c as [[dot|] [title|] connected shown names];
    destruct (fetch R (health_request R)) as [m|r]; [|destruct (ok r)| |
      destruct (ok r)| |destruct (ok r)| |destruct (ok r)];
    destruct (fetch R (connect_request R)) as [m'|r']; destruct recordSession;
    destruct showNotification; cbn; rewrite <- ?app_assoc; reflexivity.
Qed.

(** X18.  The session is recorded at most once in the life of a page, by
    the first health check and only if that check is healthy: whatever the
    later checks find, they call [checkHealth] and nothing else.  A backend
    that is down when the page loads is therefore never told of the
    session, also when it is up again later. *)
Theorem session_is_recorded_by_the_first_check (first : Runtime)
    (later : list (Runtime * bool)) (c : connection) :
  called (health_checks first later c) =
  called c
    ++ js "checkHealth" :: (if healthy first then [js "connect"] else [])
    ++ repeat (js "checkHealth") (List.length later).
Proof.
  unfold health_checks.
  induction later as [|[R show] later IH] using rev_ind.
  - cbn [fold_left List.length repeat]. rewrite checkBackendHealth_called.
    rewrite andb_true_r, app_nil_r. reflexivity.
  - rewrite fold_left_app. cbn [fold_left fst snd].
    rewrite checkBackendHealth_called, IH, andb_false_r.
    rewrite length_app, Nat.add_comm. cbn [List.length Nat.add repeat].
    rewrite repeat_cons, <- app_assoc. cbn [app].
    now rewrite <- app_assoc.
Qed.

(** ** Debouncing *)

Section Debouncing.

Import Timers.

Variable A : Type.
Variable delay : N.

Lemma scan_duration (history : list (happening A)) :
  fst (scan history (0%N, None)) = duration history.
Proof.
  unfold duration, scan.
  induction history as [|h history IH] using rev_ind; [reflexivity|].
  rewrite !fold_left_app. cbn [fold_left]. rewrite <- IH.
  now destruct h.
Qed.

Lemma last_call_snoc (history : list (happening A)) (h : happening A) :
  last_call (history ++ [h]) =
  match h with
  | Call args => Some (duration history, args)
  | _ => last_call history
  end.
Proof.
  unfold last_call. rewrite <- scan_duration. unfold scan.
  rewrite fold_left_app. cbn [fold_left]. now destruct h.
Qed.

Lemma duration_snoc (history : list (happening A)) (h : happening A) :
  duration (history ++ [h]) =
  match h with
  | Elapse ms => (duration history + ms)%N
  | _ => duration history
  end.
Proof. unfold duration. rewrite fold_left_app. now destruct h. Qed.

Lemma calls_snoc (history : list (happening A)) (h : happening A) :
  calls (history ++ [h]) =
  match h with
  | Call _ => S (calls history)
  | _ => calls history
  end.
Proof.
  unfold calls. rewrite filter_app, length_app.
  destruct h; cbn [filter List.length]; lia.
Qed.

Lemma timeout_bounds :
  ((delay < 2 ^ 31)%N -> timeout delay = delay) /\
  (timeout delay <= delay)%N.
Proof.
  unfold timeout. cbv zeta.
  assert (2 ^ 31 = 2147483648)%N as -> by reflexivity.
  assert (2 ^ 32 = 4294967296)%N as -> by reflexivity.
  pose proof (N.Div0.mod_le delay 4294967296) as Hle.
  split.
  - intros H. rewrite N.mod_small by lia.
    destruct (N.ltb_spec delay 2147483648); [reflexivity|lia].
  - destruct (N.ltb_spec (delay mod 4294967296) 2147483648); lia.
Qed.

Lemma after_snoc (history : list (happening A)) (h : happening A) :
  after delay (history ++ [h]) = step delay (after delay history) h.
Proof. unfold after. now rewrite fold_left_app. Qed.

Lemma fire_settled (history : list (happening A)) (w : debounced A) (i : N) :
  settled delay history w ->
  fire i w = w \/
  exists called args,
    last_call history = Some (called, args) /\
    (called + timeout delay <= now w)%N /\
    fire i w =
      Debounced (now w) (next w) [] (timeoutId w) (ran w ++ [(now w, args)]).
Proof.
  intros [Hnow [Hnone|(t & called & Hone & Hid & Hlast & Hdue)]];
    unfold fire.
  - rewrite Hnone. now left.
  - rewrite Hone. cbn [find filter].
    destruct (N.eqb (id t) i) eqn:Ei; [|now left].
    destruct (N.leb_spec (due t) (now w)) as [Hle|Hgt]; [|now left].
    right. exists called, (arguments t). cbn [negb].
    repeat split; [exact Hlast|lia].
Qed.

Lemma after_settled (history : list (happening A)) :
  settled delay history (after delay history).
Proof.
  induction history as [|h history IH] using rev_ind.
  - split; [reflexivity|now left].
  - rewrite after_snoc. destruct IH as [Hnow Htimers].
    unfold settled. rewrite duration_snoc, last_call_snoc.
    destruct h as [args|ms|i]; cbn [step].
    + split; [exact Hnow|right].
      exists (Timer (next (after delay history))
                    (now (after delay history) + timeout delay) args),
             (duration history).
      unfold debounce. cbn [timers timeoutId id due arguments].
      repeat split; [|now rewrite Hnow].
      destruct Htimers as [Hnone|(t & called & Hone & Hid & _)].
      * rewrite Hnone. now destruct (timeoutId (after delay history)).
      * rewrite Hone, Hid. cbn [clearTimeout filter].
        now rewrite N.eqb_refl.
    + cbn [now timers timeoutId]. split; [now rewrite Hnow|exact Htimers].
    + destruct (fire_settled history (after delay history) i
                  (conj Hnow Htimers)) as [Hsame|(c & a & _ & _ & Hran)].
      * rewrite Hsame. now split.
      * rewrite Hran. cbn [now timers]. split; [exact Hnow|now left].
Qed.

(** X16.  The function [debounce] returns runs [fn] only for the call most
    recent at the time.  After any history of calls, passing time and
    firing timers, at most one timer is set, the one of the most recent
    call; a timer that fires runs [fn] once, with the arguments of that
    call and not before the delay [setTimeout] works with has passed since
    it, and leaves no timer set; so every run of [fn] has the arguments of
    the call that was most recent when it ran, and there are no more runs
    than calls.  The delay [setTimeout] works with is the delay given to
    [debounce] when that is below 2^31 milliseconds, as the 1000 of the
    application is; from there on the 32-bit conversion makes it smaller,
    down to zero. *)
Theorem debounce_runs_the_last_call (history : list (happening A)) :
  let w := after delay history in
  List.length (timers w) <= 1 /\
  (forall t, In t (timers w) ->
     timeoutId w = Some (id t) /\
     exists called,
       last_call history = Some (called, arguments t) /\
       due t = (called + timeout delay)%N) /\
  (forall i,
     fire i w = w \/
     exists called args,
       last_call history = Some (called, args) /\
       (called + timeout delay <= now w)%N /\
       fire i w =
         Debounced (now w) (next w) [] (timeoutId w)
                   (ran w ++ [(now w, args)])) /\
  (forall when args, In (when, args) (ran w) ->
     exists before later called,
       history = before ++ later /\
       last_call before = Some (called, args) /\
       when = duration before /\ (called + timeout delay <= when)%N) /\
  List.length (ran w) + List.length (timers w) <= calls history /\
  ((delay < 2 ^ 31)%N -> timeout delay = delay) /\
  (timeout delay <= delay)%N.
Proof.
  cbv zeta. pose proof (after_settled history) as [Hnow Htimers].
  split; [|split; [|split; [|split; [|split]]]];
    [| | | | |apply timeout_bounds].
  - destruct Htimers as [->|(t & _ & -> & _)]; simpl; lia.
  - intros t Hin. destruct Htimers as [Hnone|(t' & called & Hone & Hid & Hl & Hd)].
    + rewrite Hnone in Hin. destruct Hin.
    + rewrite Hone in Hin. destruct Hin as [<-|[]]. eauto.
  - intros i. apply fire_settled. now split.
  - clear Hnow Htimers.
    induction history as [|h history IH] using rev_ind; [intros ? ? []|].
    intros when args. rewrite after_snoc.
    assert (In (when, args) (ran (after delay history)) ->
            exists before later called,
              history ++ [h] = before ++ later /\
              last_call before = Some (called, args) /\
              when = duration before /\ (called + timeout delay <= when)%N) as Hold.
    { intros Hin. destruct (IH when args Hin)
        as (before & later & called & -> & Hrest).
      exists before, (later ++ [h]), called. now rewrite app_assoc. }
    destruct h as [args'|ms|i]; cbn [step debounce ran]; trivial.
    pose proof (after_settled history) as Hs.
    destruct (fire_settled history (after delay history) i Hs)
      as [->|(called & a & Hlast & Hle & ->)]; trivial.
    cbn [ran]. intros Hin. apply in_app_or in Hin.
    destruct Hin as [Hin|[Heq|[]]]; [now apply Hold|].
    injection Heq as <- <-. destruct Hs as [Hnow _].
    exists history, [Fire i], called. rewrite <- Hnow. auto.
  - clear Hnow Htimers.
    induction history as [|h history IH] using rev_ind; [simpl; lia|].
    rewrite after_snoc, calls_snoc.
    pose proof (after_settled history) as Hs.
    destruct h as [args'|ms|i]; cbn [step].
    + unfold debounce. cbn [ran timers]. rewrite length_app. cbn [List.length].
      assert (List.length
                (clearTimeout (timeoutId (after delay history))
                   (timers (after delay history))) <=
              List.length (timers (after delay history))) as Hclear.
      { unfold clearTimeout.
        destruct (timeoutId (after delay history)); [apply filter_length_le|lia]. }
      destruct Hs as [_ [Hnone|(t & c & Hone & Hid & _)]].
      * rewrite Hnone in *. cbn [List.length] in *. lia.
      * rewrite Hone, Hid in *. cbn [clearTimeout filter List.length] in *.
        rewrite N.eqb_refl. cbn [negb List.length]. lia.
    + exact IH.
    + destruct Hs as [_ [Hnone|(t & c & Hone & _)]]; unfold fire.
      * rewrite Hnone in *. cbn [find]. now rewrite Hnone.
      * rewrite Hone in *. cbn [find filter].
        destruct (N.eqb (id t) i);
          [destruct (due t <=? now (after delay history))%N|];
          cbn [ran timers negb]; rewrite ?Hone, ?length_app;
          cbn [List.length] in *; lia.
Qed.

End Debouncing.

(** ** What is sent for what the page shows *)

Section Sent.

Context (R : Runtime).

(** X19.  What [handleCompile] sends.  It compiles only when the editor
    holds more than white space, and the body of the request is then made
    of what the page shows: the source is the content of the editor without
    the white space at its two ends; the blueprint name is the trimmed
    name, or [null] when that is empty; the power poles are the value
    chosen, or [null] when it is empty; [no_optimize] is the state of the
    box; [json_output] is [false]; the log level is the value chosen, or
    ["info"] when it is empty. *)
Theorem handleCompile_sends_the_page (page : controls) :
  (forallb is_white_space (editor_value page) = true ->
     compile_arguments page = None) /\
  (forallb is_white_space (editor_value page) = false ->
     exists source opts leading trailing,
       compile_arguments page = Some (source, opts) /\
       editor_value page = leading ++ source ++ trailing /\
       forallb is_white_space leading = true /\
       forallb is_white_space trailing = true /\
       (exists first middle last,
          (source = [first] \/ source = first :: middle ++ [last]) /\
          is_white_space first = false /\ is_white_space last = false) /\
       requestBody R source (as_options (number R) opts) =
       VObject [
         (js "source", VString source);
         (js "power_poles",
          nullable (number R) (or_null (powerPoles_value page)));
         (js "blueprint_name",
          nullable (number R) (or_null (trim (blueprintName_value page))));
         (js "no_optimize", VBool (noOptimize_checked page));
         (js "json_output", VBool false);
         (js "log_level",
          VString (or_string (logLevel_value page) (js "info")))
       ]).
Proof.
  unfold compile_arguments. split; intros Hblank.
  - apply trim_blank in Hblank. now rewrite Hblank.
  - destruct (trim_spec (editor_value page))
      as (leading & trailing & Hs & Hl & Ht & Hfirst & Hlast).
    destruct (trim (editor_value page)) as [|c source] eqn:Hsource.
    { apply trim_blank in Hsource. congruence. }
    exists (c :: source). eexists. exists leading, trailing.
    split; [reflexivity|]. split; [exact Hs|].
    split; [exact Hl|]. split; [exact Ht|]. split.
    + destruct (exists_last (l := c :: source) ltac:(discriminate))
        as (front & last & Hfront).
      rewrite Hfront in Hfirst, Hlast |- *. clear Hfront Hs.
      destruct front as [|first middle].
      * exists last, [], last.
        repeat split; [now left|exact (Hfirst last [] eq_refl)..].
      * exists first, middle, last.
        repeat split; [now right|exact (Hfirst first _ eq_refl)|].
        exact (Hlast (first :: middle) last eq_refl).
    + unfold requestBody, or_else, js_or, as_options, nullable, or_null,
        or_string.
      cbn [powerPoles blueprintName noOptimize logLevel Chosen.powerPoles
           Chosen.blueprintName Chosen.noOptimize Chosen.logLevel].
      destruct (powerPoles_value page), (trim (blueprintName_value page)),
        (noOptimize_checked page), (logLevel_value page); reflexivity.
Qed.

End Sent.

(** ** The key of a compilation *)

Lemma unhex_hex (n : N) : (n < 16)%N -> unhex (hex n) = n.
Proof.
  intros H. unfold hex, unhex.
  destruct (N.ltb_spec n 10).
  - destruct (N.ltb_spec (48 + n) 58); lia.
  - destruct (N.ltb_spec (87 + n) 58); lia.
Qed.

(** The four digits of [\uXXXX] give the code unit back. *)
Lemma unhex_unicode_escape (c : codeunit) :
  (c < 65536)%N ->
  (((unhex (hex (c / 4096)) * 16 + unhex (hex ((c / 256) mod 16))) * 16
    + unhex (hex ((c / 16) mod 16))) * 16 + unhex (hex (c mod 16)))%N = c.
Proof.
  intros H.
  rewrite !unhex_hex;
    try (apply N.mod_lt; lia);
    try (apply N.Div0.div_lt_upper_bound; lia).
  pose proof (N.div_mod c 16 ltac:(lia)).
  pose proof (N.div_mod (c / 16) 16 ltac:(lia)).
  pose proof (N.div_mod (c / 256) 16 ltac:(lia)).
  assert (c / 256 = c / 16 / 16)%N by (rewrite N.Div0.div_div; reflexivity).
  assert (c / 4096 = c / 256 / 16)%N by (rewrite N.Div0.div_div; reflexivity).
  lia.
Qed.

Lemma unquote_escape (c : codeunit) (rest : jstring) :
  unquote (escape c ++ rest) = read c rest.
Proof.
  unfold escape.
  destruct (N.eqb_spec c 8) as [->|H8]; [reflexivity|].
  destruct (N.eqb_spec c 9) as [->|H9]; [reflexivity|].
  destruct (N.eqb_spec c 10) as [->|H10]; [reflexivity|].
  destruct (N.eqb_spec c 12) as [->|H12]; [reflexivity|].
  destruct (N.eqb_spec c 13) as [->|H13]; [reflexivity|].
  destruct (N.eqb_spec c 34) as [->|H34]; [reflexivity|].
  destruct (N.eqb_spec c 92) as [->|H92]; [reflexivity|].
  destruct ((c <? 32)%N || is_leading_surrogate c || is_trailing_surrogate c)
    eqn:Hescape.
  - assert (c < 65536)%N as Hc.
    { unfold is_leading_surrogate, is_trailing_surrogate in Hescape.
      destruct (N.ltb_spec c 32); [lia|].
      destruct (N.leb_spec c 0xDBFF); [lia|].
      destruct (N.leb_spec c 0xDFFF); [lia|].
      rewrite !andb_false_r in Hescape. discriminate. }
    unfold unicode_escape. cbn [app unquote].
    change (92 =? 34)%N with false. change (92 =? 92)%N with true.
    change (117 =? 117)%N with true. cbv iota.
    now rewrite (unhex_unicode_escape c Hc).
  - cbn [app unquote].
    destruct (N.eqb_spec c 34); [contradiction|].
    destruct (N.eqb_spec c 92); [contradiction|]. reflexivity.
Qed.

Lemma unquote_surrogate (c : codeunit) (rest : jstring) :
  is_leading_surrogate c || is_trailing_surrogate c = true ->
  unquote (c :: rest) = read c rest.
Proof.
  intros H. cbn [unquote].
  assert (0xD800 <= c)%N as Hc.
  { unfold is_leading_surrogate, is_trailing_surrogate in H.
    destruct (N.leb_spec 0xD800 c); [assumption|].
    destruct (N.leb_spec 0xDC00 c); [lia|]. discriminate. }
  destruct (N.eqb_spec c 34); [lia|].
  destruct (N.eqb_spec c 92); [lia|]. reflexivity.
Qed.

(** Reading back what [quote_body] writes, up to the closing quote. *)
Lemma unquote_quote_body (s tail : jstring) :
  unquote (quote_body s ++ 34%N :: tail) = Some (s, tail).
Proof.
  remember (List.length s) as n eqn:Hn.
  revert s Hn. induction n as [n IH] using lt_wf_ind. intros s Hn.
  destruct s as [|c [|d rest]].
  - reflexivity.
  - cbn [quote_body]. rewrite unquote_escape. unfold read.
    now cbn [unquote].
  - change (quote_body (c :: d :: rest))
      with (if is_leading_surrogate c && is_trailing_surrogate d
            then c :: d :: quote_body rest
            else escape c ++ quote_body (d :: rest)).
    destruct (is_leading_surrogate c && is_trailing_surrogate d) eqn:Hpair.
    + apply andb_prop in Hpair as [Hc Hd].
      cbn [app]. rewrite unquote_surrogate by (now rewrite Hc).
      unfold read. rewrite unquote_surrogate by (rewrite Hd; apply orb_true_r).
      unfold read.
      rewrite (IH (List.length rest)); [reflexivity| |reflexivity].
      subst n. cbn [List.length]. lia.
    + rewrite <- app_assoc, unquote_escape. unfold read.
      rewrite (IH (List.length (d :: rest))); [reflexivity| |reflexivity].
      subst n. cbn [List.length]. lia.
Qed.

(** A quoted string ends where its closing quote is: two quoted strings
    with whatever follows them are the same text only if the strings and
    what follows are the same. *)
Lemma quote_body_inj (a b tail tail' : jstring) :
  quote_body a ++ 34%N :: tail = quote_body b ++ 34%N :: tail' ->
  a = b /\ tail = tail'.
Proof.
  intros H. apply (f_equal unquote) in H.
  rewrite !unquote_quote_body in H. injection H as -> ->. now split.
Qed.

Lemma QuoteJSONString_inj (a b tail tail' : jstring) :
  QuoteJSONString a ++ tail = QuoteJSONString b ++ tail' ->
  a = b /\ tail = tail'.
Proof.
  unfold QuoteJSONString. cbn [app]. rewrite <- !app_assoc. cbn [app].
  intros H. injection H as H. now apply quote_body_inj.
Qed.

Lemma stringify_nullable_inj (a b : option jstring) (tail tail' : jstring) :
  stringify_nullable a ++ tail = stringify_nullable b ++ tail' ->
  a = b /\ tail = tail'.
Proof.
  destruct a as [a|], b as [b|]; cbn [stringify_nullable]; intros H.
  - apply QuoteJSONString_inj in H as [-> ->]. now split.
  - discriminate.
  - discriminate.
  - apply app_inv_head in H. now split.
Qed.

Lemma stringify_boolean_inj (a b : bool) (tail tail' : jstring) :
  stringify_boolean a ++ tail = stringify_boolean b ++ tail' ->
  a = b /\ tail = tail'.
Proof.
  destruct a, b; cbn [stringify_boolean]; intros H; try discriminate;
    apply app_inv_head in H; now split.
Qed.

(** X20.  The key of a compilation tells the compilation: two calls of
    [getCompilationKey] give the same key only for the same source and the
    same options, whatever characters they hold.  The check of
    [handleCompile] against the key of the last compilation therefore
    succeeds only when source, blueprint name, power poles, log level and
    optimization are all what they were then. *)
Theorem compilation_key_is_injective (source source' : jstring)
    (options options' : Chosen.t) :
  getCompilationKey source options = getCompilationKey source' options' ->
  source = source' /\ options = options'.
Proof.
  unfold getCompilationKey. intros H.
  apply app_inv_head in H.
  apply app_inv_head in H.
  apply app_inv_head in H.
  apply QuoteJSONString_inj in H as [-> H].
  do 3 apply app_inv_head in H.
  apply stringify_nullable_inj in H as [Hpoles H].
  do 3 apply app_inv_head in H.
  apply stringify_nullable_inj in H as [Hname H].
  do 3 apply app_inv_head in H.
  apply stringify_boolean_inj in H as [Hflag H].
  do 3 apply app_inv_head in H.
  apply QuoteJSONString_inj in H as [Hlevel _].
  split; [reflexivity|].
  destruct options, options'. cbn in *. congruence.
Qed.

(** * The client at work *)

Import Example Inputs.

Lemma no_LF_check (s : jstring) :
  forallb (fun c => negb (N.eqb c LF)) s = true -> no_LF s.
Proof.
  intros H Hin. rewrite forallb_forall in H. specialize (H LF Hin).
  now rewrite N.eqb_refl in H.
Qed.

Lemma streaming_streams (body : stream) :
  streams (runtime (streaming body)) program no_options body.
Proof.
  exists (ok_response body). repeat split.
Defined.

Ltac lines_no_LF :=
  repeat (apply Forall_cons; [apply no_LF_check; reflexivity|]);
  apply Forall_nil.

(** The side conditions on a concrete stream. *)
Ltac concrete :=
  first [ apply streaming_streams
        | lines_no_LF
        | apply no_LF_check; reflexivity
        | vm_compute; reflexivity ].

Example scenario_run :
  compileWithStreaming (runtime (streaming scenario)) program no_options quiet
    start =
  (Ret tt,
   State [OnLog (VString (js "parsing")); OnBlueprint (VString (js "0eNG..."));
          OnComplete] true).
Proof. vm_compute. reflexivity. Qed.

(** ** C1 *)

Lemma completion_fires_once_witness :
  let failed := compileWithStreaming (runtime unreachable) program no_options
                  quiet start in
  let streamed := compileWithStreaming (runtime (streaming scenario)) program
                    no_options throwing_onError start in
  never_throws (runtime unreachable) (onError quiet) /\
  fst failed = Ret tt /\
  completions (trace (snd failed)) = 1 /\
  completions (trace (snd failed)) = 1 /\
  completions (trace (snd streamed)) = 1.
Proof.
  cbv zeta.
  assert (never_throws (runtime unreachable) (onError quiet)) as H.
  { intros h Hh tr v. injection Hh as <-. reflexivity. }
  destruct (proj2 (completion_fires_once (runtime unreachable) program
                     no_options quiet) _ eq_refl)
    as (_ & Hreturns & Hquiet & _).
  destruct (proj2 (completion_fires_once (runtime (streaming scenario)) program
                     no_options throwing_onError) _ eq_refl)
    as (_ & _ & _ & Hclosed).
  split; [exact H|]. split; [reflexivity|].
  split; [exact (Hquiet H)|]. split; [exact (Hreturns eq_refl)|].
  exact (Hclosed scenario (streaming_streams scenario) eq_refl).
Defined.

(** Three triggers in one invocation, two end envelopes and a failing
    read: [onComplete] is invoked by the first. *)
Example completion_with_three_triggers :
  compileWithStreaming (runtime (streaming twice_ended)) program no_options
    quiet start =
  (Ret tt,
   State [OnComplete; OnError (VString (js "network error"))] true).
Proof. vm_compute. reflexivity. Qed.

(** The network is down and [onError] throws: the invocation ends with the
    exception of [onError], and [onComplete], though supplied, is never
    invoked. *)
Lemma completion_lost_when_onError_throws :
  onComplete throwing_onError <> None /\
  compileWithStreaming (runtime unreachable) program no_options
    throwing_onError start =
  (Throw boom, State [OnError (VString (js "Failed to fetch"))] false) /\
  completions
    (trace (snd (compileWithStreaming (runtime unreachable) program no_options
                   throwing_onError start))) = 0.
Proof. repeat split. discriminate. Qed.

(** ** C2 *)



(** A [message] that is an empty array is truthy and its string is empty:
    [onError] gets the empty message. *)
Example failure_status_with_empty_message :
  compileWithStreaming
    (runtime (failing 500 (VObject [(js "message", VArray [])]))) program
    no_options quiet start =
  (Ret tt, State [OnError (VString []); OnComplete] true).
Proof. reflexivity. Qed.

(** A body that is the JSON [null]: the message is that of the engine's
    [TypeError], not the fallback with the status. *)
Example failure_status_with_null_body :
  compileWithStreaming (runtime (failing 500 VNull)) program no_options quiet
    start =
  (Ret tt,
   State [OnError (VString (js "Cannot read properties of null (reading 'message')"));
          OnComplete] true).
Proof. reflexivity. Qed.

(** A [message] that is an object with a [toString] of its own cannot be
    converted: [onError] gets the message of the engine's [TypeError]. *)
Example failure_status_with_unconvertible_message :
  compileWithStreaming
    (runtime
       (failing 500
          (VObject [(js "message", VObject [(js "toString", VNull)])])))
    program no_options quiet start =
  (Ret tt,
   State [OnError (VString (js "Cannot convert object to primitive value"));
          OnComplete] true).
Proof. reflexivity. Qed.

(** ** C3 *)

Lemma frames_are_delivered_in_order_witness :
  snd (decode (runtime (streaming cut_stream)) UTF8.fresh
         (List.concat (chunks cut_stream))) =
    frames [euro_text; envelope_text "end" ""] /\
  compileWithStreaming (runtime (streaming cut_stream)) program no_options quiet
    start =
  (Ret tt, State [OnLog (VString [0x20AC%N]); OnComplete] true) /\
  exists diagnostics,
    compileWithStreaming (runtime (streaming cut_stream)) program no_options
      quiet start =
    (Ret tt, State ([OnLog (VString [0x20AC%N])] ++ OnComplete :: diagnostics) true).
Proof.
  assert (snd (decode (runtime (streaming cut_stream)) UTF8.fresh
                 (List.concat (chunks cut_stream))) =
          frames [euro_text; envelope_text "end" ""]) as Htext
    by (vm_compute; reflexivity).
  split; [exact Htext|].
  destruct (frames_are_delivered_in_order (runtime (streaming cut_stream))
              program no_options quiet cut_stream _
              [euro_text; envelope_text "end" ""]
              (streaming_streams cut_stream) eq_refl eq_refl Htext
              ltac:(lines_no_LF))
    as (Hrun & Hlast & _).
  split.
  - rewrite Hrun. vm_compute. reflexivity.
  - destruct (Hlast _ [euro_text] (envelope_text "end" "") eq_refl eq_refl
                eq_refl ltac:(repeat constructor))
      as (diagnostics & Hfinal & _ & _).
    exists diagnostics. exact Hfinal.
Defined.

(** Frames log, end, status, end, each well formed and the last an end
    envelope: [onStatus] is invoked after [onComplete]. *)
Lemma completion_before_later_events :
  decoded (runtime (streaming Cases.early_end)) Cases.early_end =
    frames [envelope_text "log" "parsing"; envelope_text "end" "";
            envelope_text "status" "compiling"; envelope_text "end" ""] /\
  compileWithStreaming (runtime (streaming Cases.early_end)) program
    no_options quiet start =
  (Ret tt,
   State [OnLog (VString (js "parsing")); OnComplete;
          OnStatus (VString (js "compiling"))] true).
Proof. split; vm_compute; reflexivity. Qed.

(** ** C4 *)

Lemma malformed_line_is_skipped_witness :
  JSON_parse (runtime (streaming garbled_stream)) (js "{oops") = None /\
  compileWithStreaming (runtime (streaming garbled_stream)) program no_options
    quiet start =
  (Ret tt,
   State [OnLog (VString (js "parsing"));
          ConsoleError (JsError (js "Unexpected token"));
          OnStatus (VString (js "compiling")); OnComplete] true).
Proof.
  split; [reflexivity|].
  pose proof (proj2 (malformed_line_is_skipped
                       (runtime (streaming garbled_stream))
                       program no_options quiet garbled_stream
                       (frame_lines [envelope_text "log" "parsing"])
                       (frame_lines [envelope_text "status" "compiling";
                                     envelope_text "end" ""])
                       (js "{oops") [] eq_refl)) as H.
  rewrite H by concrete. vm_compute. reflexivity.
Defined.

(** ** C5 *)

Lemma events_are_routed_by_type_witness :
  let R := runtime unreachable in
  process_line R quiet (js "event: ping") start = (Ret tt, start) /\
  process_line R quiet (js "data: " ++ envelope_text "queue" "2") start =
    (Ret tt, State [OnQueue (VString (js "2"))] false) /\
  process_line R quiet (js "data: " ++ envelope_text "progress" "50%") start =
    (Ret tt, start) /\
  process_line R quiet (js "data: " ++ envelope_text "end" "") start =
    (Ret tt, State [OnComplete] true) /\
  process_line R quiet (js "data: " ++ envelope_text "end" "")
    (State [OnComplete] true) =
    (Ret tt, State [OnComplete] true) /\
  process_line R Cases.without_onLog
    (js "data: " ++ envelope_text "log" "parsing") start =
    (Ret tt, start).
Proof.
  cbv zeta. split; [|split; [|split; [|split; [|split]]]].
  - exact (proj1 (events_are_routed_by_type (runtime unreachable) quiet
                    (js "event: ping") start) eq_refl).
  - destruct (proj2 (events_are_routed_by_type (runtime unreachable) quiet
                       (js "data: " ++ envelope_text "queue" "2") start)
                (envelope_text "queue" "2") (envelope "queue" "2")
                (VString (js "queue")) eq_refl eq_refl eq_refl)
      as (content & Hcontent & _ & Hcall & _).
    rewrite (Hcall (js "queue") OnQueue (fun _ _ => None) eq_refl eq_refl).
    injection Hcontent as <-. reflexivity.
  - destruct (proj2 (events_are_routed_by_type (runtime unreachable) quiet
                       (js "data: " ++ envelope_text "progress" "50%") start)
                (envelope_text "progress" "50%") (envelope "progress" "50%")
                (VString (js "progress")) eq_refl eq_refl eq_refl)
      as (content & _ & _ & _ & _ & _ & Hother).
    apply Hother. split; [reflexivity|discriminate].
  - destruct (proj2 (events_are_routed_by_type (runtime unreachable) quiet
                       (js "data: " ++ envelope_text "end" "") start)
                (envelope_text "end" "") (envelope "end" "")
                (VString (js "end")) eq_refl eq_refl eq_refl)
      as (content & _ & _ & _ & _ & Hend & _).
    exact (Hend eq_refl).
  - destruct (proj2 (events_are_routed_by_type (runtime unreachable) quiet
                       (js "data: " ++ envelope_text "end" "")
                       (State [OnComplete] true))
                (envelope_text "end" "") (envelope "end" "")
                (VString (js "end")) eq_refl eq_refl eq_refl)
      as (content & _ & _ & _ & _ & Hend & _).
    exact (Hend eq_refl).
  - destruct (proj2 (events_are_routed_by_type (runtime unreachable)
                       Cases.without_onLog
                       (js "data: " ++ envelope_text "log" "parsing") start)
                (envelope_text "log" "parsing") (envelope "log" "parsing")
                (VString (js "log")) eq_refl eq_refl eq_refl)
      as (content & _ & _ & _ & Habsent & _).
    exact (Habsent (js "log") OnLog eq_refl eq_refl).
Defined.

(** ** C9 *)

Lemma trailing_fragment_is_dropped_witness :
  decoded (runtime (streaming unterminated_stream)) unterminated_stream =
    lines_text (frame_lines [envelope_text "log" "parsing"])
      ++ (js "data: " ++ envelope_text "blueprint" "0eNG...") /\
  compileWithStreaming (runtime (streaming unterminated_stream)) program
    no_options quiet start =
  (Ret tt, State [OnLog (VString (js "parsing")); OnComplete] true).
Proof.
  split; [vm_compute; reflexivity|].
  rewrite (trailing_fragment_is_dropped
             (runtime (streaming unterminated_stream)) program no_options quiet
             unterminated_stream
             (frame_lines [envelope_text "log" "parsing"])
             (js "data: " ++ envelope_text "blueprint" "0eNG...")) by concrete.
  vm_compute. reflexivity.
Defined.

(** ** C10 *)

Lemma callback_exception_is_swallowed_witness :
  let run := compileWithStreaming (runtime (streaming three_frames)) program
               no_options throwing_onLog start in
  let final := (Ret tt,
                State [OnLog (VString (js "parsing")); ConsoleError boom;
                       OnStatus (VString (js "compiling"));
                       OnComplete; ConsoleError boom] true) in
  run = final /\ run = final.
Proof.
  cbv zeta. split.
  - destruct (callback_exception_is_swallowed
                (runtime (streaming three_frames)) program no_options
                throwing_onLog three_frames
                []
                ([] :: frame_lines [envelope_text "status" "compiling";
                                    envelope_text "end" ""])
                (envelope_text "log" "parsing") []
                (envelope "log" "parsing") (VString (js "parsing")) (js "log")
                ltac:(concrete) ltac:(concrete) ltac:(concrete)
                ltac:(concrete) ltac:(concrete) ltac:(concrete)
                eq_refl eq_refl eq_refl)
      as [Hlog _].
    rewrite (Hlog OnLog (fun _ _ => Some boom) boom eq_refl eq_refl).
    vm_compute. reflexivity.
  - destruct (callback_exception_is_swallowed
                (runtime (streaming three_frames)) program no_options
                throwing_onLog three_frames
                (frame_lines [envelope_text "log" "parsing";
                              envelope_text "status" "compiling"])
                [[]]
                (envelope_text "end" "") []
                (envelope "end" "") (VString []) (js "end")
                ltac:(concrete) ltac:(concrete) ltac:(concrete)
                ltac:(concrete) ltac:(concrete) ltac:(concrete)
                eq_refl eq_refl eq_refl)
      as [_ Hend].
    rewrite (Hend (fun _ => Some boom) boom eq_refl eq_refl eq_refl eq_refl).
    vm_compute. reflexivity.
Defined.

(** ** C6 *)

Example compileSync_success :
  compileSync (runtime (fun _ => Resolved (Response 200
                 (Ret (envelope "blueprint" "0eNG...")) None)))
    program no_options =
  Ret (envelope "blueprint" "0eNG...").
Proof. reflexivity. Qed.

Example compileSync_server_message :
  compileSync (runtime (failing 500 syntax_error)) program no_options =
  Throw (JsError (js "syntax error line 3")).
Proof. reflexivity. Qed.

Example compileSync_fallback :
  compileSync (runtime (failing 503 (VObject []))) program no_options =
  Throw (JsError (js "Server error: 503")).
Proof. reflexivity. Qed.

(** The server answers 500 with the JSON body [null]. *)
Lemma compileSync_null_body_witness :
  compileSync (runtime (failing 500 VNull)) program no_options =
    Throw (JsError (js "Cannot read properties of null (reading 'message')")) /\
  compileSync (runtime (failing 500 VNull)) program no_options <>
    Throw (JsError (js "Server error: 500")).
Proof.
  rewrite (compileSync_null_body (runtime (failing 500 VNull)) program
             no_options (failure 500 VNull) eq_refl eq_refl eq_refl).
  split; [reflexivity|discriminate].
Defined.

(** ** Callers that take strings, failures in transport, endings *)

Import Cases.

Lemma string_safe_onError_completes_witness :
  let final := compileWithStreaming (runtime unreachable) program no_options
                 strict_onError start in
  takes_strings (runtime unreachable) (onError strict_onError) /\
  onComplete_returns (runtime unreachable) strict_onError /\
  completions (trace (snd final)) = 1 /\
  fst final = Ret tt.
Proof.
  cbv zeta.
  assert (takes_strings (runtime unreachable) (onError strict_onError)) as H.
  { intros h Hh tr message. injection Hh as <-. reflexivity. }
  assert (onComplete_returns (runtime unreachable) strict_onError) as H'.
  { intros hc Hhc tr. injection Hhc as <-. reflexivity. }
  destruct (string_safe_onError_completes (runtime unreachable) program
              no_options strict_onError H) as (Hc & _ & Hr).
  split; [exact H|]. split; [exact H'|]. split; [exact Hc|exact (Hr H')].
Defined.

(** The connection breaks after a log frame and half a line. *)
Lemma transport_failure_is_reported_witness :
  transport_failure (runtime (streaming broken_stream)) program no_options
    (js "network error") (frame_lines [envelope_text "log" "parsing"]) /\
  compileWithStreaming (runtime (streaming broken_stream)) program no_options
    quiet start =
  (Ret tt,
   State [OnLog (VString (js "parsing"));
          OnError (VString (js "network error")); OnComplete] true).
Proof.
  assert (transport_failure (runtime (streaming broken_stream)) program
            no_options (js "network error")
            (frame_lines [envelope_text "log" "parsing"])) as H.
  { apply (read_failed (runtime (streaming broken_stream)) program no_options
             broken_stream (js "network error") _ (js "data: {")); concrete. }
  split; [exact H|].
  rewrite (proj1 (transport_failure_is_reported
                    (runtime (streaming broken_stream)) program no_options
                    quiet _ _ H)).
  vm_compute. reflexivity.
Defined.

Lemma close_without_end_completes_witness :
  decoded (runtime (streaming endless_stream)) endless_stream =
    frames [envelope_text "log" "parsing"; envelope_text "blueprint" "0eNG..."]
      ++ [] /\
  compileWithStreaming (runtime (streaming endless_stream)) program no_options
    quiet start =
  (Ret tt,
   State [OnLog (VString (js "parsing")); OnBlueprint (VString (js "0eNG..."));
          OnComplete] true).
Proof.
  split; [vm_compute; reflexivity|].
  destruct (close_without_end_completes
              (runtime (streaming endless_stream)) program no_options quiet
              endless_stream
              [envelope_text "log" "parsing"; envelope_text "blueprint" "0eNG..."]
              [] (streaming_streams endless_stream) eq_refl
              ltac:(vm_compute; reflexivity) ltac:(lines_no_LF)
              ltac:(intros [])
              ltac:(repeat (apply Forall_cons; [reflexivity|]);
                    apply Forall_nil))
    as (_ & _ & _ & Hrun).
  rewrite (Hrun _ eq_refl). vm_compute. reflexivity.
Defined.

Lemma empty_body_completes_witness :
  List.concat (chunks empty_stream) = [] /\
  compileWithStreaming (runtime (streaming empty_stream)) program no_options
    quiet start =
  (Ret tt, State [OnComplete] true).
Proof.
  split; [reflexivity|].
  exact (proj2 (proj2 (empty_body_completes
                         (runtime (streaming empty_stream)) program no_options
                         quiet empty_stream (streaming_streams empty_stream)
                         eq_refl eq_refl)) _ eq_refl eq_refl).
Defined.

(** The status arrives after the end envelope and is delivered after
    [onComplete]; the second end envelope invokes nothing. *)
Lemma events_after_end_are_delivered_witness :
  compileWithStreaming (runtime (streaming early_end)) program no_options quiet
    start =
  (Ret tt,
   State [OnLog (VString (js "parsing")); OnComplete;
          OnStatus (VString (js "compiling"))] true) /\
  exists diagnostics,
    compileWithStreaming (runtime (streaming early_end)) program no_options
      quiet start =
    (Ret tt,
     snd (dispatch_all (runtime (streaming early_end)) quiet
            [envelope_text "status" "compiling"; envelope_text "end" ""]
            (State ([OnLog (VString (js "parsing"))]
                      ++ OnComplete :: diagnostics) true))).
Proof.
  split; [vm_compute; reflexivity|].
  destruct (events_after_end_are_delivered
              (runtime (streaming early_end)) program no_options quiet
              early_end [envelope_text "log" "parsing"]
              [envelope_text "status" "compiling"; envelope_text "end" ""]
              (envelope_text "end" "") [] (fun _ => None)
              (streaming_streams early_end)
              ltac:(vm_compute; reflexivity) ltac:(lines_no_LF)
              ltac:(intros [])
              ltac:(repeat (apply Forall_cons; [reflexivity|]);
                    apply Forall_nil)
              eq_refl eq_refl)
    as (diagnostics & _ & _ & _ & Hrun).
  exists diagnostics. exact Hrun.
Defined.

Lemma clients_agree_on_failure_status_witness :
  compileSync (runtime (failing 500 syntax_error)) program no_options =
    Throw (JsError (js "syntax error line 3")) /\
  exists message,
    compileSync (runtime (failing 500 syntax_error)) program no_options =
      Throw (JsError message) /\
    compileWithStreaming (runtime (failing 500 syntax_error)) program
      no_options quiet start =
    on_failure (runtime (failing 500 syntax_error)) quiet (JsError message)
      start.
Proof.
  split; [reflexivity|].
  exact (clients_agree_on_failure_status
           (runtime (failing 500 syntax_error)) program no_options quiet
           (failure 500 syntax_error) (failure 500 syntax_error)
           eq_refl eq_refl eq_refl eq_refl eq_refl eq_refl).
Defined.

Lemma other_lines_are_ignored_witness :
  let R := runtime (streaming commented_stream) in
  let after := frame_lines [envelope_text "log" "parsing"]
                 ++ [js "data:" ++ envelope_text "end" ""] in
  compileWithStreaming R program no_options quiet start =
    conclude R quiet Closed (deliver R quiet ([] ++ after) start) /\
  compileWithStreaming R program no_options quiet start =
    (Ret tt, State [OnLog (VString (js "parsing")); OnComplete] true).
Proof.
  cbv zeta.
  pose proof (other_lines_are_ignored (runtime (streaming commented_stream))
                program no_options quiet commented_stream []
                [js ": ping"; js "event: message"]
                (frame_lines [envelope_text "log" "parsing"]
                   ++ [js "data:" ++ envelope_text "end" ""]) []
                (streaming_streams commented_stream)
                ltac:(vm_compute; reflexivity) ltac:(lines_no_LF)
                ltac:(intros [])
                ltac:(repeat (apply Forall_cons; [reflexivity|]);
                      apply Forall_nil)) as Hrun.
  split; [exact Hrun|]. rewrite Hrun. vm_compute. reflexivity.
Defined.

(** ** The application at work *)

Import Pages.

Lemma downloads_have_safe_names_witness :
  js "0eNG..." <> [] /\
  downloadBlueprint (js "0eNG...") (js "  my blueprint #2 ") =
    [Download (js "my_blueprint__2.txt") (js "text/plain") (js "0eNG...");
     Toast (js "Blueprint saved as my_blueprint__2.txt") (js "success")] /\
  exists blueprint_base json_base,
    downloadBlueprint (js "0eNG...") (js "  my blueprint #2 ") =
      [Download (blueprint_base ++ js ".txt") (js "text/plain") (js "0eNG...");
       Toast (js "Blueprint saved as " ++ blueprint_base ++ js ".txt")
             (js "success")] /\
    forallb is_safe blueprint_base = true /\
    forallb is_safe json_base = true.
Proof.
  split; [discriminate|]. split; [reflexivity|].
  destruct (downloads_have_safe_names (js "0eNG...")
              (js "  my blueprint #2 ") ltac:(discriminate))
    as (b & j & Hb & _ & Hsafe & Hsafe' & _).
  exists b, j. repeat split; assumption.
Defined.

Lemma editor_content_survives_reload_witness :
  forallb is_white_space (js " Signal b = 2; ") = false /\
  forallb is_white_space (js "   ") = true /\
  initial_content examples (saveEditorContent (js "Signal b = 2;") []) =
    (Some (js "Signal b = 2;"), Some (js "binaryClock")) /\
  initial_content examples
    (saveEditorContent (js "   ") (saveEditorContent (js "Signal b = 2;") [])) =
    (Some (js "Signal a = 1;"), Some (js "blinker")).
Proof.
  split; [reflexivity|]. split; [reflexivity|]. split.
  - rewrite (proj2 (proj1 (editor_content_survives_reload
                             (js "Signal b = 2;") [] examples) eq_refl)).
    reflexivity.
  - rewrite (proj2 (proj1 (proj2 (editor_content_survives_reload
                                    (js "   ")
                                    (saveEditorContent (js "Signal b = 2;") [])
                                    examples)) eq_refl)).
    reflexivity.
Defined.

Lemma theme_toggle_alternates_witness :
  ThemeManager.getTheme loaded = js "dark" /\
  ThemeManager.getTheme (ThemeManager.toggle loaded) = js "light" /\
  ThemeManager.getTheme (ThemeManager.toggle (ThemeManager.toggle loaded)) =
    ThemeManager.getTheme loaded.
Proof.
  split; [reflexivity|]. split; [reflexivity|].
  exact (proj1 (proj2 (proj2 (theme_toggle_alternates loaded)))
           (or_introl eq_refl)).
Defined.

Lemma theme_survives_reload_witness :
  ThemeManager.localStorage reloaded =
    ThemeManager.localStorage (ThemeManager.toggle loaded) /\
  ThemeManager.getTheme (ThemeManager.init true reloaded) = js "light".
Proof.
  split; [reflexivity|].
  rewrite (proj1 (theme_survives_reload loaded reloaded true eq_refl)).
  reflexivity.
Defined.

Lemma theme_follows_the_system_witness :
  getItem ThemeManager.STORAGE_KEY (ThemeManager.localStorage loaded) = None /\
  ThemeManager.getTheme (ThemeManager.init false loaded) = js "light" /\
  ThemeManager.getTheme
    (ThemeManager.preference_changed true (ThemeManager.init false loaded)) =
    js "dark".
Proof.
  split; [reflexivity|].
  destruct (theme_follows_the_system loaded false eq_refl) as (H1 & _ & H2).
  split; [exact H1|exact (proj1 (H2 true))].
Defined.

Lemma theme_is_shown_witness :
  ThemeManager.theme_icon_dark (ThemeManager.setTheme (js "light") true loaded) =
    Some [js "theme-icon"; js "theme-icon-dark"; js "hidden"] /\
  exists dark' light' wrapper',
    ThemeManager.theme_icon_dark
      (ThemeManager.setTheme (js "light") true loaded) = Some dark' /\
    ThemeManager.theme_icon_light
      (ThemeManager.setTheme (js "light") true loaded) = Some light' /\
    ThemeManager.CodeMirror
      (ThemeManager.setTheme (js "light") true loaded) = Some wrapper' /\
    DOMTokenList.contains (js "hidden") dark' = true /\
    DOMTokenList.contains (js "hidden") light' = false /\
    DOMTokenList.contains (js "cm-s-facto") wrapper' = false /\
    DOMTokenList.contains (js "cm-s-facto-light") wrapper' = true.
Proof.
  split; [reflexivity|].
  destruct (theme_is_shown (js "light") true loaded _ _ _
              eq_refl eq_refl eq_refl)
    as (d & l & w & H1 & H2 & H3 & H4 & H5 & H6 & H7 & _).
  exists d, l, w. repeat split; assumption.
Defined.

Lemma debounce_runs_the_last_call_witness :
  Timers.ran (Timers.after 1000 typing) = [(1400%N, js "Si")] /\
  forall when args,
    In (when, args) (Timers.ran (Timers.after 1000 typing)) ->
    exists before later called,
      typing = before ++ later /\
      Timers.last_call before = Some (called, args) /\
      when = Timers.duration before /\ (called + 1000 <= when)%N.
Proof.
  split; [reflexivity|].
  exact (proj1 (proj2 (proj2 (proj2
           (debounce_runs_the_last_call jstring 1000 typing))))).
Defined.

Lemma handleCompile_sends_the_page_witness :
  forallb is_white_space (editor_value filled) = false /\
  compile_arguments filled =
    Some (js "Signal a = 1;",
          Chosen.Make (Some (js "my lamp")) None (js "debug") true) /\
  exists source opts,
    compile_arguments filled = Some (source, opts) /\
    requestBody (runtime unreachable) source (as_options Z opts) =
    VObject [
      (js "source", VString source);
      (js "power_poles", VNull);
      (js "blueprint_name", VString (js "my lamp"));
      (js "no_optimize", VBool true);
      (js "json_output", VBool false);
      (js "log_level", VString (js "debug"))
    ].
Proof.
  split; [reflexivity|]. split; [reflexivity|].
  destruct (proj2 (handleCompile_sends_the_page (runtime unreachable) filled)
              eq_refl)
    as (source & opts & _ & _ & Hargs & _ & _ & _ & _ & Hbody).
  exists source, opts. split; [exact Hargs|exact Hbody].
Defined.

(** The key of the page [filled], and a string with a line feed, a quote and
    a lone surrogate between the quotes. *)
Example key_of_filled :
  getCompilationKey (js "Signal a = 1;")
    (Chosen.Make (Some (js "my lamp")) None (js "debug") true) =
  js "{" ++ quoted "source" ++ js ":" ++ quoted "Signal a = 1;"
    ++ js "," ++ quoted "powerPoles" ++ js ":null"
    ++ js "," ++ quoted "blueprintName" ++ js ":" ++ quoted "my lamp"
    ++ js "," ++ quoted "noOptimize" ++ js ":true"
    ++ js "," ++ quoted "logLevel" ++ js ":" ++ quoted "debug" ++ js "}" /\
  QuoteJSONString (js "a" ++ [10; 34; 0xD83D; 0xDE00; 0xDC00]%N) =
  [quote] ++ js "a\n\" ++ [quote; 0xD83D; 0xDE00]%N ++ js "\udc00" ++ [quote].
Proof. split; reflexivity. Qed.

Lemma compilation_key_is_injective_witness :
  getCompilationKey (js "Signal a = 1;")
    (Chosen.Make (Some (js "my lamp")) None (js "debug") true) =
  getCompilationKey (trim (editor_value filled))
    (Chosen.Make (or_null (trim (blueprintName_value filled)))
                 (or_null (powerPoles_value filled))
                 (logLevel_value filled) (noOptimize_checked filled)) /\
  js "Signal a = 1;" = trim (editor_value filled).
Proof.
  split; [reflexivity|].
  exact (proj1 (compilation_key_is_injective
                  (js "Signal a = 1;") (trim (editor_value filled))
                  (Chosen.Make (Some (js "my lamp")) None (js "debug") true)
                  (Chosen.Make (or_null (trim (blueprintName_value filled)))
                               (or_null (powerPoles_value filled))
                               (logLevel_value filled)
                               (noOptimize_checked filled))
                  eq_refl)).
Defined.

(** The page loaded again after a toggle to the light theme: the editor is
    made dark and ends light. *)
Lemma editor_starts_in_the_theme_witness :
  ThemeManager.CodeMirror
    (init_theme true [js "CodeMirror"; js "cm-s-facto"] reloaded) =
    Some [js "CodeMirror"; js "cm-s-facto-light"] /\
  ThemeManager.getTheme
    (init_theme true [js "CodeMirror"; js "cm-s-facto"] reloaded) = js "light".
Proof.
  split; [reflexivity|].
  rewrite (proj1 (editor_starts_in_the_theme true
                    [js "CodeMirror"; js "cm-s-facto"] reloaded)).
  reflexivity.
Defined.

(** A delay of 2^31 ms is out of the range of [setTimeout]: the timer is due
    at once. *)
Example debounce_with_a_delay_out_of_range :
  Timers.timeout (2 ^ 31) = 0%N /\
  Timers.ran (Timers.after (2 ^ 31) [Timers.Call (js "S"); Timers.Fire 1]) =
    [(0%N, js "S")].
Proof. split; reflexivity. Qed.
